(** * react_map: the data-correlation and classification engine of [src/App.jsx]

    A shallow embedding of the parts of [App.jsx] that carry logic:
    [getColorForValue], the identifier extraction of [handleKmlUpload],
    the tabular parser of [handleCsvUpload], the derived values of [App]
    ([csvIdMap], [metricValues], [metricMin], [metricMax]) and the two
    callbacks handed to the [GeoJSON] layer ([style], [onEachFeature]).

    JavaScript data is modelled as the program has it:
    - a String is a sequence of UTF-16 code units ([jsstring]);
    - a Number is an IEEE 754 binary64 value ([num], the standard library's
      [spec_float] at precision 53 and maximal exponent 1024);
    - a dynamically typed slot is a [value];
    - a [Map] and a property bag are finite maps ([gmap]). *)

From Stdlib Require Import ZArith NArith List Bool Ascii String Lia.
From Stdlib Require Import Floats.SpecFloat.
From stdpp Require Import base option list gmap fin_maps.

Local Open Scope Z_scope.

(* ===================================================================== *)
(** * Strings *)
(* ===================================================================== *)

Module Str.

(** A UTF-16 code unit. *)
Definition code_unit := N.

(** A JavaScript String value. *)
Definition jsstring := list code_unit.

(** A string literal of the source (ASCII only). *)
Definition lit (s : string) : jsstring :=
  List.map N_of_ascii (list_ascii_of_string s).

Definition LF : code_unit := 10%N.
Definition CR : code_unit := 13%N.
Definition COMMA : code_unit := 44%N.

(** WhiteSpace and LineTerminator code points, the characters removed by
    [String.prototype.trim] and skipped by the [Number] conversion. *)
Definition is_white_space (c : code_unit) : bool :=
  ((9 <=? c) && (c <=? 13) || (c =? 32) || (c =? 160) || (c =? 5760)
   || (8192 <=? c) && (c <=? 8202) || (c =? 8232) || (c =? 8233)
   || (c =? 8239) || (c =? 8287) || (c =? 12288) || (c =? 65279))%N.

Fixpoint trimStart (s : jsstring) : jsstring :=
  match s with
  | [] => []
  | c :: r => if is_white_space c then trimStart r else s
  end.

Fixpoint trimEnd (s : jsstring) : jsstring :=
  match s with
  | [] => []
  | c :: r =>
      match trimEnd r with
      | [] => if is_white_space c then [] else [c]
      | r' => c :: r'
      end
  end.

(** [s.trim()] *)
Definition trim (s : jsstring) : jsstring := trimEnd (trimStart s).

(** Prepends a code unit to the first piece of a split. *)
Definition cons_head (c : code_unit) (ps : list jsstring) : list jsstring :=
  match ps with
  | [] => [[c]]
  | p :: ps' => (c :: p) :: ps'
  end.

(** [s.split(',')] for a one-unit separator: never the empty array. *)
Fixpoint split_on (sep : code_unit) (s : jsstring) : list jsstring :=
  match s with
  | [] => [[]]
  | c :: r =>
      if (c =? sep)%N then [] :: split_on sep r
      else cons_head c (split_on sep r)
  end.

(** [s.split(/\r?\n/)]: a line feed, together with the carriage return
    just before it when there is one, separates two pieces. *)
Fixpoint split_lines (s : jsstring) : list jsstring :=
  match s with
  | [] => [[]]
  | c :: r =>
      if (c =? LF)%N then [] :: split_lines r
      else
        match r with
        | d :: r' =>
            if ((c =? CR) && (d =? LF))%N then [] :: split_lines r'
            else cons_head c (split_lines r)
        | [] => [[c]]
        end
  end.

(** [arr.indexOf(x)] on an array of strings; [None] stands for [-1]. *)
Fixpoint indexOf (arr : list jsstring) (x : jsstring) : option nat :=
  match arr with
  | [] => None
  | y :: ys =>
      if decide (y = x) then Some 0%nat
      else option_map S (indexOf ys x)
  end.

(** The decimal digits of a natural number, most significant first. *)
Fixpoint digits_fuel (fuel : nat) (n : Z) (acc : jsstring) : jsstring :=
  match fuel with
  | O => acc
  | S fuel' =>
      let acc' := Z.to_N (48 + n mod 10) :: acc in
      if n <? 10 then acc' else digits_fuel fuel' (n / 10) acc'
  end.

Definition decimal (n : Z) : jsstring :=
  digits_fuel (S (Z.to_nat (Z.log2 n))) n [].

End Str.

Export Str.

(* ===================================================================== *)
(** * Numbers *)
(* ===================================================================== *)

Module Num.

Definition prec : Z := 53.
Definition emax : Z := 1024.

(** A JavaScript Number: a binary64 value.  The values a program can hold
    are the canonical ones, [valid x = true]. *)
Definition num := spec_float.

Definition valid (x : num) : bool := valid_binary prec emax x.

Definition NaN : num := S754_nan.
Definition pos_zero : num := S754_zero false.
Definition Infinity : num := S754_infinity false.

Definition add (x y : num) : num := SFadd prec emax x y.
Definition sub (x y : num) : num := SFsub prec emax x y.
Definition mul (x y : num) : num := SFmul prec emax x y.
Definition div (x y : num) : num := SFdiv prec emax x y.

(** [x === y] on Numbers. *)
Definition strict_eq (x y : num) : bool := SFeqb x y.

(** The Number value of a mathematical integer (a numeric literal). *)
Definition of_Z (z : Z) : num := binary_normalize prec emax z 0 false.

(** [Number.isFinite] on a Number. *)
Definition isFinite (x : num) : bool :=
  match x with
  | S754_zero _ | S754_finite _ _ _ => true
  | S754_infinity _ | S754_nan => false
  end.

(** The Number value of [m * 10 ^ e] for a positive integer [m], rounded
    to nearest, ties to even. *)
Definition of_decimal (neg : bool) (m : positive) (e : Z) : num :=
  if 0 <=? e then
    binary_normalize prec emax (cond_Zopp neg (Zpos m * 10 ^ e)) 0 false
  else
    let '(q, e', l) := SFdiv_core_binary prec emax (Zpos m) 0 (10 ^ (- e)) 0 in
    binary_round_aux prec emax neg q e' l.

(** [Math.round]: the closest integer, a tie going towards +Infinity; the
    sign of a zero result is that of the argument. *)
Definition Math_round (x : num) : num :=
  match x with
  | S754_finite s m e =>
      if 0 <=? e then x
      else
        let den := 2 ^ (- e) in
        binary_normalize prec emax
          ((2 * cond_Zopp s (Zpos m) + den) / (2 * den)) 0 s
  | _ => x
  end.

(** One step of [Math.min]: NaN is contagious and -0 is below +0. *)
Definition min2 (a b : num) : num :=
  match SFcompare a b with
  | None => NaN
  | Some Lt => a
  | Some Gt => b
  | Some Eq =>
      match a, b with
      | S754_zero sa, S754_zero sb => S754_zero (sa || sb)
      | _, _ => a
      end
  end.

Definition max2 (a b : num) : num :=
  match SFcompare a b with
  | None => NaN
  | Some Lt => b
  | Some Gt => a
  | Some Eq =>
      match a, b with
      | S754_zero sa, S754_zero sb => S754_zero (sa && sb)
      | _, _ => a
      end
  end.

(** [Math.min(...xs)] and [Math.max(...xs)]. *)
Definition Math_min (xs : list num) : num :=
  fold_left min2 xs (S754_infinity false).

Definition Math_max (xs : list num) : num :=
  fold_left max2 xs (S754_infinity true).

(** ** String to Number *)

Definition is_digit (c : code_unit) : bool := ((48 <=? c) && (c <=? 57))%N.

(** The value of a digit in a radix up to 16; [None] when [c] is not one. *)
Definition digit_in (radix : Z) (c : code_unit) : option Z :=
  let v :=
    if ((48 <=? c) && (c <=? 57))%N then Z.of_N c - 48
    else if ((97 <=? c) && (c <=? 102))%N then Z.of_N c - 87
    else if ((65 <=? c) && (c <=? 70))%N then Z.of_N c - 55
    else radix in
  if v <? radix then Some v else None.

(** Reads a maximal run of decimal digits: the accumulated value, the
    number of digits read and the rest of the input. *)
Fixpoint read_digits (s : jsstring) (acc : Z) (n : Z) : Z * Z * jsstring :=
  match s with
  | c :: r =>
      if is_digit c then read_digits r (10 * acc + (Z.of_N c - 48)) (n + 1)
      else (acc, n, s)
  | [] => (acc, n, [])
  end.

(** Reads digits of [radix] up to the end of the input; [None] on any other
    code unit. *)
Fixpoint read_radix (radix : Z) (s : jsstring) (acc : Z) : option Z :=
  match s with
  | [] => Some acc
  | c :: r =>
      match digit_in radix c with
      | Some v => read_radix radix r (radix * acc + v)
      | None => None
      end
  end.

(** ExponentPart, which must end the literal; no part is exponent 0. *)
Definition read_exponent (s : jsstring) : option Z :=
  match s with
  | [] => Some 0
  | c :: r =>
      if ((c =? 101) || (c =? 69))%N then
        let '(neg, r') :=
          match r with
          | d :: r0 =>
              if (d =? 45)%N then (true, r0)
              else if (d =? 43)%N then (false, r0)
              else (false, r)
          | [] => (false, r)
          end in
        match read_digits r' 0 0 with
        | (v, n, []) => if 0 <? n then Some (cond_Zopp neg v) else None
        | _ => None
        end
      else None
  end.

(** StrUnsignedDecimalLiteral with the sign already read. *)
Definition unsigned_decimal (neg : bool) (s : jsstring) : num :=
  if decide (s = lit "Infinity") then S754_infinity neg
  else
    let '(i, ni, r1) := read_digits s 0 0 in
    let '(m, nf, r2) :=
      match r1 with
      | c :: r =>
          if (c =? 46)%N then read_digits r i 0 else (i, 0, r1)
      | [] => (i, 0, r1)
      end in
    if (ni + nf) <? 1 then NaN
    else
      match read_exponent r2 with
      | None => NaN
      | Some ex =>
          match m with
          | Zpos p => of_decimal neg p (ex - nf)
          | _ => S754_zero neg
          end
      end.

(** StringToNumber: the Number a String converts to. *)
Definition StringToNumber (s : jsstring) : num :=
  match trim s with
  | [] => pos_zero
  | c :: r =>
      if (c =? 45)%N then unsigned_decimal true r
      else if (c =? 43)%N then unsigned_decimal false r
      else
        match r with
        | d :: ((_ :: _) as ds) =>
            if (c =? 48)%N && ((d =? 120) || (d =? 88))%N
            then from_option of_Z NaN (read_radix 16 ds 0)
            else if (c =? 48)%N && ((d =? 111) || (d =? 79))%N
            then from_option of_Z NaN (read_radix 8 ds 0)
            else if (c =? 48)%N && ((d =? 98) || (d =? 66))%N
            then from_option of_Z NaN (read_radix 2 ds 0)
            else unsigned_decimal false (c :: r)
        | _ => unsigned_decimal false (c :: r)
        end
  end.

(** ** Number to String *)

Definition same (a b : num) : bool :=
  match a, b with
  | S754_finite sa ma ea, S754_finite sb mb eb =>
      Bool.eqb sa sb && (ma =? mb)%positive && (ea =? eb)
  | _, _ => false
  end.

(** The least [n], from [n] upwards, with [P / Q < 10 ^ n]. *)
Fixpoint magnitude (fuel : nat) (P Q n : Z) : Z :=
  match fuel with
  | O => n
  | S fuel' =>
      if (if 0 <=? n then P <? Q * 10 ^ n else P * 10 ^ (- n) <? Q)
      then n else magnitude fuel' P Q (n + 1)
  end.

(** The shortest decimal [s * 10 ^ (n - k)], [s] of [k] digits, whose
    Number value is [x = P / Q]; among two, the one closer to [x]. *)
Fixpoint shortest (fuel : nat) (x : num) (P Q n k : Z) : Z * Z * Z :=
  let A := if 0 <=? n - k then P else P * 10 ^ (k - n) in
  let B := if 0 <=? n - k then Q * 10 ^ (n - k) else Q in
  let lo := A / B in
  let hi := lo + 1 in
  let ok (s : Z) :=
    match s with
    | Zpos p => same (of_decimal false p (n - k)) x
    | _ => false
    end in
  let pick (s : Z) := if s =? 10 ^ k then (10 ^ (k - 1), k, n + 1) else (s, k, n) in
  let lo_closer := (2 * (A mod B) <? B) || ((2 * (A mod B) =? B) && Z.even lo) in
  match fuel with
  | O => (lo, k, n)
  | S fuel' =>
      if ok lo && (negb (ok hi) || lo_closer) then pick lo
      else if ok hi then pick hi
      else shortest fuel' x P Q n (k + 1)
  end.

Definition zeros (n : Z) : jsstring := List.repeat 48%N (Z.to_nat n).

(** The layout of Number::toString for [k] digits [s] and exponent [n]. *)
Definition layout (s k n : Z) : jsstring :=
  let ds := decimal s in
  if (k <=? n) && (n <=? 21) then ds ++ zeros (n - k)
  else if (0 <? n) && (n <=? 21) then
    take (Z.to_nat n) ds ++ lit "." ++ drop (Z.to_nat n) ds
  else if (-6 <? n) && (n <=? 0) then lit "0." ++ zeros (- n) ++ ds
  else
    let ex := lit (if n - 1 <? 0 then "e-" else "e+") ++ decimal (Z.abs (n - 1)) in
    if k =? 1 then ds ++ ex
    else take 1 ds ++ lit "." ++ drop 1 ds ++ ex.

(** Number::toString in radix 10, as a template literal applies it. *)
Definition Number_toString (x : num) : jsstring :=
  match x with
  | S754_nan => lit "NaN"
  | S754_zero _ => lit "0"
  | S754_infinity s => lit (if s then "-Infinity" else "Infinity")
  | S754_finite s m e =>
      let P := if 0 <=? e then Zpos m * 2 ^ e else Zpos m in
      let Q := if 0 <=? e then 1 else 2 ^ (- e) in
      let size := Z.abs e + Zpos (digits2_pos m) in
      let n := magnitude (Z.to_nat (2 * size + 2)) P Q (- size) in
      let '(d, k, n') := shortest 17 (S754_finite false m e) P Q n 1 in
      lit (if s then "-" else "") ++ layout d k n'
  end.

End Num.

Export Num.

(* ===================================================================== *)
(** * Dynamically typed values *)
(* ===================================================================== *)

Module Js.

(** The values a slot of the program can hold.  [VObject] is any object
    (always truthy, without a [trim] method); the program never looks
    inside one. *)
Inductive value :=
| VUndefined
| VNull
| VBool (b : bool)
| VNumber (x : num)
| VString (s : jsstring)
| VObject.

(** ToBoolean. *)
Definition truthy (v : value) : bool :=
  match v with
  | VUndefined | VNull => false
  | VBool b => b
  | VNumber x =>
      match x with
      | S754_zero _ | S754_nan => false
      | _ => true
      end
  | VString s =>
      match s with
      | [] => false
      | _ => true
      end
  | VObject => true
  end.

(** [a || b] *)
Definition or_else (a b : value) : value := if truthy a then a else b.

Infix "|||" := or_else (at level 50, left associativity).

(** [Number.isFinite(v)]: false for everything that is not a Number. *)
Definition Number_isFinite (v : value) : bool :=
  match v with
  | VNumber x => isFinite x
  | _ => false
  end.

(** [Number(v)] (ToNumber); an object stands for a plain one. *)
Definition Number (v : value) : num :=
  match v with
  | VUndefined => NaN
  | VNull => pos_zero
  | VBool b => if b then of_Z 1 else pos_zero
  | VNumber x => x
  | VString s => StringToNumber s
  | VObject => NaN
  end.

(** An array element or attribute that may be missing: [undefined] (or
    [null]) when it is. *)
Definition of_option (missing : value) (o : option jsstring) : value :=
  match o with
  | Some s => VString s
  | None => missing
  end.

(** A property bag: the own properties of a plain object. *)
Abbreviation object := (gmap jsstring value).

(** [o[key]] on an object that exists. *)
Definition get (o : object) (key : string) : value :=
  default VUndefined (o !! lit key).

(** [o?.[key]]: [undefined] when [o] is [null] or [undefined]. *)
Definition get_opt (o : option object) (key : string) : value :=
  match o with
  | Some o' => get o' key
  | None => VUndefined
  end.

End Js.

Export Js.

(* ===================================================================== *)
(** * Outcomes of the handlers *)
(* ===================================================================== *)

(** What a [try] block does: it completes with a value or throws. *)
Inductive completion (A : Type) :=
| Normal (a : A)
| Throw.

Arguments Normal {A} a.
Arguments Throw {A}.

Definition bind {A B} (c : completion A) (k : A -> completion B) : completion B :=
  match c with
  | Normal a => k a
  | Throw => Throw
  end.

Notation "x <- c ;; k" := (bind c (fun x => k))
  (at level 100, c at next level, right associativity).

(** The toast shown by [message.success], [message.warning] or
    [message.error]. *)
Inductive level := success | warning | error.

Record message := Message { msg_level : level; msg_text : string }.

(** The spec's taxonomy of parse errors. *)
Inductive ParseError := EmptyDocument | Malformed | EmptyTable | MissingColumns.

Definition says (m : message) (l : level) (t : string) : bool :=
  match msg_level m, l with
  | success, success | warning, warning | error, error => String.eqb (msg_text m) t
  | _, _ => false
  end.

(** The parse error a toast of the handlers reports, if any: the reading of
    the spec's taxonomy on the messages of the source. *)
Definition parse_error_of (m : message) : option ParseError :=
  if says m warning "KML file contains no features" then Some EmptyDocument
  else if says m error "Failed to parse KML file. Please check the file format."
  then Some Malformed
  else if says m warning "CSV file appears to be empty" then Some EmptyTable
  else if says m error "CSV must contain id, revenue and cost columns"
  then Some MissingColumns
  else if says m error "Failed to parse CSV file. Please check the file format."
  then Some Malformed
  else None.

(* ===================================================================== *)
(** * Classifier: [getColorForValue] *)
(* ===================================================================== *)

(** The neutral colour, returned when there is no usable scale. *)
Definition default_purple : jsstring := lit "#7c3aed".

(** The template literal [`rgb(${r}, ${g}, ${b})`]. *)
Definition rgb (r g b : num) : jsstring :=
  lit "rgb(" ++ Number_toString r ++ lit ", " ++ Number_toString g
    ++ lit ", " ++ Number_toString b ++ lit ")".

(** One channel: [Math.round(start + (end - start) * t)]. *)
Definition channel (start_c end_c : Z) (t : num) : num :=
  Math_round (add (of_Z start_c) (mul (sub (of_Z end_c) (of_Z start_c)) t)).

(** [getColorForValue(value, min, max)].  The comparison [min === max] is
    reached only when the three arguments are finite Numbers, where it is
    the comparison of the Numbers. *)
Definition getColorForValue (value min max : value) : jsstring :=
  if negb (Number_isFinite value)
     || negb (Number_isFinite min)
     || negb (Number_isFinite max)
     || strict_eq (Number min) (Number max)
  then default_purple
  else
    let t := div (sub (Number value) (Number min)) (sub (Number max) (Number min)) in
    let r := channel 237 88 t in
    let g := channel 233 28 t in
    let b := channel 254 135 t in
    rgb r g b.

(* ===================================================================== *)
(** * Application state *)
(* ===================================================================== *)

(** A GeoJSON feature, as [toGeoJSON.kml] builds it and [handleKmlUpload]
    completes it: the members the program reads or writes.  [f_properties]
    is [None] when the member is [null] or missing. *)
Record feature := Feature {
  f_id : value;
  f_properties : option object
}.

(** The feature collection; [features] is [None] when the member is
    missing. *)
Record geojson := GeoJson { features : option (list feature) }.

(** An object of [rows]: [id] is [undefined] ([None]) when the line has no
    cell at the identifier's index. *)
Record csvRow := CsvRow {
  id : option jsstring;
  revenue : num;
  cost : num
}.

(** The two values the metric selector offers. *)
Inductive metric := Revenue | Cost.

(** [row[selectedMetric]] *)
Definition field (m : metric) (row : csvRow) : num :=
  match m with
  | Revenue => revenue row
  | Cost => cost row
  end.

(** The state hooks of [App] that the engine reads or writes. *)
Record app_state := AppState {
  kmlData : option geojson;
  csvRows : list csvRow;
  selectedMetric : metric
}.

(* ===================================================================== *)
(** * Geo document: [handleKmlUpload] *)
(* ===================================================================== *)

(** What the handler reads of a [Placemark] element of the parsed document:
    [getAttribute('id')] ([None] for [null]) and the text content of its
    first [name] descendant ([None] when [querySelector] finds none). *)
Record placemark := Placemark {
  attr_id : option jsstring;
  name_text : option jsstring
}.

(** An entry [{ id, name }] of [placemarkData]. *)
Record placemarkDatum := Datum {
  pd_id : option jsstring;
  pd_name : jsstring
}.

Definition describe (p : placemark) : placemarkDatum :=
  {| pd_id := attr_id p; pd_name := default [] (name_text p) |}.

(** [placemarks.map(...).filter(p => p.id)] *)
Definition placemarkData (placemarks : list placemark) : list placemarkDatum :=
  List.filter (fun p => truthy (of_option VNull (pd_id p)))
    (List.map describe placemarks).

(** The body of [placemarkData.forEach(p => ...)] on [nameToIdMap]. *)
Definition remember (m : gmap jsstring jsstring) (p : placemarkDatum)
  : gmap jsstring jsstring :=
  match pd_id p with
  | Some i =>
      if truthy (VString (pd_name p)) && truthy (VString i)
      then <[trim (pd_name p) := i]> m
      else m
  | None => m
  end.

Definition nameToIdMap (data : list placemarkDatum) : gmap jsstring jsstring :=
  fold_left remember data ∅.

(** [v.trim()]: a String has the method, anything else throws. *)
Definition trim_method (v : value) : completion jsstring :=
  match v with
  | VString s => Normal (trim s)
  | _ => Throw
  end.

(** [(feature.properties?.name || feature.properties?.Name || '')] *)
Definition display_name (f : feature) : value :=
  get_opt (f_properties f) "name" ||| get_opt (f_properties f) "Name" ||| VString [].

(** The identifier the [forEach] body computes for the feature at [index]:
    the one of [placemarkData[index]], else the one its name maps to. *)
Definition resolve_id (data : list placemarkDatum) (names : gmap jsstring jsstring)
    (index : nat) (f : feature) : completion value :=
  let id0 :=
    match data !! index with
    | Some p => of_option VNull (pd_id p)
    | None => VUndefined
    end in
  if negb (truthy id0) then
    featureName <- trim_method (display_name f) ;;
    Normal (of_option VUndefined (names !! featureName))
  else Normal id0.

(** Stores a resolved identifier in the three places. *)
Definition store_id (i : value) (f : feature) : feature :=
  if truthy i then
    {| f_id := i;
       f_properties :=
         Some (<[lit "placemarkId" := i]>
                 (<[lit "id" := i]> (default ∅ (f_properties f)))) |}
  else f.

(** [if (!feature.id && feature.properties?.id) feature.id = feature.properties.id] *)
Definition preserve_id (f : feature) : feature :=
  if negb (truthy (f_id f)) && truthy (get_opt (f_properties f) "id")
  then {| f_id := get_opt (f_properties f) "id"; f_properties := f_properties f |}
  else f.

(** The body of [geojson.features.forEach((feature, index) => ...)]. *)
Definition add_id (data : list placemarkDatum) (names : gmap jsstring jsstring)
    (index : nat) (f : feature) : completion feature :=
  i <- resolve_id data names index f ;;
  Normal (preserve_id (store_id i f)).

(** [forEach] over the features from [index] on; the first throw ends it. *)
Fixpoint forEach (body : nat -> feature -> completion feature)
    (index : nat) (fs : list feature) : completion (list feature) :=
  match fs with
  | [] => Normal []
  | f :: fs' =>
      f' <- body index f ;;
      rest <- forEach body (S index) fs' ;;
      Normal (f' :: rest)
  end.

(** [geojson.features && geojson.features.length > 0] *)
Definition has_features (g : geojson) : bool :=
  match features g with
  | Some fs => (0 <? length fs)%nat
  | None => false
  end.

(** The [try] block up to the decision to publish: the collection with the
    identifiers added. *)
Definition add_ids (placemarks : list placemark) (g : geojson) : completion geojson :=
  let data := placemarkData placemarks in
  let names := nameToIdMap data in
  if has_features g then
    fs <- forEach (add_id data names) 0 (default [] (features g)) ;;
    Normal (GeoJson (Some fs))
  else Normal g.

(** [reader.onload] of [handleKmlUpload].  The two library calls are its
    inputs: [placemarks] is [kml.querySelectorAll('Placemark')] in document
    order and [g] is [toGeoJSON.kml(kml)]. *)
Definition handleKmlUpload (st : app_state) (placemarks : list placemark)
    (g : geojson) : app_state * message :=
  match add_ids placemarks g with
  | Normal g' =>
      if has_features g' then
        ({| kmlData := Some g'; csvRows := csvRows st;
            selectedMetric := selectedMetric st |},
         Message success "KML file loaded successfully")
      else (st, Message warning "KML file contains no features")
  | Throw =>
      (st, Message error "Failed to parse KML file. Please check the file format.")
  end.

(* ===================================================================== *)
(** * Tabular dataset: [handleCsvUpload] *)
(* ===================================================================== *)

(** [line.split(',').map(c => c.trim())] *)
Definition cells (line : jsstring) : list jsstring :=
  List.map trim (split_on COMMA line).

(** The callback of [lines.slice(1).map(...)]. *)
Definition parse_row (idIndex revenueIndex costIndex : nat) (line : jsstring) : csvRow :=
  let cols := cells line in
  {| id := cols !! idIndex;
     revenue := Number (of_option VUndefined (cols !! revenueIndex));
     cost := Number (of_option VUndefined (cols !! costIndex)) |}.

(** [reader.onload] of [handleCsvUpload] on the text of the file. *)
Definition handleCsvUpload (st : app_state) (text : jsstring) : app_state * message :=
  let lines := split_lines (trim text) in
  if (length lines <? 2)%nat then
    (st, Message warning "CSV file appears to be empty")
  else
    let header := cells (default [] (head lines)) in
    match indexOf header (lit "id"), indexOf header (lit "revenue"),
          indexOf header (lit "cost") with
    | Some idIndex, Some revenueIndex, Some costIndex =>
        let rows := List.map (parse_row idIndex revenueIndex costIndex) (drop 1 lines) in
        ({| kmlData := kmlData st; csvRows := rows; selectedMetric := Revenue |},
         Message success "CSV file loaded successfully")
    | _, _, _ =>
        (st, Message error "CSV must contain id, revenue and cost columns")
    end.

(* ===================================================================== *)
(** * Join, range and presentation: the body of [App] *)
(* ===================================================================== *)

(** [csvIdMap]: the rows by identifier, a later row replacing an earlier
    one.  A key is a String or [undefined] ([None]). *)
Definition csvIdMap (rows : list csvRow) : gmap (option jsstring) csvRow :=
  fold_left (fun m row => <[id row := row]> m) rows ∅.

Definition metricValues (st : app_state) : list num :=
  if (0 <? length (csvRows st))%nat then
    List.filter isFinite
      (List.map (fun row => Number (VNumber (field (selectedMetric st) row)))
         (csvRows st))
  else [].

(** [metricMin] and [metricMax]; [None] is [null]. *)
Definition metricMin (st : app_state) : option num :=
  if (0 <? length (metricValues st))%nat then Some (Math_min (metricValues st))
  else None.

Definition metricMax (st : app_state) : option num :=
  if (0 <? length (metricValues st))%nat then Some (Math_max (metricValues st))
  else None.

(** [feature?.id || feature?.properties?.id || feature?.properties?.Id ||
    feature?.properties?.ID]; the feature itself may be missing. *)
Definition featureId (f : option feature) : value :=
  let props := f ≫= f_properties in
  from_option f_id VUndefined f ||| get_opt props "id" ||| get_opt props "Id"
    ||| get_opt props "ID".

(** [featureId ? csvIdMap.get(featureId) : null].  The keys are Strings or
    [undefined], so a truthy identifier that is not a String is the same
    value as none of them. *)
Definition csvRowOf (rows : list csvRow) (fid : value) : option csvRow :=
  if truthy fid then
    match fid with
    | VString s => csvIdMap rows !! Some s
    | _ => None
    end
  else None.

(** The object the [style] callback returns. *)
Record path_style := PathStyle {
  color : value;
  weight : value;
  opacity : value;
  fillColor : value;
  fillOpacity : value
}.

Definition style (st : app_state) (f : option feature) : path_style :=
  let props := f ≫= f_properties in
  let csvRow := csvRowOf (csvRows st) (featureId f) in
  let fillColor0 := get_opt props "fill" ||| VString (lit "#3388ff") in
  let strokeColor0 := get_opt props "stroke" ||| VString (lit "#3388ff") in
  let '(fillColor1, strokeColor1) :=
    match csvRow, metricMin st, metricMax st with
    | Some row, Some mn, Some mx =>
        let v := Number (VNumber (field (selectedMetric st) row)) in
        let c := getColorForValue (VNumber v) (VNumber mn) (VNumber mx) in
        (VString c, VString c)
    | _, _, _ => (fillColor0, strokeColor0)
    end in
  {| color := strokeColor1;
     weight := get_opt props "stroke-width" ||| VNumber (of_Z 3);
     opacity := get_opt props "stroke-opacity" ||| VNumber (of_decimal false 8 (-1));
     fillColor := fillColor1;
     fillOpacity := get_opt props "fill-opacity" ||| VNumber (of_decimal false 2 (-1)) |}.

(** What [onEachFeature] binds to the layer: the values interpolated into
    the popup, without its markup.  The listed identifiers are those of
    [csvRows], none when there is no row. *)
Inductive popup :=
| RecordPopup (featureName : value) (row : csvRow)
| DiagnosticPopup (featureName : value) (shownId : value)
    (availableIds : list (option jsstring)).

Definition onEachFeature (st : app_state) (f : option feature) : popup :=
  let props := f ≫= f_properties in
  let fid := featureId f in
  let featureName :=
    get_opt props "name" ||| get_opt props "Name" ||| VString (lit "Unnamed") in
  match csvRowOf (csvRows st) fid with
  | Some row => RecordPopup featureName row
  | None => DiagnosticPopup featureName fid (List.map id (csvRows st))
  end.

(* ===================================================================== *)
(** * The vocabulary of the specification *)
(* ===================================================================== *)

(** The two anchors of the colour scale, as the classifier prints them. *)
Definition light_anchor : jsstring := lit "rgb(237, 233, 254)".
Definition dark_anchor : jsstring := lit "rgb(88, 28, 135)".

(** A placemark that has both a name and an identifier: its trimmed name
    and its identifier. *)
Definition named_id (p : placemark) : option (jsstring * jsstring) :=
  match attr_id p, name_text p with
  | Some i, Some n =>
      if truthy (VString n) && truthy (VString i) then Some (trim n, i) else None
  | _, _ => None
  end.

(** The identifier a name maps to, in the words of the spec: that of the
    last placemark, in source order, with both a name and an identifier
    whose trimmed name is [k]. *)
Fixpoint last_named (k : jsstring) (placemarks : list placemark) : option jsstring :=
  match placemarks with
  | [] => None
  | p :: rest =>
      match last_named k rest with
      | Some i => Some i
      | None =>
          match named_id p with
          | Some (n, i) => if decide (n = k) then Some i else None
          | None => None
          end
      end
  end.

(** The record index in the words of the spec: the last row, in file order,
    whose identifier is [k]. *)
Fixpoint last_with_id (k : option jsstring) (rows : list csvRow) : option csvRow :=
  match rows with
  | [] => None
  | r :: rest =>
      match last_with_id k rest with
      | Some r' => Some r'
      | None => if decide (id r = k) then Some r else None
      end
  end.

(** The four places an identifier is looked for, in order. *)
Definition candidates (f : option feature) : list value :=
  let props := f ≫= f_properties in
  [from_option f_id VUndefined f; get_opt props "id"; get_opt props "Id";
   get_opt props "ID"].

Definition defined (v : value) : bool :=
  match v with
  | VUndefined => false
  | _ => true
  end.

(** The record under the identifier [o], with exact string equality;
    [None] is "no match". *)
Definition record_under (rows : list csvRow) (o : option value) : option csvRow :=
  match o with
  | Some (VString s) => last_with_id (Some s) rows
  | _ => None
  end.

(** The Join Resolver as the spec words it: the first defined candidate. *)
Definition resolve_first_defined (rows : list csvRow) (f : option feature) : option csvRow :=
  record_under rows (List.find defined (candidates f)).

(** The Join Resolver on the first truthy candidate. *)
Definition resolve_first_truthy (rows : list csvRow) (f : option feature) : option csvRow :=
  record_under rows (List.find truthy (candidates f)).

(** The property [key] of a feature, when the feature has it. *)
Definition property (props : option object) (key : string) : option value :=
  props ≫= (fun o => o !! lit key).

(** A style property as the spec words it: passed through when the feature
    has it, the default when it is absent. *)
Definition pass_through (props : option object) (key : string) (dflt : value) : value :=
  match property props key with
  | Some v => v
  | None => dflt
  end.

(** The lines of a tabular text and the trimmed cells of its header. *)
Definition lines_of (text : jsstring) : list jsstring := split_lines (trim text).

Definition header_of (text : jsstring) : list jsstring :=
  cells (default [] (head (lines_of text))).

Definition dataLines (text : jsstring) : list jsstring := drop 1 (lines_of text).

(** The header has the three required columns. *)
Definition has_columns (header : list jsstring) : Prop :=
  lit "id" ∈ header ∧ lit "revenue" ∈ header ∧ lit "cost" ∈ header.

(** A cell that is empty or made of white space only. *)
Definition blank (cell : jsstring) : Prop :=
  Forall (fun c => is_white_space c = true) cell.

(** ** The end-to-end scenario of the spec *)

Module Scenario.

(** The placemarks in source order: "North" without an identifier, "South"
    with "S2", and the separate name-tagged "North" with "S1". *)
Definition placemarks : list placemark :=
  [ Placemark None (Some (lit "North"));
    Placemark (Some (lit "S2")) (Some (lit "South"));
    Placemark (Some (lit "S1")) (Some (lit "North")) ].

Definition named (n : string) : object := {[ lit "name" := VString (lit n) ]}.

(** The two features of the document, with whatever identifiers the
    conversion has already put on them. *)
Definition collection (id0 id1 : value) : geojson :=
  GeoJson (Some [Feature id0 (Some (named "North"));
                 Feature id1 (Some (named "South"))]).

Definition table : jsstring :=
  lit "id,revenue,cost" ++ [LF] ++ lit "S1,100,40" ++ [LF] ++ lit "S2,200,150".

Definition initial : app_state := AppState None [] Revenue.

(** Both uploads done; the metric selector is on revenue. *)
Definition loaded (id0 id1 : value) : app_state :=
  fst (handleCsvUpload
         (fst (handleKmlUpload initial placemarks (collection id0 id1)))
         table).

(** The properties of a feature once the identifier [i] is stored. *)
Definition stored (n i : string) : object :=
  <[lit "placemarkId" := VString (lit i)]>
    (<[lit "id" := VString (lit i)]> (named n)).

End Scenario.

(* ===================================================================== *)
(** * Map controls: [handleSetCenter] and [handleSetZoom] *)
(* ===================================================================== *)

(** [s] without the prefix [p], when it starts with it. *)
Fixpoint strip_prefix (p s : jsstring) : option jsstring :=
  match p, s with
  | [], _ => Some s
  | a :: p', b :: s' => if (a =? b)%N then strip_prefix p' s' else None
  | _ :: _, [] => None
  end.

(** The exponent of an ExponentPart that starts [s]; 0 when [s] does not
    start with a complete one, which leaves the literal without exponent. *)
Definition exponent_prefix (s : jsstring) : Z :=
  match s with
  | [] => 0
  | c :: r =>
      if ((c =? 101) || (c =? 69))%N then
        let '(neg, r') :=
          match r with
          | d :: r0 =>
              if (d =? 45)%N then (true, r0)
              else if (d =? 43)%N then (false, r0)
              else (false, r)
          | [] => (false, r)
          end in
        let '(v, n, _) := read_digits r' 0 0 in
        if 0 <? n then cond_Zopp neg v else 0
      else 0
  end.

(** The longest prefix of [s] that is a StrUnsignedDecimalLiteral, as a
    Number; NaN when no prefix is one. *)
Definition parseFloat_unsigned (neg : bool) (s : jsstring) : num :=
  match strip_prefix (lit "Infinity") s with
  | Some _ => S754_infinity neg
  | None =>
      let '(i, ni, r1) := read_digits s 0 0 in
      let '(m, nf, r2) :=
        match r1 with
        | c :: r =>
            if (c =? 46)%N then read_digits r i 0 else (i, 0, r1)
        | [] => (i, 0, r1)
        end in
      if (ni + nf) <? 1 then NaN
      else
        match m with
        | Zpos p => of_decimal neg p (exponent_prefix r2 - nf)
        | _ => S754_zero neg
        end
  end.

(** [parseFloat(s)] on a String: leading white space is skipped and what
    follows the longest decimal literal is ignored. *)
Definition parseFloat (s : jsstring) : num :=
  match trimStart s with
  | [] => NaN
  | c :: r =>
      if (c =? 45)%N then parseFloat_unsigned true r
      else if (c =? 43)%N then parseFloat_unsigned false r
      else parseFloat_unsigned false (c :: r)
  end.

(** [isNaN(x)] on a Number. *)
Definition isNaN (x : num) : bool :=
  match x with
  | S754_nan => true
  | _ => false
  end.

(** [x < y] and [x > y] on Numbers. *)
Definition less (x y : num) : bool := SFltb x y.
Definition greater (x y : num) : bool := SFltb y x.

(** The state hooks of [App] behind the map controls; [center] is the array
    [[lat, lng]]. *)
Record view_state := ViewState {
  center : num * num;
  lat : jsstring;
  lng : jsstring;
  zoom : num;
  zoomInput : jsstring
}.

(** [DEFAULT_CENTER] *)
Definition DEFAULT_CENTER : num * num :=
  (StringToNumber (lit "47.5316"), StringToNumber (lit "21.6273")).

(** The initial values of the hooks. *)
Definition initial_view : view_state :=
  {| center := DEFAULT_CENTER;
     lat := Number_toString (fst DEFAULT_CENTER);
     lng := Number_toString (snd DEFAULT_CENTER);
     zoom := of_Z 13;
     zoomInput := lit "13" |}.

Definition handleSetCenter (vs : view_state) : view_state * message :=
  let latNum := parseFloat (lat vs) in
  let lngNum := parseFloat (lng vs) in
  if isNaN latNum || isNaN lngNum then
    (vs, Message error "Please enter valid coordinates")
  else if less latNum (of_Z (-90)) || greater latNum (of_Z 90) then
    (vs, Message error "Latitude must be between -90 and 90")
  else if less lngNum (of_Z (-180)) || greater lngNum (of_Z 180) then
    (vs, Message error "Longitude must be between -180 and 180")
  else
    ({| center := (latNum, lngNum); lat := lat vs; lng := lng vs;
        zoom := zoom vs; zoomInput := zoomInput vs |},
     Message success "Map center updated").

Definition handleSetZoom (vs : view_state) : view_state * message :=
  let zoomNum := parseFloat (zoomInput vs) in
  if isNaN zoomNum then
    (vs, Message error "Please enter a valid zoom level")
  else if less zoomNum (of_Z 1) || greater zoomNum (of_Z 20) then
    (vs, Message error "Zoom level must be between 1 and 20")
  else
    ({| center := center vs; lat := lat vs; lng := lng vs;
        zoom := zoomNum; zoomInput := zoomInput vs |},
     Message success "Zoom level updated").

(** What the user can do to the hooks of the map controls: type into one of
    the three inputs, or press one of the two buttons. *)
Inductive view_step : view_state -> view_state -> Prop :=
| type_lat (vs : view_state) (s : jsstring) :
    view_step vs {| center := center vs; lat := s; lng := lng vs;
                    zoom := zoom vs; zoomInput := zoomInput vs |}
| type_lng (vs : view_state) (s : jsstring) :
    view_step vs {| center := center vs; lat := lat vs; lng := s;
                    zoom := zoom vs; zoomInput := zoomInput vs |}
| type_zoom (vs : view_state) (s : jsstring) :
    view_step vs {| center := center vs; lat := lat vs; lng := lng vs;
                    zoom := zoom vs; zoomInput := s |}
| press_center (vs : view_state) : view_step vs (fst (handleSetCenter vs))
| press_zoom (vs : view_state) : view_step vs (fst (handleSetZoom vs)).

Inductive view_reachable : view_state -> Prop :=
| view_start : view_reachable initial_view
| view_next (vs vs' : view_state) :
    view_reachable vs -> view_step vs vs' -> view_reachable vs'.

(** [a <= x <= b] on Numbers. *)
Definition between (a b : Z) (x : num) : Prop :=
  SFleb (of_Z a) x = true /\ SFleb x (of_Z b) = true.

(* ===================================================================== *)
(** * The datasets over time *)
(* ===================================================================== *)

(** What the user can do to the hooks of the engine: upload a document,
    upload a table, press "Clear KML", shown while a collection is loaded,
    or pick a metric in the selector, shown while there are rows. *)
Inductive step : app_state -> app_state -> Prop :=
| upload_kml (st : app_state) (placemarks : list placemark) (g : geojson) :
    step st (fst (handleKmlUpload st placemarks g))
| upload_csv (st : app_state) (text : jsstring) :
    step st (fst (handleCsvUpload st text))
| clear_kml (st : app_state) :
    kmlData st <> None ->
    step st {| kmlData := None; csvRows := csvRows st;
               selectedMetric := selectedMetric st |}
| select_metric (st : app_state) (m : metric) :
    csvRows st <> [] ->
    step st {| kmlData := kmlData st; csvRows := csvRows st;
               selectedMetric := m |}.

Inductive reachable : app_state -> Prop :=
| start : reachable Scenario.initial
| next (st st' : app_state) : reachable st -> step st st' -> reachable st'.

(** An identifier as the tabular parser lets it through: trimmed, without
    comma and without line feed. *)
Definition clean (i : jsstring) : Prop :=
  (trim i = i) ∧ (COMMA ∉ i) ∧ (LF ∉ i).

(** A text with carriage return and line feed for every line feed, as an
    editor that writes Windows line ends saves it. *)
Fixpoint crlf (s : jsstring) : jsstring :=
  match s with
  | [] => []
  | c :: r => if (c =? LF)%N then CR :: LF :: crlf r else c :: crlf r
  end.

(** Two lines that differ by a carriage return at the end at most. *)
Definition same_line (a b : jsstring) : Prop := a = b \/ a = b ++ [CR].

(** ** The order of Numbers *)

(** A position on the number line for every Number but NaN: compared
    lexicographically, these triples order the Numbers as [<] does. *)
Definition ord (x : num) : Z * Z * Z :=
  match x with
  | S754_nan => (0, 0, 0)
  | S754_zero _ => (0, 0, 0)
  | S754_infinity s => (if s then -2 else 2, 0, 0)
  | S754_finite s m e => if s then (-1, - e, - Zpos m) else (1, e, Zpos m)
  end.

(** [a <= b] on positions. *)
Definition ord_le (a b : Z * Z * Z) : Prop :=
  a.1.1 < b.1.1
  \/ (a.1.1 = b.1.1 /\ (a.1.2 < b.1.2 \/ (a.1.2 = b.1.2 /\ a.2 <= b.2))).

Definition lex_compare (a b : Z * Z * Z) : comparison :=
  let '(a1, a2, a3) := a in
  let '(b1, b2, b3) := b in
  match a1 ?= b1 with
  | Eq => match a2 ?= b2 with Eq => (a3 ?= b3) | c => c end
  | c => c
  end.

(* ===================================================================== *)
(** * Facts on binary floating-point arithmetic *)
(* ===================================================================== *)

Section FloatFacts.

Variables prec emax : Z.
Hypothesis prec_pos : 0 < prec.

Let emin := SpecFloat.emin prec emax.

Lemma digits2_bounds (p : positive) :
  2 ^ (Zpos (digits2_pos p) - 1) <= Zpos p < 2 ^ Zpos (digits2_pos p).
Proof.
  induction p as [p IH | p IH |]; simpl digits2_pos.
  - rewrite Pos2Z.inj_succ.
    replace (Z.succ (Zpos (digits2_pos p)) - 1) with (Z.succ (Zpos (digits2_pos p) - 1)) by lia.
    rewrite !Z.pow_succ_r by lia. lia.
  - rewrite Pos2Z.inj_succ.
    replace (Z.succ (Zpos (digits2_pos p)) - 1) with (Z.succ (Zpos (digits2_pos p) - 1)) by lia.
    rewrite !Z.pow_succ_r by lia. lia.
  - simpl. lia.
Qed.

Lemma iter_xO (d m : positive) : Zpos (Pos.iter xO m d) = Zpos m * 2 ^ Zpos d.
Proof.
  revert m. induction d as [| d IH] using Pos.peano_ind; intros m.
  - simpl. lia.
  - rewrite Pos.iter_succ, Pos2Z.inj_succ, Z.pow_succ_r by lia.
    rewrite Pos2Z.inj_xO, IH. lia.
Qed.

Lemma shl_align_value (m : positive) (e e' : Z) :
  e' <= e -> Zpos (fst (shl_align m e e')) = Zpos m * 2 ^ (e - e').
Proof.
  intros Hle. unfold shl_align.
  destruct (e' - e) as [| d | d] eqn:Hd; simpl fst.
  - replace (e - e') with 0 by lia. simpl. lia.
  - lia.
  - rewrite iter_xO. f_equal. f_equal. lia.
Qed.

Lemma shl_align_exp (m : positive) (e e' : Z) :
  snd (shl_align m e e') = Z.min e e'.
Proof.
  unfold shl_align. destruct (e' - e) eqn:Hd; simpl; lia.
Qed.

Lemma shr_1_div2 (mrs : shr_record) :
  0 <= shr_m mrs -> shr_m (shr_1 mrs) = shr_m mrs / 2.
Proof.
  destruct mrs as [m r s]. cbn [shr_m]. intros Hm.
  destruct m as [| [p | p |] |]; cbn [shr_1 shr_m]; try lia.
  - reflexivity.
  - apply Z.div_unique with (r := 1); lia.
  - apply Z.div_unique with (r := 0); lia.
  - reflexivity.
Qed.

Lemma iter_shr_1 (p : positive) (mrs : shr_record) :
  0 <= shr_m mrs ->
  shr_m (SpecFloat.iter_pos shr_1 p mrs) = shr_m mrs / 2 ^ Zpos p.
Proof.
  revert mrs. induction p as [p IH | p IH |]; intros mrs Hm;
    cbn [SpecFloat.iter_pos].
  - assert (Hpow : 0 < 2 ^ Zpos p) by (apply Z.pow_pos_nonneg; lia).
    assert (H1 : 0 <= shr_m (shr_1 mrs))
      by (rewrite shr_1_div2 by lia; apply Z.div_pos; lia).
    assert (H2 : 0 <= shr_m (SpecFloat.iter_pos shr_1 p (shr_1 mrs)))
      by (rewrite IH by lia; apply Z.div_pos; lia).
    rewrite IH, IH, shr_1_div2 by lia.
    rewrite !Z.div_div by lia.
    f_equal. rewrite Pos2Z.inj_xI.
    replace (2 * Zpos p + 1) with (Zpos p + Zpos p + 1) by lia.
    rewrite !Z.pow_add_r, Z.pow_1_r by lia. ring.
  - assert (Hpow : 0 < 2 ^ Zpos p) by (apply Z.pow_pos_nonneg; lia).
    assert (H2 : 0 <= shr_m (SpecFloat.iter_pos shr_1 p mrs))
      by (rewrite IH by lia; apply Z.div_pos; lia).
    rewrite IH, IH by lia.
    rewrite !Z.div_div by lia.
    f_equal. change (Zpos p~0) with (2 * Zpos p).
    replace (2 * Zpos p) with (Zpos p + Zpos p) by lia.
    rewrite Z.pow_add_r by lia. reflexivity.
  - rewrite shr_1_div2 by lia. reflexivity.
Qed.

(** Shifting a positive mantissa to its canonical exponent leaves it
    positive, and the exponent stays at or above [emin]. *)
Lemma shr_fexp_pos (m e : Z) (l : location) :
  0 < m -> emin <= e ->
  0 < shr_m (fst (shr_fexp prec emax m e l))
  /\ emin <= snd (shr_fexp prec emax m e l).
Proof.
  intros Hm He. unfold shr_fexp, shr.
  assert (Hrec : shr_m (shr_record_of_loc m l) = m)
    by (destruct l as [| []]; reflexivity).
  destruct m as [| p |]; try lia. cbn [Zdigits2].
  destruct (SpecFloat.fexp prec emax (Zpos (digits2_pos p) + e) - e)
    as [| n | n] eqn:Hn; cbn [fst snd]; try (rewrite Hrec; lia).
  unfold SpecFloat.fexp in Hn. fold emin in Hn.
  assert (Hn' : Zpos n = Zpos (digits2_pos p) - prec) by lia.
  split; [| lia].
  rewrite iter_shr_1 by (rewrite Hrec; lia). rewrite Hrec.
  pose proof (digits2_bounds p) as [Hlo _].
  assert (Hpow : 0 < 2 ^ Zpos n) by (apply Z.pow_pos_nonneg; lia).
  assert (Hle : 2 ^ Zpos n <= 2 ^ (Zpos (digits2_pos p) - 1))
    by (apply Z.pow_le_mono_r; lia).
  apply Z.div_str_pos. lia.
Qed.

Lemma round_nearest_even_pos (m : Z) (l : location) :
  0 < m -> 0 < round_nearest_even m l.
Proof.
  intros Hm. destruct l as [| []]; cbn [round_nearest_even]; try lia.
  destruct (Z.even m); lia.
Qed.

(** Rounding a positive mantissa never gives a zero or a NaN. *)
Lemma binary_round_aux_pos (s : bool) (m e : Z) (l : location) :
  0 < m -> emin <= e ->
  match binary_round_aux prec emax s m e l with
  | S754_finite s' _ _ | S754_infinity s' => s' = s
  | _ => False
  end.
Proof.
  intros Hm He. unfold binary_round_aux.
  pose proof (shr_fexp_pos m e l Hm He) as [H1 H1'].
  destruct (shr_fexp prec emax m e l) as [mrs' e'] eqn:E1. cbn [fst snd] in *.
  pose proof (round_nearest_even_pos (shr_m mrs') (loc_of_shr_record mrs') H1) as H2.
  pose proof (shr_fexp_pos _ e' loc_Exact H2 H1') as [H3 _].
  destruct (shr_fexp prec emax _ e' loc_Exact) as [mrs'' e''] eqn:E2.
  cbn [fst] in H3.
  destruct (shr_m mrs''); try lia.
  destruct (e'' <=? emax - prec); reflexivity.
Qed.

Lemma binary_normalize_nonzero (m e : Z) (sz : bool) :
  m <> 0 -> emin <= e ->
  match binary_normalize prec emax m e sz with
  | S754_finite s _ _ | S754_infinity s => s = (m <? 0)
  | _ => False
  end.
Proof.
  intros Hm He.
  assert (Haux : forall s p,
    match binary_round prec emax s p e with
    | S754_finite s' _ _ | S754_infinity s' => s' = s
    | _ => False
    end).
  { intros s p. unfold binary_round.
    pose proof (shl_align_exp p e (SpecFloat.fexp prec emax (Zpos (digits2_pos p) + e))) as Hexp.
    destruct (shl_align p e _) as [mz ez]. cbn [snd] in Hexp.
    apply binary_round_aux_pos; [lia |].
    subst ez. unfold SpecFloat.fexp. fold emin. lia. }
  destruct m as [| p | p]; cbn [binary_normalize]; try lia.
  - apply (Haux false).
  - apply (Haux true).
Qed.

(** What being canonical says of a mantissa and its exponent. *)
Lemma bounded_inv (m : positive) (e : Z) :
  bounded prec emax m e = true ->
  emin <= e /\ Zpos m < 2 ^ prec /\ (emin < e -> 2 ^ (prec - 1) <= Zpos m).
Proof.
  unfold bounded, canonical_mantissa, SpecFloat.fexp. fold emin.
  intros H. apply andb_prop in H as [H _]. apply Z.eqb_eq in H.
  pose proof (digits2_bounds m) as [Hlo Hhi].
  split; [lia |]. split.
  - assert (2 ^ Zpos (digits2_pos m) <= 2 ^ prec)
      by (apply Z.pow_le_mono_r; lia). lia.
  - intros He. replace prec with (Zpos (digits2_pos m)) by lia. exact Hlo.
Qed.

(** Two canonical pairs that differ denote different magnitudes, also
    once aligned on the smaller exponent. *)
Lemma aligned_distinct (m1 m2 : positive) (e1 e2 : Z) :
  bounded prec emax m1 e1 = true -> bounded prec emax m2 e2 = true ->
  (e1 = e2 -> m1 <> m2) ->
  Zpos m1 * 2 ^ (e1 - Z.min e1 e2) <> Zpos m2 * 2 ^ (e2 - Z.min e1 e2).
Proof.
  intros B1 B2 Hne.
  apply bounded_inv in B1 as (He1 & Hm1 & Hn1).
  apply bounded_inv in B2 as (He2 & Hm2 & Hn2).
  assert (Hprec : 2 ^ prec = 2 * 2 ^ (prec - 1)).
  { replace prec with (Z.succ (prec - 1)) at 1 by lia.
    apply Z.pow_succ_r. lia. }
  destruct (Z.lt_trichotomy e1 e2) as [Hlt | [Heq | Hgt]].
  - rewrite Z.min_l, Z.sub_diag, Z.pow_0_r by lia.
    assert (2 ^ 1 <= 2 ^ (e2 - e1)) by (apply Z.pow_le_mono_r; lia).
    rewrite Z.pow_1_r in *. specialize (Hn2 ltac:(lia)). nia.
  - subst e2. rewrite Z.min_id, Z.sub_diag, Z.pow_0_r.
    specialize (Hne eq_refl). lia.
  - rewrite Z.min_r, Z.sub_diag, Z.pow_0_r by lia.
    assert (2 ^ 1 <= 2 ^ (e1 - e2)) by (apply Z.pow_le_mono_r; lia).
    rewrite Z.pow_1_r in *. specialize (Hn1 ltac:(lia)). nia.
Qed.

(** The difference of two canonical finite numbers that are not equal is
    never a zero or a NaN: there is no underflow to zero. *)
Lemma SFsub_finite_distinct (s1 s2 : bool) (m1 m2 : positive) (e1 e2 : Z) :
  bounded prec emax m1 e1 = true -> bounded prec emax m2 e2 = true ->
  SFeqb (S754_finite s2 m2 e2) (S754_finite s1 m1 e1) = false ->
  match SFsub prec emax (S754_finite s1 m1 e1) (S754_finite s2 m2 e2) with
  | S754_finite _ _ _ | S754_infinity _ => True
  | _ => False
  end.
Proof.
  intros B1 B2 Hneq. cbn [SFsub].
  pose proof (aligned_distinct m1 m2 e1 e2 B1 B2) as Hd.
  rewrite !shl_align_value by lia.
  set (a := Zpos m1 * 2 ^ (e1 - Z.min e1 e2)) in *.
  set (b := Zpos m2 * 2 ^ (e2 - Z.min e1 e2)) in *.
  assert (Ha : 0 < a) by (apply Z.mul_pos_pos; [lia | apply Z.pow_pos_nonneg; lia]).
  assert (Hb : 0 < b) by (apply Z.mul_pos_pos; [lia | apply Z.pow_pos_nonneg; lia]).
  assert (Hnz : cond_Zopp s1 a - cond_Zopp s2 b <> 0).
  { destruct s1, s2; cbn [cond_Zopp]; try lia.
    - assert (a <> b); [| lia]. apply Hd. intros -> ->.
      unfold SFeqb in Hneq. cbn [SFcompare] in Hneq.
      rewrite Z.compare_refl, Pos.compare_cont_refl in Hneq. discriminate.
    - assert (a <> b); [| lia]. apply Hd. intros -> ->.
      unfold SFeqb in Hneq. cbn [SFcompare] in Hneq.
      rewrite Z.compare_refl, Pos.compare_cont_refl in Hneq. discriminate. }
  apply bounded_inv in B1 as (He1 & _). apply bounded_inv in B2 as (He2 & _).
  pose proof (binary_normalize_nonzero _ (Z.min e1 e2) false Hnz ltac:(fold emin; lia)) as H.
  destruct (binary_normalize _ _ _ _ _); tauto.
Qed.

(** A finite number minus itself is +0. *)
Lemma SFsub_diag (x : spec_float) :
  match x with S754_zero _ | S754_finite _ _ _ => True | _ => False end ->
  SFsub prec emax x x = S754_zero false.
Proof.
  destruct x as [[] | | | s m e]; try tauto; intros _; try reflexivity.
  cbn [SFsub]. rewrite Z.sub_diag. reflexivity.
Qed.

End FloatFacts.

(** ** The quotient of a number by itself *)

Lemma div_eucl_shiftl (m n : positive) :
  Z.div_eucl (Z.shiftl (Zpos m) (Zpos n)) (Zpos m) = (2 ^ Zpos n, 0).
Proof.
  rewrite Z.shiftl_mul_pow2 by lia.
  pose proof (Z.div_mul (2 ^ Zpos n) (Zpos m) ltac:(lia)) as Hq.
  pose proof (Z.mod_mul (2 ^ Zpos n) (Zpos m) ltac:(lia)) as Hr.
  rewrite (Z.mul_comm (Zpos m)).
  unfold Z.div, Z.modulo in Hq, Hr.
  destruct (Z.div_eucl (2 ^ Zpos n * Zpos m) (Zpos m)) as [q r].
  congruence.
Qed.

Lemma div_self (s : bool) (m : positive) (e : Z) :
  div (S754_finite s m e) (S754_finite s m e) = of_Z 1.
Proof.
  unfold div. cbn [SFdiv]. unfold SFdiv_core_binary. cbv zeta.
  rewrite !Z.sub_diag.
  change (0 - Z.min (SpecFloat.fexp prec emax 0) 0) with 53.
  cbv iota.
  rewrite div_eucl_shiftl.
  replace (new_location (Zpos m) 0) with loc_Exact
    by (unfold new_location; destruct (Z.even (Zpos m)); reflexivity).
  rewrite xorb_nilpotent. reflexivity.
Qed.

Lemma sub_self (x : num) : isFinite x = true -> sub x x = pos_zero.
Proof.
  intros H. apply SFsub_diag. destruct x; try discriminate; exact I.
Qed.

Lemma sub_distinct (x y : num) :
  valid x = true -> valid y = true ->
  isFinite x = true -> isFinite y = true ->
  strict_eq y x = false ->
  match sub x y with
  | S754_finite _ _ _ | S754_infinity _ => True
  | _ => False
  end.
Proof.
  intros Vx Vy Fx Fy Hne.
  destruct x as [sx | | | sx mx ex], y as [sy | | | sy my ey];
    try discriminate; unfold sub; cbn [SFsub]; try exact I.
  apply SFsub_finite_distinct; try assumption. unfold prec. lia.
Qed.

(* ===================================================================== *)
(** * The classifier *)
(* ===================================================================== *)

Section Classifier.

Lemma scale_at_zero (s : bool) :
  rgb (channel 237 88 (S754_zero s)) (channel 233 28 (S754_zero s))
      (channel 254 135 (S754_zero s)) = light_anchor.
Proof. destruct s; vm_compute; reflexivity. Qed.

Lemma scale_at_one :
  rgb (channel 237 88 (of_Z 1)) (channel 233 28 (of_Z 1))
      (channel 254 135 (of_Z 1)) = dark_anchor.
Proof. vm_compute. reflexivity. Qed.

Lemma getColorForValue_not_finite (v mn mx : value) :
  Number_isFinite v = false \/ Number_isFinite mn = false
    \/ Number_isFinite mx = false ->
  getColorForValue v mn mx = default_purple.
Proof.
  unfold getColorForValue. intros [H | [H | H]]; rewrite H; cbn [negb orb];
    rewrite ?orb_true_r; reflexivity.
Qed.

Lemma getColorForValue_flat (v : value) (a b : num) :
  strict_eq a b = true ->
  getColorForValue v (VNumber a) (VNumber b) = default_purple.
Proof.
  unfold getColorForValue. cbn [Number]. intros ->.
  rewrite !orb_true_r. reflexivity.
Qed.

Lemma getColorForValue_scale (v a b : num) :
  isFinite v = true -> isFinite a = true -> isFinite b = true ->
  strict_eq a b = false ->
  getColorForValue (VNumber v) (VNumber a) (VNumber b) =
    let t := div (sub v a) (sub b a) in
    rgb (channel 237 88 t) (channel 233 28 t) (channel 254 135 t).
Proof.
  intros Hv Ha Hb Hne. unfold getColorForValue.
  cbn [Number_isFinite Number]. rewrite Hv, Ha, Hb, Hne. reflexivity.
Qed.

Lemma getColorForValue_min (a b : num) :
  valid a = true -> valid b = true ->
  isFinite a = true -> isFinite b = true ->
  strict_eq a b = false ->
  getColorForValue (VNumber a) (VNumber a) (VNumber b) = light_anchor.
Proof.
  intros Va Vb Fa Fb Hne.
  rewrite getColorForValue_scale by assumption. cbv zeta.
  rewrite sub_self by assumption.
  pose proof (sub_distinct b a Vb Va Fb Fa Hne) as Hd.
  destruct (sub b a) as [| sd | | sd md ed]; try contradiction;
    apply scale_at_zero.
Qed.

Lemma getColorForValue_max (a b : num) :
  valid a = true -> valid b = true ->
  isFinite a = true -> isFinite b = true ->
  strict_eq a b = false ->
  isFinite (sub b a) = true ->
  getColorForValue (VNumber b) (VNumber a) (VNumber b) = dark_anchor.
Proof.
  intros Va Vb Fa Fb Hne Hd.
  rewrite getColorForValue_scale by assumption. cbv zeta.
  pose proof (sub_distinct b a Vb Va Fb Fa Hne) as Hnz.
  destruct (sub b a) as [| sd | | sd md ed]; try contradiction;
    try discriminate.
  rewrite div_self. apply scale_at_one.
Qed.

End Classifier.

(** C4 (amended).  [getColorForValue] returns the neutral constant when an
    argument is not a finite Number (an absent bound included) or when
    [min === max]; otherwise each channel is
    [round(light + (dark - light) * t)] with [t = (value - min) / (max - min)]
    between the anchors (237, 233, 254) and (88, 28, 135); at [value = min]
    the result is exactly the light anchor; at [value = max] it is exactly
    the dark anchor provided [max - min] is itself a finite Number. *)
Theorem getColorForValue_laws :
  (forall v mn mx : value,
      Number_isFinite v = false \/ Number_isFinite mn = false
        \/ Number_isFinite mx = false ->
      getColorForValue v mn mx = default_purple)
  /\ (forall (v : value) (a b : num),
        strict_eq a b = true ->
        getColorForValue v (VNumber a) (VNumber b) = default_purple)
  /\ (forall v a b : num,
        isFinite v = true -> isFinite a = true -> isFinite b = true ->
        strict_eq a b = false ->
        getColorForValue (VNumber v) (VNumber a) (VNumber b) =
          let t := div (sub v a) (sub b a) in
          rgb (Math_round (add (of_Z 237) (mul (sub (of_Z 88) (of_Z 237)) t)))
              (Math_round (add (of_Z 233) (mul (sub (of_Z 28) (of_Z 233)) t)))
              (Math_round (add (of_Z 254) (mul (sub (of_Z 135) (of_Z 254)) t))))
  /\ (forall a b : num,
        valid a = true -> valid b = true ->
        isFinite a = true -> isFinite b = true ->
        strict_eq a b = false ->
        getColorForValue (VNumber a) (VNumber a) (VNumber b) = light_anchor)
  /\ (forall a b : num,
        valid a = true -> valid b = true ->
        isFinite a = true -> isFinite b = true ->
        strict_eq a b = false ->
        isFinite (sub b a) = true ->
        getColorForValue (VNumber b) (VNumber a) (VNumber b) = dark_anchor).
Proof.
  split; [exact getColorForValue_not_finite |].
  split; [exact getColorForValue_flat |].
  split; [exact getColorForValue_scale |].
  split; [exact getColorForValue_min | exact getColorForValue_max].
Qed.

(** The laws at [min = 100], [max = 200]: the two anchors, the midpoint,
    an absent range and a flat one. *)
Lemma getColorForValue_laws_witness :
  let lo := StringToNumber (lit "100") in
  let hi := StringToNumber (lit "200") in
  (valid lo = true /\ valid hi = true /\ isFinite lo = true
   /\ isFinite hi = true /\ strict_eq lo hi = false
   /\ isFinite (sub hi lo) = true)
  /\ getColorForValue (VNumber hi) (VNumber lo) (VNumber hi) = lit "rgb(88, 28, 135)"
  /\ getColorForValue (VNumber lo) (VNumber lo) (VNumber hi) = lit "rgb(237, 233, 254)"
  /\ getColorForValue (VNumber lo) VNull VNull = lit "#7c3aed"
  /\ getColorForValue (VNumber lo) (VNumber hi) (VNumber hi) = lit "#7c3aed".
Proof.
  intros lo hi.
  destruct getColorForValue_laws as (Hnf & Hflat & _ & Hmin & Hmax).
  split; [repeat split; reflexivity |].
  split; [apply (Hmax lo hi); reflexivity |].
  split; [apply (Hmin lo hi); reflexivity |].
  split; [apply (Hnf (VNumber lo) VNull VNull); right; left; reflexivity |].
  apply (Hflat (VNumber lo) hi hi); reflexivity.
Defined.

(** C4 as stated fails at [min = -1e308], [max = 1e308]: both are finite and
    different, but [max - min] overflows to Infinity, [t] is
    Infinity / Infinity = NaN, and the colour at [max] is not the dark
    anchor. *)
Lemma getColorForValue_max_overflow :
  let lo := StringToNumber (lit "-1e308") in
  let hi := StringToNumber (lit "1e308") in
  valid lo = true /\ valid hi = true
  /\ isFinite lo = true /\ isFinite hi = true
  /\ strict_eq lo hi = false
  /\ sub hi lo = Infinity
  /\ getColorForValue (VNumber hi) (VNumber lo) (VNumber hi) = lit "rgb(NaN, NaN, NaN)"
  /\ getColorForValue (VNumber hi) (VNumber lo) (VNumber hi) <> dark_anchor.
Proof.
  intros lo hi. repeat split; try reflexivity.
  vm_compute. discriminate.
Qed.

(* ===================================================================== *)
(** * The tabular parser *)
(* ===================================================================== *)

Section Tabular.

Lemma trimStart_blank (s : jsstring) : blank s -> trimStart s = [].
Proof.
  induction 1 as [| c s Hc _ IH]; [reflexivity |].
  cbn [trimStart]. rewrite Hc. exact IH.
Qed.

Lemma trim_blank (s : jsstring) : blank s -> trim s = [].
Proof. intros H. unfold trim. rewrite trimStart_blank by exact H. reflexivity. Qed.


Lemma indexOf_elem (arr : list jsstring) (x : jsstring) :
  x ∈ arr ->
  exists k : nat,
    indexOf arr x = Some k /\ arr !! k = Some x
    /\ forall j : nat, (j < k)%nat -> arr !! j <> Some x.
Proof.
  induction arr as [| y ys IH]; intros Hin.
  - inversion Hin.
  - cbn [indexOf]. destruct (decide (y = x)) as [-> | Hne].
    + exists 0%nat.
      split; [reflexivity | split; [reflexivity | intros j Hj; lia]].
    + apply elem_of_cons in Hin as [-> | Hin]; [congruence |].
      destruct (IH Hin) as (k & Hk & Hlk & Hfirst).
      exists (S k). rewrite Hk.
      split; [reflexivity | split; [exact Hlk |]].
      intros [| j] Hj; cbn; [congruence | apply Hfirst; lia].
Qed.

Lemma indexOf_Some (arr : list jsstring) (x : jsstring) (k : nat) :
  indexOf arr x = Some k -> x ∈ arr.
Proof.
  revert k. induction arr as [| y ys IH]; intros k; cbn [indexOf]; [discriminate |].
  destruct (decide (y = x)) as [-> | Hne]; [intros _; left |].
  destruct (indexOf ys x) as [k' |] eqn:E; [| discriminate].
  intros _. right. exact (IH k' eq_refl).
Qed.

Lemma length_dataLines (text : jsstring) :
  length (dataLines text) = (length (lines_of text) - 1)%nat.
Proof. unfold dataLines. apply length_drop. Qed.

Lemma handleCsvUpload_short (st : app_state) (text : jsstring) :
  (length (lines_of text) < 2)%nat ->
  handleCsvUpload st text = (st, Message warning "CSV file appears to be empty").
Proof.
  intros H. unfold handleCsvUpload. fold (lines_of text).
  destruct (Nat.ltb_spec (length (lines_of text)) 2); [reflexivity | lia].
Qed.

Lemma handleCsvUpload_missing (st : app_state) (text : jsstring) :
  (2 <= length (lines_of text))%nat ->
  ~ has_columns (header_of text) ->
  handleCsvUpload st text =
    (st, Message error "CSV must contain id, revenue and cost columns").
Proof.
  intros H Hcols. unfold handleCsvUpload. fold (lines_of text).
  destruct (Nat.ltb_spec (length (lines_of text)) 2); [lia |].
  fold (header_of text).
  destruct (indexOf (header_of text) (lit "id")) as [i |] eqn:Ei; [| reflexivity].
  destruct (indexOf (header_of text) (lit "revenue")) as [r |] eqn:Er; [| reflexivity].
  destruct (indexOf (header_of text) (lit "cost")) as [c |] eqn:Ec; [| reflexivity].
  exfalso. apply Hcols. repeat split; eauto using indexOf_Some.
Qed.

Lemma handleCsvUpload_rows (st : app_state) (text : jsstring) :
  (2 <= length (lines_of text))%nat ->
  has_columns (header_of text) ->
  exists idIndex revenueIndex costIndex : nat,
    indexOf (header_of text) (lit "id") = Some idIndex
    /\ indexOf (header_of text) (lit "revenue") = Some revenueIndex
    /\ indexOf (header_of text) (lit "cost") = Some costIndex
    /\ handleCsvUpload st text =
         ({| kmlData := kmlData st;
             csvRows := List.map (parse_row idIndex revenueIndex costIndex)
                          (dataLines text);
             selectedMetric := Revenue |},
          Message success "CSV file loaded successfully").
Proof.
  intros H (Hi & Hr & Hc).
  destruct (indexOf_elem _ _ Hi) as (i & Ei & _).
  destruct (indexOf_elem _ _ Hr) as (r & Er & _).
  destruct (indexOf_elem _ _ Hc) as (c & Ec & _).
  exists i, r, c. repeat split; try assumption.
  unfold handleCsvUpload. fold (lines_of text).
  destruct (Nat.ltb_spec (length (lines_of text)) 2); [lia |].
  fold (header_of text). rewrite Ei, Er, Ec. reflexivity.
Qed.

End Tabular.

(** C5.  For a tabular text with at least one data line whose header has
    the columns id, revenue and cost, wherever they stand and whatever
    other columns there are, the upload succeeds with exactly one record per
    data line, in order, and the identifier of each record is the trimmed
    cell of its line at the index where the header has "id". *)
Theorem csv_parsing_lossless (st : app_state) (text : jsstring) :
  (1 <= length (dataLines text))%nat ->
  has_columns (header_of text) ->
  let result := handleCsvUpload st text in
  let records := csvRows (fst result) in
  exists k : nat,
    indexOf (header_of text) (lit "id") = Some k
    /\ header_of text !! k = Some (lit "id")
    /\ (forall j : nat, (j < k)%nat -> header_of text !! j <> Some (lit "id"))
    /\ snd result = Message success "CSV file loaded successfully"
    /\ length records = length (dataLines text)
    /\ forall (i : nat) (line : jsstring),
         dataLines text !! i = Some line ->
         exists row : csvRow,
           records !! i = Some row
           /\ id row = trim <$> (split_on COMMA line !! k).
Proof.
  intros Hdata Hcols result records.
  rewrite length_dataLines in Hdata.
  destruct (handleCsvUpload_rows st text ltac:(lia) Hcols)
    as (k & r & c & Ek & _ & _ & Hres).
  destruct Hcols as (Hid & _).
  destruct (indexOf_elem _ _ Hid) as (k' & Ek' & Hlk & Hfirst).
  assert (k' = k) as -> by congruence.
  exists k. subst records result. rewrite Hres. cbn [fst snd csvRows].
  repeat split; try assumption.
  - apply length_map.
  - intros i line Hline.
    exists (parse_row k r c line). split.
    + rewrite list_lookup_fmap, Hline. reflexivity.
    + unfold parse_row, cells. cbn [id]. apply list_lookup_fmap.
Qed.

(** A header in another physical order, with a column more: the identifier
    is found at index 2. *)
Lemma csv_parsing_lossless_witness :
  let text := lit "cost, name ,id,revenue" ++ [LF] ++ lit "40,North, S1 ,100" in
  (1 <= length (dataLines text))%nat
  /\ has_columns (header_of text)
  /\ exists k : nat,
       indexOf (header_of text) (lit "id") = Some k
       /\ length (csvRows (fst (handleCsvUpload Scenario.initial text))) = 1%nat
       /\ id <$> (csvRows (fst (handleCsvUpload Scenario.initial text)) !! 0%nat)
          = Some (Some (lit "S1")).
Proof.
  intros text.
  assert (Hdata : (1 <= length (dataLines text))%nat) by (vm_compute; lia).
  assert (Hcols : has_columns (header_of text)).
  { repeat split.
    - apply list_elem_of_lookup. exists 2%nat. reflexivity.
    - apply list_elem_of_lookup. exists 3%nat. reflexivity.
    - apply list_elem_of_lookup. exists 0%nat. reflexivity. }
  split; [exact Hdata |]. split; [exact Hcols |].
  destruct (csv_parsing_lossless Scenario.initial text Hdata Hcols)
    as (k & Hk & _ & _ & _ & Hlen & Hrows).
  exists k. split; [exact Hk |]. split; [rewrite Hlen; reflexivity |].
  destruct (Hrows 0%nat (lit "40,North, S1 ,100") eq_refl) as (row & Hrow & Hid).
  rewrite Hrow. cbn [fmap option_fmap option_map]. rewrite Hid.
  assert (k = 2%nat) as -> by (vm_compute in Hk; congruence).
  reflexivity.
Defined.

(* ===================================================================== *)
(** * Failed uploads *)
(* ===================================================================== *)

Section Failures.

Lemma handleKmlUpload_empty (st : app_state) (placemarks : list placemark) (g : geojson) :
  has_features g = false ->
  handleKmlUpload st placemarks g =
    (st, Message warning "KML file contains no features").
Proof.
  intros H. unfold handleKmlUpload, add_ids. rewrite H, H. reflexivity.
Qed.

Lemma handleCsvUpload_error_keeps (st : app_state) (text : jsstring) :
  parse_error_of (snd (handleCsvUpload st text)) <> None ->
  fst (handleCsvUpload st text) = st.
Proof.
  unfold handleCsvUpload.
  destruct (length _ <? 2)%nat; [reflexivity |].
  destruct (indexOf _ (lit "id")); [| reflexivity].
  destruct (indexOf _ (lit "revenue")); [| reflexivity].
  destruct (indexOf _ (lit "cost")); [| reflexivity].
  cbn [snd]. intros H. exfalso. apply H. reflexivity.
Qed.

Lemma handleKmlUpload_error_keeps (st : app_state) (placemarks : list placemark)
    (g : geojson) :
  parse_error_of (snd (handleKmlUpload st placemarks g)) <> None ->
  fst (handleKmlUpload st placemarks g) = st.
Proof.
  unfold handleKmlUpload.
  destruct (add_ids placemarks g) as [g' |]; [| reflexivity].
  destruct (has_features g'); [| reflexivity].
  cbn [snd]. intros H. exfalso. apply H. reflexivity.
Qed.

End Failures.

(** C7 (amended).  A tabular text of fewer than 2 lines fails with
    EmptyTable; one of at least 2 lines whose header lacks one of id,
    revenue, cost fails with MissingColumns; a document that parses to no
    feature fails with EmptyDocument; and an upload that ends in a parse
    error leaves the whole state, the loaded collection and the rows of the
    record index included, as it was. *)
Theorem parse_errors :
  (forall (st : app_state) (text : jsstring),
      (length (lines_of text) < 2)%nat ->
      parse_error_of (snd (handleCsvUpload st text)) = Some EmptyTable
      /\ fst (handleCsvUpload st text) = st)
  /\ (forall (st : app_state) (text : jsstring),
        (2 <= length (lines_of text))%nat ->
        ~ has_columns (header_of text) ->
        parse_error_of (snd (handleCsvUpload st text)) = Some MissingColumns
        /\ fst (handleCsvUpload st text) = st)
  /\ (forall (st : app_state) (placemarks : list placemark) (g : geojson),
        has_features g = false ->
        parse_error_of (snd (handleKmlUpload st placemarks g)) = Some EmptyDocument
        /\ fst (handleKmlUpload st placemarks g) = st)
  /\ (forall (st : app_state) (text : jsstring),
        parse_error_of (snd (handleCsvUpload st text)) <> None ->
        fst (handleCsvUpload st text) = st)
  /\ (forall (st : app_state) (placemarks : list placemark) (g : geojson),
        parse_error_of (snd (handleKmlUpload st placemarks g)) <> None ->
        fst (handleKmlUpload st placemarks g) = st).
Proof.
  split; [| split; [| split; [| split]]].
  - intros st text H. rewrite handleCsvUpload_short by exact H. split; reflexivity.
  - intros st text H Hc. rewrite handleCsvUpload_missing by assumption.
    split; reflexivity.
  - intros st placemarks g H. rewrite handleKmlUpload_empty by exact H.
    split; reflexivity.
  - exact handleCsvUpload_error_keeps.
  - exact handleKmlUpload_error_keeps.
Qed.

(** The three failures on a state that holds both datasets: the header
    alone, a header without the columns above a data line, and a document
    without features. *)
Lemma parse_errors_witness :
  let st := Scenario.loaded VUndefined VUndefined in
  let one_line := lit "id,revenue,cost" in
  let no_columns := lit "name,value" ++ [LF] ++ lit "North,1" in
  ((length (lines_of one_line) < 2)%nat
   /\ handleCsvUpload st one_line = (st, Message warning "CSV file appears to be empty"))
  /\ ((2 <= length (lines_of no_columns))%nat
      /\ ~ has_columns (header_of no_columns)
      /\ handleCsvUpload st no_columns =
           (st, Message error "CSV must contain id, revenue and cost columns"))
  /\ (has_features (GeoJson (Some [])) = false
      /\ handleKmlUpload st [] (GeoJson (Some [])) =
           (st, Message warning "KML file contains no features")).
Proof.
  intros st one_line no_columns.
  destruct parse_errors as (Hshort & Hmissing & Hempty & _ & _).
  assert (H1 : (length (lines_of one_line) < 2)%nat) by (vm_compute; lia).
  assert (H2 : (2 <= length (lines_of no_columns))%nat) by (vm_compute; lia).
  assert (H3 : ~ has_columns (header_of no_columns)).
  { intros (Hid & _). vm_compute in Hid.
    apply elem_of_cons in Hid as [Hid | Hid]; [discriminate |].
    apply elem_of_cons in Hid as [Hid | Hid]; [discriminate |].
    inversion Hid. }
  split; [split; [exact H1 |] | split; [split; [exact H2 | split; [exact H3 |]] | split; [reflexivity |]]].
  - destruct (Hshort st one_line H1) as [_ Hst].
    rewrite (surjective_pairing (handleCsvUpload st one_line)), Hst.
    f_equal.
  - destruct (Hmissing st no_columns H2 H3) as [_ Hst].
    rewrite (surjective_pairing (handleCsvUpload st no_columns)), Hst.
    f_equal.
  - destruct (Hempty st [] (GeoJson (Some [])) eq_refl) as [_ Hst].
    rewrite (surjective_pairing (handleKmlUpload st [] (GeoJson (Some [])))), Hst.
    f_equal.
Defined.

(** C7 as stated fails on the text "name,value": its header lacks the three
    columns, yet the upload fails with EmptyTable, because the line count
    is tested first. *)
Lemma header_without_columns_alone :
  let text := lit "name,value" in
  ~ has_columns (header_of text)
  /\ parse_error_of (snd (handleCsvUpload Scenario.initial text)) = Some EmptyTable
  /\ parse_error_of (snd (handleCsvUpload Scenario.initial text)) <> Some MissingColumns.
Proof.
  intros text. split; [| split; [reflexivity | discriminate]].
  intros (Hid & _). vm_compute in Hid.
  apply elem_of_cons in Hid as [Hid | Hid]; [discriminate |].
  apply elem_of_cons in Hid as [Hid | Hid]; [discriminate |].
  inversion Hid.
Qed.

(* ===================================================================== *)
(** * The metric range *)
(* ===================================================================== *)

Section Range.









Lemma metricRange_exists (st : app_state) (x : num) :
  x ∈ metricValues st -> is_Some (metricMin st) /\ is_Some (metricMax st).
Proof.
  unfold metricMin, metricMax. intros H.
  destruct (metricValues st); [inversion H |].
  cbn [length Nat.ltb Nat.leb]. split; eexists; reflexivity.
Qed.

(** What [style] does for a feature that matches a row when the range
    exists. *)
Lemma style_matched (st : app_state) (f : option feature) (row : csvRow)
    (mn mx : num) :
  csvRowOf (csvRows st) (featureId f) = Some row ->
  metricMin st = Some mn -> metricMax st = Some mx ->
  let c := getColorForValue (VNumber (field (selectedMetric st) row))
             (VNumber mn) (VNumber mx) in
  color (style st f) = VString c /\ fillColor (style st f) = VString c.
Proof.
  intros Hrow Hmn Hmx. unfold style. rewrite Hrow, Hmn, Hmx.
  split; reflexivity.
Qed.

End Range.



(* ===================================================================== *)
(** * Identifier extraction *)
(* ===================================================================== *)

Section Extraction.

(** Every entry kept in [placemarkData] has a non-empty identifier. *)
Lemma placemarkData_truthy (placemarks : list placemark) (p : placemarkDatum) :
  p ∈ placemarkData placemarks ->
  truthy (of_option VNull (pd_id p)) = true.
Proof.
  unfold placemarkData. intros H.
  apply list_elem_of_In, List.filter_In in H. tauto.
Qed.

(** Hence the positional step yields no identifier for the feature at
    [index] exactly when [placemarkData] has no entry there. *)
Lemma no_positional_identifier (placemarks : list placemark) (index : nat) :
  truthy (match placemarkData placemarks !! index with
          | Some p => of_option VNull (pd_id p)
          | None => VUndefined
          end) = false
  <-> placemarkData placemarks !! index = None.
Proof.
  split.
  - destruct (placemarkData placemarks !! index) as [p |] eqn:E; [| reflexivity].
    intros H. apply list_elem_of_lookup_2, placemarkData_truthy in E. congruence.
  - intros ->. reflexivity.
Qed.

Lemma placemarkData_cons (p : placemark) (placemarks : list placemark) :
  placemarkData (p :: placemarks) =
    if truthy (of_option VNull (attr_id p))
    then describe p :: placemarkData placemarks
    else placemarkData placemarks.
Proof. reflexivity. Qed.

(** [nameToIdMap] is the mapping the spec describes, whatever the map the
    loop starts from. *)
Lemma fold_remember (placemarks : list placemark) (m : gmap jsstring jsstring)
    (k : jsstring) :
  fold_left remember (placemarkData placemarks) m !! k =
    match last_named k placemarks with
    | Some i => Some i
    | None => m !! k
    end.
Proof.
  revert m. induction placemarks as [| p rest IH]; intros m; [reflexivity |].
  rewrite placemarkData_cons. cbn [last_named].
  destruct p as [[i |] name]; cbn [attr_id of_option truthy].
  - destruct i as [| c i].
    + rewrite IH. unfold named_id. cbn [attr_id name_text truthy].
      destruct name; rewrite ?andb_false_r; destruct (last_named k rest); reflexivity.
    + cbn [fold_left]. rewrite IH. destruct (last_named k rest); [reflexivity |].
      unfold remember, describe, named_id. cbn [pd_id pd_name attr_id name_text].
      destruct name as [n |]; cbn [default from_option Datatypes.id].
      * destruct (truthy (VString n) && truthy (VString (c :: i))); [| reflexivity].
        destruct (decide (trim n = k)) as [-> | Hne].
        -- apply lookup_insert_eq.
        -- apply lookup_insert_ne. exact Hne.
      * reflexivity.
  - rewrite IH. unfold named_id. cbn [attr_id].
    destruct (last_named k rest); reflexivity.
Qed.

Lemma nameToIdMap_spec (placemarks : list placemark) (k : jsstring) :
  nameToIdMap (placemarkData placemarks) !! k = last_named k placemarks.
Proof.
  unfold nameToIdMap. rewrite fold_remember, lookup_empty.
  destruct (last_named k placemarks); reflexivity.
Qed.

(** An identifier found by name is never empty. *)
Lemma last_named_truthy (placemarks : list placemark) (k i : jsstring) :
  last_named k placemarks = Some i -> truthy (VString i) = true.
Proof.
  induction placemarks as [| p rest IH]; cbn [last_named]; [discriminate |].
  destruct (last_named k rest) as [j |]; [intros [= <-]; apply IH; reflexivity |].
  unfold named_id. destruct (attr_id p) as [a |]; [| discriminate].
  destruct (name_text p) as [n |]; [| discriminate].
  destruct (truthy (VString n) && truthy (VString a)) eqn:E; [| discriminate].
  destruct (decide (trim n = k)); [| discriminate].
  intros [= <-]. apply andb_prop in E. tauto.
Qed.

(** The loop treats each feature by the body at its own index. *)
Lemma forEach_lookup (body : nat -> feature -> completion feature)
    (fs fs' : list feature) (start i : nat) (f : feature) :
  forEach body start fs = Normal fs' ->
  fs !! i = Some f ->
  exists f' : feature,
    body (start + i)%nat f = Normal f' /\ fs' !! i = Some f'.
Proof.
  revert fs' start i. induction fs as [| g gs IH]; intros fs' start i Hrun Hi.
  - discriminate.
  - cbn [forEach] in Hrun. unfold bind in Hrun.
    destruct (body start g) as [g' |] eqn:Eg; [| discriminate].
    destruct (forEach body (S start) gs) as [rest |] eqn:Er; [| discriminate].
    injection Hrun as <-.
    destruct i as [| i].
    + injection Hi as <-. exists g'. rewrite Nat.add_0_r. split; [exact Eg | reflexivity].
    + destruct (IH rest (S start) i Er Hi) as (f' & Hb & Hl).
      exists f'. split; [| exact Hl].
      replace (start + S i)%nat with (S start + i)%nat by lia. exact Hb.
Qed.

Lemma forEach_length (body : nat -> feature -> completion feature)
    (fs fs' : list feature) (start : nat) :
  forEach body start fs = Normal fs' -> length fs' = length fs.
Proof.
  revert fs' start. induction fs as [| g gs IH]; intros fs' start Hrun.
  - injection Hrun as <-. reflexivity.
  - cbn [forEach] in Hrun. unfold bind in Hrun.
    destruct (body start g) as [g' |]; [| discriminate].
    destruct (forEach body (S start) gs) as [rest |] eqn:Er; [| discriminate].
    injection Hrun as <-. cbn [length]. f_equal. exact (IH rest (S start) Er).
Qed.

(** What [add_ids] leaves at position [i]: the body's result there. *)
Lemma add_ids_lookup (placemarks : list placemark) (fs fs' : list feature)
    (i : nat) (f : feature) :
  add_ids placemarks (GeoJson (Some fs)) = Normal (GeoJson (Some fs')) ->
  fs !! i = Some f ->
  exists f' : feature,
    add_id (placemarkData placemarks) (nameToIdMap (placemarkData placemarks)) i f
      = Normal f'
    /\ fs' !! i = Some f'.
Proof.
  unfold add_ids, has_features. cbn [features default from_option Datatypes.id].
  destruct fs as [| g gs]; [discriminate |].
  cbn [length Nat.ltb Nat.leb]. unfold bind at 1.
  destruct (forEach _ 0 (g :: gs)) as [out |] eqn:E; [| discriminate].
  intros [= <-] Hi.
  exact (forEach_lookup _ _ _ 0 i f E Hi).
Qed.

(** Storing a non-empty identifier settles the top-level slot. *)
Lemma preserve_store (i : jsstring) (f : feature) :
  truthy (VString i) = true ->
  preserve_id (store_id (VString i) f) = store_id (VString i) f.
Proof.
  intros H. unfold store_id. rewrite H. unfold preserve_id. cbn [f_id].
  rewrite H. reflexivity.
Qed.

End Extraction.

(** The fallback where the code does reach it: at a position past the end
    of [placemarkData], the array of the placemarks that have an
    identifier.  There the display name, read from the property [name],
    else [Name], else empty, is a String; the identifier is the one that
    the trimmed name maps to in the mapping built from all placemarks with
    both a name and an identifier, later ones overwriting earlier ones, and
    it is stored in [feature.id], [properties.id] and
    [properties.placemarkId]; when the name maps to nothing, the feature is
    left without any identifier of this step: it is unchanged if it had
    none at all. *)
Lemma fallback_past_the_entries (placemarks : list placemark) (fs fs' : list feature)
    (i : nat) (f : feature) :
  add_ids placemarks (GeoJson (Some fs)) = Normal (GeoJson (Some fs')) ->
  fs !! i = Some f ->
  placemarkData placemarks !! i = None ->
  exists name : jsstring,
    (get_opt (f_properties f) "name" ||| get_opt (f_properties f) "Name"
       ||| VString []) = VString name
    /\ match last_named (trim name) placemarks with
       | Some ident =>
           fs' !! i =
             Some {| f_id := VString ident;
                     f_properties :=
                       Some (<[lit "placemarkId" := VString ident]>
                               (<[lit "id" := VString ident]>
                                  (default ∅ (f_properties f)))) |}
       | None =>
           fs' !! i = Some (preserve_id f)
           /\ (truthy (f_id f) = false ->
               truthy (get_opt (f_properties f) "id") = false ->
               fs' !! i = Some f)
       end.
Proof.
  intros Hrun Hi Hpos.
  destruct (add_ids_lookup _ _ _ _ _ Hrun Hi) as (f' & Hbody & Hout).
  unfold add_id, resolve_id in Hbody. rewrite Hpos in Hbody.
  cbn [truthy negb] in Hbody. unfold bind in Hbody.
  fold (display_name f).
  destruct (display_name f) as [| | | | name |] eqn:En; try discriminate.
  exists name. split; [reflexivity |].
  cbn [trim_method] in Hbody. rewrite nameToIdMap_spec in Hbody.
  destruct (last_named (trim name) placemarks) as [ident |] eqn:El;
    cbn [of_option] in Hbody.
  - rewrite preserve_store in Hbody by exact (last_named_truthy _ _ _ El).
    injection Hbody as <-. rewrite Hout. unfold store_id.
    rewrite (last_named_truthy _ _ _ El). reflexivity.
  - cbn [store_id truthy] in Hbody. injection Hbody as <-.
    split; [exact Hout |]. intros H1 H2. rewrite Hout.
    unfold preserve_id. rewrite H1, H2. reflexivity.
Qed.

(** The fallback at work: the second feature has no entry at its position
    and takes the identifier of the placemark named " North ". *)
Lemma fallback_past_the_entries_example :
  let placemarks := [Placemark (Some (lit "S1")) (Some (lit " North "))] in
  let f0 := Feature VUndefined (Some (Scenario.named "Lake")) in
  let f1 := Feature VUndefined (Some (Scenario.named "North")) in
  let out :=
    [Feature (VString (lit "S1")) (Some (Scenario.stored "Lake" "S1"));
     Feature (VString (lit "S1")) (Some (Scenario.stored "North" "S1"))] in
  (add_ids placemarks (GeoJson (Some [f0; f1])) = Normal (GeoJson (Some out))
   /\ [f0; f1] !! 1%nat = Some f1
   /\ placemarkData placemarks !! 1%nat = None)
  /\ last_named (lit "North") placemarks = Some (lit "S1")
  /\ out !! 1%nat = Some (Feature (VString (lit "S1")) (Some (Scenario.stored "North" "S1"))).
Proof.
  intros placemarks f0 f1 out.
  assert (Hrun : add_ids placemarks (GeoJson (Some [f0; f1])) = Normal (GeoJson (Some out)))
    by (vm_compute; reflexivity).
  split; [split; [exact Hrun | split; reflexivity] |].
  split; [reflexivity |].
  destruct (fallback_past_the_entries placemarks [f0; f1] out 1%nat f1 Hrun eq_refl eq_refl)
    as (name & Hname & Hout).
  vm_compute in Hname. injection Hname as <-.
  exact Hout.
Defined.

(** Where [placemarkData] has an entry at the position of a feature, the
    feature receives the identifier of that entry, whatever its own
    placemark and whatever its name: the fallback is not consulted. *)
Lemma positional_entry_wins (placemarks : list placemark) (fs fs' : list feature)
    (i : nat) (f : feature) (d : placemarkDatum) :
  add_ids placemarks (GeoJson (Some fs)) = Normal (GeoJson (Some fs')) ->
  fs !! i = Some f ->
  placemarkData placemarks !! i = Some d ->
  exists ident : jsstring,
    pd_id d = Some ident
    /\ fs' !! i =
         Some {| f_id := VString ident;
                 f_properties :=
                   Some (<[lit "placemarkId" := VString ident]>
                           (<[lit "id" := VString ident]>
                              (default ∅ (f_properties f)))) |}.
Proof.
  intros Hrun Hi Hd.
  destruct (add_ids_lookup _ _ _ _ _ Hrun Hi) as (f' & Hbody & Hout).
  pose proof (placemarkData_truthy placemarks d (list_elem_of_lookup_2 _ _ _ Hd)) as Ht.
  destruct (pd_id d) as [ident |] eqn:Eid; [| discriminate].
  exists ident. split; [reflexivity |].
  unfold add_id, resolve_id in Hbody. rewrite Hd, Eid in Hbody.
  cbn [of_option] in Ht, Hbody. rewrite Ht in Hbody. cbn [negb bind] in Hbody.
  rewrite preserve_store in Hbody by exact Ht.
  injection Hbody as <-. rewrite Hout. unfold store_id. rewrite Ht. reflexivity.
Qed.

(** C3, on the code.  A feature whose placemark has no identifier does not
    take the fallback when a later placemark has one: [placemarkData] keeps
    only the placemarks with an identifier, so their entries move forward
    and the feature finds one at its own position.  In a document of the
    placemark "Lake" without identifier and the placemark " North " with
    "S1", the name "Lake" maps to nothing, yet the feature "Lake" does not
    stay without identifier: it receives "S1", in [feature.id],
    [properties.id] and [properties.placemarkId].  In the scenario of the
    spec the name "North" maps to "S1", yet the feature "North", whose
    placemark has no identifier, receives "S2". *)
Theorem fallback_not_reached (id0 id1 : value) :
  let placemarks :=
    [Placemark None (Some (lit "Lake"));
     Placemark (Some (lit "S1")) (Some (lit " North "))] in
  let g :=
    GeoJson (Some [Feature id0 (Some (Scenario.named "Lake"));
                   Feature id1 (Some (Scenario.named "North"))]) in
  (attr_id <$> (placemarks !! 0%nat) = Some None
   /\ last_named (trim (lit "Lake")) placemarks = None
   /\ add_ids placemarks g =
        Normal
          (GeoJson (Some [Feature (VString (lit "S1")) (Some (Scenario.stored "Lake" "S1"));
                          Feature (VString (lit "S1")) (Some (Scenario.stored "North" "S1"))])))
  /\ (attr_id <$> (Scenario.placemarks !! 0%nat) = Some None
      /\ last_named (trim (lit "North")) Scenario.placemarks = Some (lit "S1")
      /\ add_ids Scenario.placemarks (Scenario.collection id0 id1) =
           Normal
             (GeoJson (Some [Feature (VString (lit "S2")) (Some (Scenario.stored "North" "S2"));
                             Feature (VString (lit "S1")) (Some (Scenario.stored "South" "S1"))]))).
Proof.
  intros placemarks g. repeat split; vm_compute; reflexivity.
Qed.

(** C1, on the code.  In the scenario of the spec the range of revenue is
    {100, 200}, but the identifiers come out exchanged: the feature named
    "North" receives "S2", the identifier of the first entry kept in
    [placemarkData], and is painted with the dark anchor; the feature named
    "South" receives "S1" and is painted with the light anchor. *)
Theorem scenario_on_the_code (id0 id1 : value) :
  let st := Scenario.loaded id0 id1 in
  let north := Feature (VString (lit "S2")) (Some (Scenario.stored "North" "S2")) in
  let south := Feature (VString (lit "S1")) (Some (Scenario.stored "South" "S1")) in
  metricMin st = Some (StringToNumber (lit "100"))
  /\ metricMax st = Some (StringToNumber (lit "200"))
  /\ kmlData st = Some (GeoJson (Some [north; south]))
  /\ display_name north = VString (lit "North")
  /\ featureId (Some north) = VString (lit "S2")
  /\ color (style st (Some north)) = VString dark_anchor
  /\ fillColor (style st (Some north)) = VString dark_anchor
  /\ display_name south = VString (lit "South")
  /\ featureId (Some south) = VString (lit "S1")
  /\ color (style st (Some south)) = VString light_anchor
  /\ fillColor (style st (Some south)) = VString light_anchor.
Proof.
  intros st north south. repeat split; vm_compute; reflexivity.
Qed.

(** The same scenario when the separate placemark "North" also carries a
    geometry, hence a third feature: the first feature, named "North", still
    receives "S2". *)
Lemma scenario_three_features (id0 id1 id2 : value) :
  add_ids Scenario.placemarks
    (GeoJson (Some [Feature id0 (Some (Scenario.named "North"));
                    Feature id1 (Some (Scenario.named "South"));
                    Feature id2 (Some (Scenario.named "North"))]))
  = Normal
      (GeoJson (Some [Feature (VString (lit "S2")) (Some (Scenario.stored "North" "S2"));
                      Feature (VString (lit "S1")) (Some (Scenario.stored "South" "S1"));
                      Feature (VString (lit "S1")) (Some (Scenario.stored "North" "S1"))])).
Proof. vm_compute. reflexivity. Qed.

(** The placemarks in another source order, the separate "North" first.
    Without a geometry of its own the identifiers fall as the scenario
    expects; with one, the feature "North" without identifier, now at
    position 1, receives "S2". *)
Lemma scenario_separate_first (id0 id1 id2 : value) :
  let placemarks :=
    [Placemark (Some (lit "S1")) (Some (lit "North"));
     Placemark None (Some (lit "North"));
     Placemark (Some (lit "S2")) (Some (lit "South"))] in
  add_ids placemarks (Scenario.collection id0 id1)
  = Normal
      (GeoJson (Some [Feature (VString (lit "S1")) (Some (Scenario.stored "North" "S1"));
                      Feature (VString (lit "S2")) (Some (Scenario.stored "South" "S2"))]))
  /\ add_ids placemarks
       (GeoJson (Some [Feature id0 (Some (Scenario.named "North"));
                       Feature id1 (Some (Scenario.named "North"));
                       Feature id2 (Some (Scenario.named "South"))]))
     = Normal
         (GeoJson (Some [Feature (VString (lit "S1")) (Some (Scenario.stored "North" "S1"));
                         Feature (VString (lit "S2")) (Some (Scenario.stored "North" "S2"));
                         Feature (VString (lit "S2")) (Some (Scenario.stored "South" "S2"))])).
Proof. intros placemarks. split; vm_compute; reflexivity. Qed.

Section Positional.

(** While every placemark up to position [i] has a non-empty identifier,
    the entries of [placemarkData] up to [i] are those of the placemarks. *)
Lemma placemarkData_aligned (placemarks : list placemark) (i : nat) :
  Forall (fun p => truthy (of_option VNull (attr_id p)) = true)
    (take (S i) placemarks) ->
  placemarkData placemarks !! i = describe <$> (placemarks !! i).
Proof.
  revert i. induction placemarks as [| p rest IH]; intros i H; [reflexivity |].
  rewrite placemarkData_cons. cbn [take] in H.
  apply Forall_cons in H as [Hp Hrest]. rewrite Hp.
  destruct i as [| i]; [reflexivity |]. cbn [lookup list_lookup].
  apply IH. exact Hrest.
Qed.

(** Then the feature at [i] receives the identifier of the placemark at
    [i]. *)
Lemma positional_when_aligned (placemarks : list placemark) (fs fs' : list feature)
    (i : nat) (f : feature) (p : placemark) (ident : jsstring) :
  add_ids placemarks (GeoJson (Some fs)) = Normal (GeoJson (Some fs')) ->
  fs !! i = Some f ->
  placemarks !! i = Some p -> attr_id p = Some ident ->
  Forall (fun p => truthy (of_option VNull (attr_id p)) = true)
    (take (S i) placemarks) ->
  f_id <$> (fs' !! i) = Some (VString ident).
Proof.
  intros Hrun Hi Hp Hid Hall.
  destruct (add_ids_lookup _ _ _ _ _ Hrun Hi) as (f' & Hbody & Hout).
  assert (Ht : truthy (VString ident) = true).
  { apply take_S_r in Hp. rewrite Hp in Hall.
    apply Forall_app in Hall as [_ Hall]. apply Forall_cons in Hall as [Hall _].
    rewrite Hid in Hall. exact Hall. }
  unfold add_id, resolve_id in Hbody.
  rewrite (placemarkData_aligned _ _ Hall), Hp in Hbody.
  cbn [fmap option_fmap option_map describe pd_id] in Hbody.
  rewrite Hid in Hbody. cbn [of_option] in Hbody. rewrite Ht in Hbody.
  cbn [negb bind] in Hbody. rewrite preserve_store in Hbody by exact Ht.
  injection Hbody as <-. rewrite Hout. unfold store_id. rewrite Ht. reflexivity.
Qed.

(** Two placemarks with identifiers "A" and "B" and the same name: the
    features receive "A" and "B". *)
Lemma two_identified_placemarks (id0 id1 : value) :
  add_ids [Placemark (Some (lit "A")) (Some (lit "Same"));
           Placemark (Some (lit "B")) (Some (lit "Same"))]
    (GeoJson (Some [Feature id0 (Some (Scenario.named "Same"));
                    Feature id1 (Some (Scenario.named "Same"))]))
  = Normal
      (GeoJson (Some [Feature (VString (lit "A")) (Some (Scenario.stored "Same" "A"));
                      Feature (VString (lit "B")) (Some (Scenario.stored "Same" "B"))])).
Proof. vm_compute. reflexivity. Qed.

End Positional.

(** C2, on the code.  Three placemarks, the first without an identifier, the
    others with "A" and "B", and their three features: the entries kept in
    [placemarkData] are those of "A" and "B", at positions 0 and 1, so the
    feature at position 1, whose placemark has "A", receives "B", and the
    feature at position 0, whose placemark has none, receives "A". *)
Theorem positional_misaligned (id0 id1 id2 : value) :
  let placemarks :=
    [Placemark None (Some (lit "Lake"));
     Placemark (Some (lit "A")) (Some (lit "Hill"));
     Placemark (Some (lit "B")) (Some (lit "Wood"))] in
  let g :=
    GeoJson (Some [Feature id0 (Some (Scenario.named "Lake"));
                   Feature id1 (Some (Scenario.named "Hill"));
                   Feature id2 (Some (Scenario.named "Wood"))]) in
  attr_id <$> (placemarks !! 1%nat) = Some (Some (lit "A"))
  /\ pd_id <$> placemarkData placemarks = [Some (lit "A"); Some (lit "B")]
  /\ add_ids placemarks g =
       Normal
         (GeoJson (Some [Feature (VString (lit "A")) (Some (Scenario.stored "Lake" "A"));
                         Feature (VString (lit "B")) (Some (Scenario.stored "Hill" "B"));
                         Feature (VString (lit "B")) (Some (Scenario.stored "Wood" "B"))])).
Proof.
  intros placemarks g. repeat split; vm_compute; reflexivity.
Qed.

(* ===================================================================== *)
(** * The join *)
(* ===================================================================== *)

Section JoinFacts.

(** [csvIdMap] is the record index of the spec, whatever the map the loop
    starts from. *)
Lemma fold_csvIdMap (rows : list csvRow) (m : gmap (option jsstring) csvRow)
    (k : option jsstring) :
  fold_left (fun m row => <[id row := row]> m) rows m !! k =
    match last_with_id k rows with
    | Some r => Some r
    | None => m !! k
    end.
Proof.
  revert m. induction rows as [| r rest IH]; intros m; [reflexivity |].
  cbn [fold_left last_with_id]. rewrite IH.
  destruct (last_with_id k rest); [reflexivity |].
  destruct (decide (id r = k)) as [<- | Hne].
  - apply lookup_insert_eq.
  - apply lookup_insert_ne. exact Hne.
Qed.

Lemma csvIdMap_spec (rows : list csvRow) (k : option jsstring) :
  csvIdMap rows !! k = last_with_id k rows.
Proof.
  unfold csvIdMap. rewrite fold_csvIdMap, lookup_empty.
  destruct (last_with_id k rows); reflexivity.
Qed.

(** The record found under a key is a row of the table with that very
    identifier. *)
Lemma last_with_id_Some (rows : list csvRow) (k : option jsstring) (r : csvRow) :
  last_with_id k rows = Some r -> id r = k /\ r ∈ rows.
Proof.
  induction rows as [| x rest IH]; cbn [last_with_id]; [discriminate |].
  destruct (last_with_id k rest) as [r' |].
  - intros [= <-]. destruct (IH eq_refl) as [H1 H2].
    split; [exact H1 | right; exact H2].
  - destruct (decide (id x = k)); [| discriminate].
    intros [= <-]. split; [assumption | left].
Qed.

Lemma last_with_id_None (rows : list csvRow) (k : option jsstring) :
  (forall r : csvRow, r ∈ rows -> id r <> k) -> last_with_id k rows = None.
Proof.
  induction rows as [| x rest IH]; intros H; [reflexivity |].
  cbn [last_with_id]. rewrite IH by (intros r Hr; apply H; right; exact Hr).
  destruct (decide (id x = k)) as [E | _]; [| reflexivity].
  exfalso. apply (H x); [left | exact E].
Qed.

Lemma last_with_id_is_Some (rows : list csvRow) (r : csvRow) :
  r ∈ rows -> is_Some (last_with_id (id r) rows).
Proof.
  induction rows as [| x rest IH]; intros H; [inversion H |].
  cbn [last_with_id]. apply elem_of_cons in H as [<- | H].
  - destruct (last_with_id (id r) rest); [eexists; reflexivity |].
    destruct (decide (id r = id r)); [eexists; reflexivity | congruence].
  - destruct (IH H) as [r' ->]. eexists; reflexivity.
Qed.

(** The identifier of a feature is the first truthy candidate; when none is
    truthy it is the last candidate, a falsy value. *)
Lemma or_else_l (a b : value) : truthy a = true -> a ||| b = a.
Proof. unfold or_else. intros ->. reflexivity. Qed.

Lemma or_else_r (a b : value) : truthy a = false -> a ||| b = b.
Proof. unfold or_else. intros ->. reflexivity. Qed.

Lemma featureId_first_truthy (f : option feature) :
  match List.find truthy (candidates f) with
  | Some v => featureId f = v /\ truthy v = true
  | None => truthy (featureId f) = false
  end.
Proof.
  unfold featureId, candidates. cbn [List.find].
  set (a := from_option f_id VUndefined f).
  set (b := get_opt (f ≫= f_properties) "id").
  set (c := get_opt (f ≫= f_properties) "Id").
  set (d := get_opt (f ≫= f_properties) "ID").
  destruct (truthy a) eqn:E1.
  { rewrite (or_else_l a b E1), (or_else_l a c E1), (or_else_l a d E1). auto. }
  rewrite (or_else_r a b E1).
  destruct (truthy b) eqn:E2.
  { rewrite (or_else_l b c E2), (or_else_l b d E2). auto. }
  rewrite (or_else_r b c E2).
  destruct (truthy c) eqn:E3.
  { rewrite (or_else_l c d E3). auto. }
  rewrite (or_else_r c d E3).
  destruct (truthy d) eqn:E4; auto.
Qed.

(** The lookup of the callbacks is the Join Resolver on the first truthy
    candidate. *)
Lemma csvRowOf_spec (rows : list csvRow) (f : option feature) :
  csvRowOf rows (featureId f) = resolve_first_truthy rows f.
Proof.
  unfold resolve_first_truthy, csvRowOf.
  pose proof (featureId_first_truthy f) as H.
  destruct (List.find truthy (candidates f)) as [v |].
  - destruct H as [-> Hv]. rewrite Hv. cbn [record_under].
    destruct v; try reflexivity. apply csvIdMap_spec.
  - rewrite H. reflexivity.
Qed.

Lemma csvRowOf_Some (rows : list csvRow) (fid : value) (row : csvRow) :
  csvRowOf rows fid = Some row ->
  exists s : jsstring,
    fid = VString s /\ s <> [] /\ id row = Some s /\ row ∈ rows.
Proof.
  unfold csvRowOf. destruct (truthy fid) eqn:Ht; [| discriminate].
  destruct fid as [| | | | s |]; try discriminate.
  rewrite csvIdMap_spec. intros H. apply last_with_id_Some in H as [H1 H2].
  exists s. repeat split; try assumption.
  intros ->. discriminate.
Qed.

End JoinFacts.

(** C6 (amended).  The resolution is a total function of the feature and
    the rows.  The identifier of the feature is the first truthy value among
    the top-level id, properties.id, properties.Id and properties.ID, in
    that order; the result is the record stored under that exact string,
    the last row with that identifier, or "no match" when no candidate is
    truthy or when the identifier is the identifier of no row; both
    callbacks resolve in this way. *)
Theorem join_resolver (st : app_state) (f : option feature) :
  let rows := csvRows st in
  match List.find truthy (candidates f) with
  | Some v => featureId f = v
  | None => truthy (featureId f) = false /\ csvRowOf rows (featureId f) = None
  end
  /\ csvRowOf rows (featureId f) = resolve_first_truthy rows f
  /\ (forall row : csvRow,
        csvRowOf rows (featureId f) = Some row ->
        exists s : jsstring,
          featureId f = VString s /\ id row = Some s /\ row ∈ rows
          /\ last_with_id (Some s) rows = Some row)
  /\ (forall s : jsstring,
        featureId f = VString s ->
        (forall row : csvRow, row ∈ rows -> id row <> Some s) ->
        csvRowOf rows (featureId f) = None)
  /\ match onEachFeature st f with
     | RecordPopup _ row => csvRowOf rows (featureId f) = Some row
     | DiagnosticPopup _ shown _ =>
         csvRowOf rows (featureId f) = None /\ shown = featureId f
     end.
Proof.
  intros rows.
  split; [| split; [apply csvRowOf_spec | split; [| split]]].
  - pose proof (featureId_first_truthy f) as H.
    destruct (List.find truthy (candidates f)) as [v |]; [tauto |].
    split; [exact H |]. unfold csvRowOf. rewrite H. reflexivity.
  - intros row Hrow.
    destruct (csvRowOf_Some _ _ _ Hrow) as (s & Hs & _ & Hid & Hin).
    exists s. repeat split; try assumption.
    unfold csvRowOf in Hrow. rewrite Hs in Hrow.
    destruct (truthy (VString s)); [| discriminate].
    rewrite csvIdMap_spec in Hrow. exact Hrow.
  - intros s Hs Hnone. unfold csvRowOf. rewrite Hs.
    destruct (truthy (VString s)); [| reflexivity].
    rewrite csvIdMap_spec. apply last_with_id_None. exact Hnone.
  - unfold onEachFeature. fold rows.
    destruct (csvRowOf rows (featureId f)); [reflexivity | split; reflexivity].
Qed.

(** The resolver on a feature whose identifier stands in [properties.Id]
    only, against two rows with that identifier: the later row is found. *)
Lemma join_resolver_witness :
  let st := AppState None
              [CsvRow (Some (lit "X")) (of_Z 1) (of_Z 2);
               CsvRow (Some (lit "x")) (of_Z 3) (of_Z 4);
               CsvRow (Some (lit "X")) (of_Z 5) (of_Z 6)] Revenue in
  let f := Some (Feature VUndefined (Some {[ lit "Id" := VString (lit "X") ]})) in
  let row := CsvRow (Some (lit "X")) (of_Z 5) (of_Z 6) in
  csvRowOf (csvRows st) (featureId f) = Some row
  /\ exists s : jsstring,
       featureId f = VString s /\ id row = Some s /\ row ∈ csvRows st
       /\ last_with_id (Some s) (csvRows st) = Some row.
Proof.
  intros st f row.
  assert (Hrow : csvRowOf (csvRows st) (featureId f) = Some row)
    by (vm_compute; reflexivity).
  split; [exact Hrow |].
  destruct (join_resolver st f) as (_ & _ & Hexact & _).
  exact (Hexact row Hrow).
Defined.

(** C6 as stated fails on a feature whose [properties.id] is the empty
    string and whose [properties.Id] is "X": the first defined candidate is
    the empty string, under which there is no record, but the code goes on
    to "X" and finds its record. *)
Lemma first_defined_is_not_used :
  let rows := [CsvRow (Some (lit "X")) (of_Z 1) (of_Z 2)] in
  let f := Some (Feature VUndefined
                   (Some (<[lit "id" := VString []]> {[ lit "Id" := VString (lit "X") ]}))) in
  List.find defined (candidates f) = Some (VString [])
  /\ resolve_first_defined rows f = None
  /\ featureId f = VString (lit "X")
  /\ csvRowOf rows (featureId f) = Some (CsvRow (Some (lit "X")) (of_Z 1) (of_Z 2))
  /\ csvRowOf rows (featureId f) <> resolve_first_defined rows f.
Proof.
  intros rows f. repeat split; try (vm_compute; reflexivity).
  vm_compute. discriminate.
Qed.

(** C10.  A feature whose identifier resolves to the empty string is joined
    as one without identifier: the index is not consulted and the result is
    "no match"; hence no feature is ever matched with a row whose identifier
    is the empty string, although such a row is a key of the index. *)
Theorem empty_identifier_never_joins (st : app_state) (f : option feature) :
  let rows := csvRows st in
  csvRowOf rows (VString []) = None
  /\ csvRowOf rows (VString []) = csvRowOf rows VUndefined
  /\ (featureId f = VString [] ->
      csvRowOf rows (featureId f) = None
      /\ onEachFeature st f =
           DiagnosticPopup
             (get_opt (f ≫= f_properties) "name" ||| get_opt (f ≫= f_properties) "Name"
                ||| VString (lit "Unnamed"))
             (VString []) (List.map id rows))
  /\ (forall row : csvRow,
        csvRowOf rows (featureId f) = Some row -> id row <> Some [])
  /\ (forall row : csvRow,
        row ∈ rows -> id row = Some [] -> is_Some (csvIdMap rows !! Some [])).
Proof.
  intros rows. split; [reflexivity |]. split; [reflexivity |].
  split; [| split].
  - intros H. unfold onEachFeature. fold rows. rewrite H. split; reflexivity.
  - intros row Hrow.
    destruct (csvRowOf_Some _ _ _ Hrow) as (s & _ & Hne & Hid & _).
    rewrite Hid. congruence.
  - intros row Hin Hid. rewrite csvIdMap_spec, <- Hid.
    apply last_with_id_is_Some. exact Hin.
Qed.

(** A table with a row whose identifier is empty and a feature whose only
    identifier is the empty string: the row is a key of the index and the
    feature has no match. *)
Lemma empty_identifier_never_joins_witness :
  let st := fst (handleCsvUpload Scenario.initial
                   (lit "id,revenue,cost" ++ [LF] ++ lit ",100,40")) in
  let f := Some (Feature VUndefined (Some {[ lit "ID" := VString [] ]})) in
  let row := CsvRow (Some []) (StringToNumber (lit "100")) (StringToNumber (lit "40")) in
  featureId f = VString []
  /\ (row ∈ csvRows st /\ id row = Some [])
  /\ is_Some (csvIdMap (csvRows st) !! Some [])
  /\ csvRowOf (csvRows st) (featureId f) = None.
Proof.
  intros st f row.
  destruct (empty_identifier_never_joins st f) as (_ & _ & Hf & _ & Hkey).
  assert (Hid : featureId f = VString []) by reflexivity.
  assert (Hin : row ∈ csvRows st) by (apply list_elem_of_lookup; exists 0%nat; reflexivity).
  split; [exact Hid |]. split; [split; [exact Hin | reflexivity] |].
  split; [exact (Hkey row Hin eq_refl) |].
  exact (proj1 (Hf Hid)).
Defined.

(* ===================================================================== *)
(** * The style record *)
(* ===================================================================== *)

Section Presentation.

(** A property with a default: the property when it is there and truthy. *)
Lemma or_else_default (props : option object) (key : string) (dflt : value) :
  get_opt props key ||| dflt =
    match property props key with
    | Some v => if truthy v then v else dflt
    | None => dflt
    end.
Proof.
  unfold or_else, get_opt, get, property. destruct props as [o |]; [| reflexivity].
  cbn [mbind option_bind]. destruct (o !! lit key); reflexivity.
Qed.

Lemma style_unmatched (st : app_state) (f : option feature) :
  csvRowOf (csvRows st) (featureId f) = None \/ metricMin st = None
    \/ metricMax st = None ->
  color (style st f) = get_opt (f ≫= f_properties) "stroke" ||| VString (lit "#3388ff")
  /\ fillColor (style st f) = get_opt (f ≫= f_properties) "fill" ||| VString (lit "#3388ff").
Proof.
  unfold style. intros [H | [H | H]]; rewrite H.
  - split; reflexivity.
  - destruct (csvRowOf _ _); split; reflexivity.
  - destruct (csvRowOf _ _), (metricMin st); split; reflexivity.
Qed.

End Presentation.

(** C8 (amended).  In the style record of a feature, the stroke weight, the
    stroke opacity and the fill opacity are the feature's properties
    [stroke-width], [stroke-opacity] and [fill-opacity], unchanged, when
    these are present and truthy, and the defaults 3, 0.8 and 0.2 when they
    are absent or falsy; when the feature matches a record and the range
    exists, the stroke colour and the fill colour are both the classifier's
    colour for the record's value of the selected metric; otherwise they are
    the properties [stroke] and [fill], with the default "#3388ff". *)
Theorem style_record (st : app_state) (f : option feature) :
  let props := f ≫= f_properties in
  let s := style st f in
  weight s =
    match property props "stroke-width" with
    | Some v => if truthy v then v else VNumber (of_Z 3)
    | None => VNumber (of_Z 3)
    end
  /\ opacity s =
       match property props "stroke-opacity" with
       | Some v => if truthy v then v else VNumber (StringToNumber (lit "0.8"))
       | None => VNumber (StringToNumber (lit "0.8"))
       end
  /\ fillOpacity s =
       match property props "fill-opacity" with
       | Some v => if truthy v then v else VNumber (StringToNumber (lit "0.2"))
       | None => VNumber (StringToNumber (lit "0.2"))
       end
  /\ (forall (row : csvRow) (mn mx : num),
        csvRowOf (csvRows st) (featureId f) = Some row ->
        metricMin st = Some mn -> metricMax st = Some mx ->
        let c := getColorForValue (VNumber (field (selectedMetric st) row))
                   (VNumber mn) (VNumber mx) in
        color s = VString c /\ fillColor s = VString c)
  /\ (csvRowOf (csvRows st) (featureId f) = None \/ metricMin st = None
        \/ metricMax st = None ->
      color s = get_opt props "stroke" ||| VString (lit "#3388ff")
      /\ fillColor s = get_opt props "fill" ||| VString (lit "#3388ff")).
Proof.
  intros props s.
  split; [| split; [| split; [| split]]].
  - subst s. unfold style. cbn [weight].
    destruct (match csvRowOf _ _ with Some _ => _ | None => _ end).
    apply or_else_default.
  - subst s. unfold style. cbn [opacity].
    destruct (match csvRowOf _ _ with Some _ => _ | None => _ end).
    apply (or_else_default props "stroke-opacity").
  - subst s. unfold style. cbn [fillOpacity].
    destruct (match csvRowOf _ _ with Some _ => _ | None => _ end).
    apply (or_else_default props "fill-opacity").
  - intros row mn mx. apply style_matched.
  - apply style_unmatched.
Qed.

(** The style of the scenario's feature "South", which has no style
    property: the three defaults and the colour of its record. *)
Lemma style_record_witness :
  let st := Scenario.loaded VUndefined VUndefined in
  let f := Some (Feature (VString (lit "S1")) (Some (Scenario.stored "South" "S1"))) in
  let row := CsvRow (Some (lit "S1")) (StringToNumber (lit "100")) (StringToNumber (lit "40")) in
  (csvRowOf (csvRows st) (featureId f) = Some row
   /\ metricMin st = Some (StringToNumber (lit "100"))
   /\ metricMax st = Some (StringToNumber (lit "200")))
  /\ color (style st f) = VString (lit "rgb(237, 233, 254)")
  /\ fillColor (style st f) = VString (lit "rgb(237, 233, 254)")
  /\ weight (style st f) = VNumber (of_Z 3)
  /\ opacity (style st f) = VNumber (StringToNumber (lit "0.8"))
  /\ fillOpacity (style st f) = VNumber (StringToNumber (lit "0.2")).
Proof.
  intros st f row.
  destruct (style_record st f) as (Hw & Ho & Hf & Hmatch & _).
  assert (H1 : csvRowOf (csvRows st) (featureId f) = Some row) by (vm_compute; reflexivity).
  assert (H2 : metricMin st = Some (StringToNumber (lit "100"))) by (vm_compute; reflexivity).
  assert (H3 : metricMax st = Some (StringToNumber (lit "200"))) by (vm_compute; reflexivity).
  destruct (Hmatch row _ _ H1 H2 H3) as [Hc Hfc].
  split; [repeat split; assumption |].
  split; [rewrite Hc; vm_compute; reflexivity |].
  split; [rewrite Hfc; vm_compute; reflexivity |].
  split; [rewrite Hw; reflexivity |].
  split; [rewrite Ho; reflexivity | rewrite Hf; reflexivity].
Defined.

(** C8 as stated fails on a feature whose [fill-opacity] is present and is
    0, as the conversion writes it for an unfilled polygon: the property
    does not pass through, the default 0.2 replaces it. *)
Lemma zero_opacity_is_replaced :
  let props : option object := Some {[ lit "fill-opacity" := VNumber pos_zero ]} in
  let f := Some (Feature VUndefined props) in
  pass_through props "fill-opacity" (VNumber (StringToNumber (lit "0.2")))
    = VNumber pos_zero
  /\ fillOpacity (style Scenario.initial f) = VNumber (StringToNumber (lit "0.2"))
  /\ fillOpacity (style Scenario.initial f)
     <> pass_through props "fill-opacity" (VNumber (StringToNumber (lit "0.2"))).
Proof.
  intros props f. repeat split; try (vm_compute; reflexivity).
  vm_compute. discriminate.
Qed.

(* ===================================================================== *)
(** * The order of Numbers *)
(* ===================================================================== *)

Section Order.

Lemma opp_compare (a b : Z) : CompOpp (a ?= b) = (- a ?= - b).
Proof. rewrite Z.compare_opp. symmetry. apply Z.compare_antisym. Qed.

(** On Numbers other than NaN, [SFcompare] is the lexicographic comparison
    of the positions. *)
Lemma SFcompare_ord (x y : num) :
  isNaN x = false -> isNaN y = false ->
  SFcompare x y = Some (lex_compare (ord x) (ord y)).
Proof.
  intros Hx Hy.
  destruct x as [sx | sx | | sx mx ex], y as [sy | sy | | sy my ey];
    try discriminate; cbn [SFcompare ord lex_compare];
    try (destruct sx; reflexivity); try (destruct sy; reflexivity);
    try (destruct sx, sy; reflexivity).
  destruct sx, sy; cbn [lex_compare]; try reflexivity.
  change (-1 ?= -1) with Eq. cbv iota.
  rewrite <- opp_compare. destruct (ex ?= ey); reflexivity.
Qed.

Lemma lex_compare_lt (a b : Z * Z * Z) :
  lex_compare a b = Lt <->
  a.1.1 < b.1.1 \/ (a.1.1 = b.1.1 /\ (a.1.2 < b.1.2 \/ (a.1.2 = b.1.2 /\ a.2 < b.2))).
Proof.
  destruct a as [[a1 a2] a3], b as [[b1 b2] b3]. cbn [fst snd lex_compare].
  destruct (Z.compare_spec a1 b1), (Z.compare_spec a2 b2), (Z.compare_spec a3 b3);
    split; intros Hyp; try discriminate; try reflexivity; lia.
Qed.

Lemma lex_compare_eq (a b : Z * Z * Z) : lex_compare a b = Eq <-> a = b.
Proof.
  destruct a as [[a1 a2] a3], b as [[b1 b2] b3]. cbn [lex_compare].
  destruct (Z.compare_spec a1 b1), (Z.compare_spec a2 b2), (Z.compare_spec a3 b3);
    split; intros Hyp; try discriminate; try reflexivity;
    try (injection Hyp; intros; lia); subst; reflexivity.
Qed.

Lemma lex_compare_gt (a b : Z * Z * Z) :
  lex_compare a b = Gt <-> lex_compare b a = Lt.
Proof.
  rewrite lex_compare_lt.
  destruct a as [[a1 a2] a3], b as [[b1 b2] b3]. cbn [fst snd lex_compare].
  destruct (Z.compare_spec a1 b1), (Z.compare_spec a2 b2), (Z.compare_spec a3 b3);
    split; intros Hyp; try discriminate; try reflexivity; lia.
Qed.

Lemma SFleb_ord (x y : num) :
  isNaN x = false -> isNaN y = false ->
  SFleb x y = true <-> ord_le (ord x) (ord y).
Proof.
  intros Hx Hy. unfold SFleb. rewrite (SFcompare_ord x y Hx Hy).
  pose proof (lex_compare_lt (ord x) (ord y)) as Hlt.
  pose proof (lex_compare_eq (ord x) (ord y)) as Heq.
  pose proof (lex_compare_gt (ord x) (ord y)) as Hgt.
  pose proof (lex_compare_lt (ord y) (ord x)) as Hlt'.
  unfold ord_le.
  destruct (lex_compare (ord x) (ord y)).
  - split; [intros _ | reflexivity].
    rewrite (proj1 Heq eq_refl). lia.
  - split; [intros _ | reflexivity]. destruct (proj1 Hlt eq_refl); lia.
  - split; [discriminate |]. intros H. exfalso.
    apply proj1 in Hgt. specialize (Hgt eq_refl). apply Hlt' in Hgt. lia.
Qed.

Lemma SFltb_ord (x y : num) :
  isNaN x = false -> isNaN y = false ->
  SFltb x y = false <-> ord_le (ord y) (ord x).
Proof.
  intros Hx Hy. unfold SFltb. rewrite (SFcompare_ord x y Hx Hy).
  pose proof (lex_compare_lt (ord x) (ord y)) as Hlt.
  pose proof (lex_compare_eq (ord x) (ord y)) as Heq.
  pose proof (lex_compare_gt (ord x) (ord y)) as Hgt.
  pose proof (lex_compare_lt (ord y) (ord x)) as Hlt'.
  unfold ord_le.
  destruct (lex_compare (ord x) (ord y)).
  - split; [intros _ | reflexivity].
    rewrite (proj1 Heq eq_refl). lia.
  - split; [discriminate |]. intros H. exfalso.
    destruct (proj1 Hlt eq_refl); lia.
  - split; [intros _ | reflexivity].
    apply proj1 in Hgt. specialize (Hgt eq_refl). apply Hlt' in Hgt. lia.
Qed.

Lemma ord_le_trans (a b c : Z * Z * Z) : ord_le a b -> ord_le b c -> ord_le a c.
Proof. unfold ord_le. lia. Qed.

Lemma ord_le_refl (a : Z * Z * Z) : ord_le a a.
Proof. unfold ord_le. lia. Qed.

(** [<=] on Numbers other than NaN is transitive, and where [x < a] fails,
    [a <= x] holds. *)
Lemma SFleb_trans (x y z : num) :
  isNaN x = false -> isNaN y = false -> isNaN z = false ->
  SFleb x y = true -> SFleb y z = true -> SFleb x z = true.
Proof.
  intros Hx Hy Hz. rewrite !SFleb_ord by assumption. apply ord_le_trans.
Qed.

Lemma SFleb_refl (x : num) : isNaN x = false -> SFleb x x = true.
Proof. intros Hx. rewrite SFleb_ord by assumption. apply ord_le_refl. Qed.

Lemma not_less (x a : num) :
  isNaN x = false -> isNaN a = false -> less x a = false -> SFleb a x = true.
Proof.
  intros Hx Ha H. unfold less in H.
  rewrite SFltb_ord in H by assumption. rewrite SFleb_ord by assumption. exact H.
Qed.

Lemma not_greater (x b : num) :
  isNaN x = false -> isNaN b = false -> greater x b = false -> SFleb x b = true.
Proof.
  intros Hx Hb H. unfold greater in H.
  rewrite SFltb_ord in H by assumption. rewrite SFleb_ord by assumption. exact H.
Qed.

Lemma less_iff (x a : num) :
  isNaN x = false -> isNaN a = false ->
  less x a = false <-> SFleb a x = true.
Proof.
  intros Hx Ha. unfold less. rewrite SFltb_ord, SFleb_ord by assumption. tauto.
Qed.

End Order.

(* ===================================================================== *)
(** * The range is the least and the greatest value *)
(* ===================================================================== *)

Section Extremes.

Lemma finite_not_NaN (x : num) : isFinite x = true -> isNaN x = false.
Proof. destruct x; try discriminate; reflexivity. Qed.

Lemma min2_spec (a b : num) :
  isNaN a = false -> isNaN b = false ->
  isNaN (min2 a b) = false
  /\ ord_le (ord (min2 a b)) (ord a) /\ ord_le (ord (min2 a b)) (ord b)
  /\ (min2 a b = a \/ min2 a b = b).
Proof.
  intros Ha Hb. unfold min2. rewrite (SFcompare_ord a b Ha Hb).
  pose proof (lex_compare_lt (ord a) (ord b)) as Hlt.
  pose proof (lex_compare_eq (ord a) (ord b)) as Heq.
  pose proof (lex_compare_gt (ord a) (ord b)) as Hgt.
  pose proof (lex_compare_lt (ord b) (ord a)) as Hlt'.
  destruct (lex_compare (ord a) (ord b)).
  - specialize (proj1 Heq eq_refl) as E.
    destruct a as [sa | sa | | sa ma ea], b as [sb | sb | | sb mb eb];
      try discriminate; cbn [ord] in *;
      repeat split; try reflexivity; try apply ord_le_refl;
      try (rewrite <- E; apply ord_le_refl); try (left; reflexivity).
    destruct sa, sb; cbn; auto.
  - specialize (proj1 Hlt eq_refl) as E.
    repeat split; [exact Ha | apply ord_le_refl | unfold ord_le; lia | left; reflexivity].
  - specialize (proj1 Hlt' (proj1 Hgt eq_refl)) as E.
    repeat split; [exact Hb | unfold ord_le; lia | apply ord_le_refl | right; reflexivity].
Qed.

Lemma max2_spec (a b : num) :
  isNaN a = false -> isNaN b = false ->
  isNaN (max2 a b) = false
  /\ ord_le (ord a) (ord (max2 a b)) /\ ord_le (ord b) (ord (max2 a b))
  /\ (max2 a b = a \/ max2 a b = b).
Proof.
  intros Ha Hb. unfold max2. rewrite (SFcompare_ord a b Ha Hb).
  pose proof (lex_compare_lt (ord a) (ord b)) as Hlt.
  pose proof (lex_compare_eq (ord a) (ord b)) as Heq.
  pose proof (lex_compare_gt (ord a) (ord b)) as Hgt.
  pose proof (lex_compare_lt (ord b) (ord a)) as Hlt'.
  destruct (lex_compare (ord a) (ord b)).
  - specialize (proj1 Heq eq_refl) as E.
    destruct a as [sa | sa | | sa ma ea], b as [sb | sb | | sb mb eb];
      try discriminate; cbn [ord] in *;
      repeat split; try reflexivity; try apply ord_le_refl;
      try (rewrite E; apply ord_le_refl); try (left; reflexivity).
    destruct sa, sb; cbn; auto.
  - specialize (proj1 Hlt eq_refl) as E.
    repeat split; [exact Hb | unfold ord_le; lia | apply ord_le_refl | right; reflexivity].
  - specialize (proj1 Hlt' (proj1 Hgt eq_refl)) as E.
    repeat split; [exact Ha | apply ord_le_refl | unfold ord_le; lia | left; reflexivity].
Qed.

Lemma fold_min2_spec (xs : list num) (a : num) :
  Forall (fun x => isNaN x = false) xs -> isNaN a = false ->
  isNaN (fold_left min2 xs a) = false
  /\ ord_le (ord (fold_left min2 xs a)) (ord a)
  /\ (forall x : num, x ∈ xs -> ord_le (ord (fold_left min2 xs a)) (ord x))
  /\ (fold_left min2 xs a = a \/ fold_left min2 xs a ∈ xs).
Proof.
  intros H. revert a. induction H as [| x xs Hx _ IH]; intros a Ha.
  - cbn [fold_left]. repeat split; [exact Ha | apply ord_le_refl | | left; reflexivity].
    intros x Hin. inversion Hin.
  - cbn [fold_left].
    destruct (min2_spec a x Ha Hx) as (Hn & Hla & Hlx & Hor).
    destruct (IH (min2 a x) Hn) as (Hn' & Hl & Hall & Hor').
    split; [exact Hn' |]. split; [exact (ord_le_trans _ _ _ Hl Hla) |]. split.
    + intros y Hy. apply elem_of_cons in Hy as [-> | Hy].
      * exact (ord_le_trans _ _ _ Hl Hlx).
      * exact (Hall y Hy).
    + destruct Hor' as [E | Hin]; [| right; right; exact Hin].
      rewrite E. destruct Hor as [-> | ->]; [left; reflexivity | right; left].
Qed.

Lemma fold_max2_spec (xs : list num) (a : num) :
  Forall (fun x => isNaN x = false) xs -> isNaN a = false ->
  isNaN (fold_left max2 xs a) = false
  /\ ord_le (ord a) (ord (fold_left max2 xs a))
  /\ (forall x : num, x ∈ xs -> ord_le (ord x) (ord (fold_left max2 xs a)))
  /\ (fold_left max2 xs a = a \/ fold_left max2 xs a ∈ xs).
Proof.
  intros H. revert a. induction H as [| x xs Hx _ IH]; intros a Ha.
  - cbn [fold_left]. repeat split; [exact Ha | apply ord_le_refl | | left; reflexivity].
    intros x Hin. inversion Hin.
  - cbn [fold_left].
    destruct (max2_spec a x Ha Hx) as (Hn & Hla & Hlx & Hor).
    destruct (IH (max2 a x) Hn) as (Hn' & Hl & Hall & Hor').
    split; [exact Hn' |]. split; [exact (ord_le_trans _ _ _ Hla Hl) |]. split.
    + intros y Hy. apply elem_of_cons in Hy as [-> | Hy].
      * exact (ord_le_trans _ _ _ Hlx Hl).
      * exact (Hall y Hy).
    + destruct Hor' as [E | Hin]; [| right; right; exact Hin].
      rewrite E. destruct Hor as [-> | ->]; [left; reflexivity | right; left].
Qed.

Lemma finite_ord (x : num) : isFinite x = true -> -1 <= (ord x).1.1 <= 1.
Proof.
  destruct x as [s | s | | s m e]; try discriminate; intros _; cbn [ord].
  - cbn. lia.
  - destruct s; cbn; lia.
Qed.

End Extremes.

Section RangeFacts.

(** The values the range is computed from are the finite values of the
    selected metric in the rows. *)
Lemma metricValues_iff (st : app_state) (x : num) :
  x ∈ metricValues st <->
  isFinite x = true
  /\ exists row : csvRow, row ∈ csvRows st /\ field (selectedMetric st) row = x.
Proof.
  unfold metricValues. split.
  - destruct (0 <? length (csvRows st))%nat; [| intros H; inversion H].
    intros H. apply list_elem_of_In, List.filter_In in H as [H Hfin].
    split; [exact Hfin |].
    apply List.in_map_iff in H as (row & E & Hin).
    exists row. split; [apply list_elem_of_In; exact Hin | exact E].
  - intros (Hfin & row & Hin & E).
    destruct (csvRows st) as [| r rs] eqn:Er; [inversion Hin |].
    cbn [length Nat.ltb Nat.leb]. rewrite <- Er in *.
    apply list_elem_of_In, List.filter_In. split; [| exact Hfin].
    apply List.in_map_iff. exists row. split; [exact E |].
    apply list_elem_of_In. exact Hin.
Qed.

Lemma metricValues_not_NaN (st : app_state) :
  Forall (fun x => isNaN x = false) (metricValues st).
Proof.
  apply Forall_forall. intros x Hx. apply finite_not_NaN.
  apply metricValues_iff in Hx. tauto.
Qed.

(** The lower bound is one of the values and is below them all. *)
Lemma metricMin_least (st : app_state) (mn : num) :
  metricMin st = Some mn ->
  mn ∈ metricValues st
  /\ (forall x : num, x ∈ metricValues st -> SFleb mn x = true).
Proof.
  unfold metricMin, Math_min.
  pose proof (metricValues_not_NaN st) as Hnn.
  pose proof (fun x => proj1 (metricValues_iff st x)) as Hfin.
  destruct (metricValues st) as [| v vs] eqn:E; [discriminate |].
  cbn [length Nat.ltb Nat.leb]. intros [= <-].
  destruct (fold_min2_spec (v :: vs) (S754_infinity false) Hnn eq_refl)
    as (Hn & _ & Hall & Hor).
  assert (Hv : v ∈ v :: vs) by left.
  split.
  - destruct Hor as [E1 | H]; [| exact H]. exfalso.
    specialize (Hall v Hv). rewrite E1 in Hall.
    pose proof (finite_ord v (proj1 (Hfin v Hv))). unfold ord_le in Hall.
    cbn [ord fst snd] in Hall. lia.
  - intros x Hx.
    assert (Hxn : isNaN x = false) by (apply finite_not_NaN, Hfin, Hx).
    apply SFleb_ord; auto.
Qed.

(** The upper bound is one of the values and is above them all. *)
Lemma metricMax_greatest (st : app_state) (mx : num) :
  metricMax st = Some mx ->
  mx ∈ metricValues st
  /\ (forall x : num, x ∈ metricValues st -> SFleb x mx = true).
Proof.
  unfold metricMax, Math_max.
  pose proof (metricValues_not_NaN st) as Hnn.
  pose proof (fun x => proj1 (metricValues_iff st x)) as Hfin.
  destruct (metricValues st) as [| v vs] eqn:E; [discriminate |].
  cbn [length Nat.ltb Nat.leb]. intros [= <-].
  destruct (fold_max2_spec (v :: vs) (S754_infinity true) Hnn eq_refl)
    as (Hn & _ & Hall & Hor).
  assert (Hv : v ∈ v :: vs) by left.
  split.
  - destruct Hor as [E1 | H]; [| exact H]. exfalso.
    specialize (Hall v Hv). rewrite E1 in Hall.
    pose proof (finite_ord v (proj1 (Hfin v Hv))). unfold ord_le in Hall.
    cbn [ord fst snd] in Hall. lia.
  - intros x Hx.
    assert (Hxn : isNaN x = false) by (apply finite_not_NaN, Hfin, Hx).
    apply SFleb_ord; auto.
Qed.

End RangeFacts.

(** X1.  When the range exists, its bounds are values of the selected metric in
    the rows, and every finite value of that metric lies between them. *)
Theorem range_bounds (st : app_state) (mn mx : num) :
  metricMin st = Some mn -> metricMax st = Some mx ->
  mn ∈ metricValues st /\ mx ∈ metricValues st
  /\ (forall x : num, x ∈ metricValues st ->
        SFleb mn x = true /\ SFleb x mx = true).
Proof.
  intros Hmn Hmx.
  destruct (metricMin_least st mn Hmn) as [Hin_mn Hlo].
  destruct (metricMax_greatest st mx Hmx) as [Hin_mx Hhi].
  split; [exact Hin_mn |]. split; [exact Hin_mx |].
  intros x Hx. split; [exact (Hlo x Hx) | exact (Hhi x Hx)].
Qed.

(** The range of the cost in the scenario: 40 and 150, around the values. *)
Lemma range_bounds_witness :
  let st := AppState None (csvRows (Scenario.loaded VUndefined VUndefined)) Cost in
  let mn := StringToNumber (lit "40") in
  let mx := StringToNumber (lit "150") in
  (metricMin st = Some mn /\ metricMax st = Some mx)
  /\ mn ∈ metricValues st /\ mx ∈ metricValues st
  /\ SFleb mn mx = true.
Proof.
  intros st mn mx.
  assert (H1 : metricMin st = Some mn) by (vm_compute; reflexivity).
  assert (H2 : metricMax st = Some mx) by (vm_compute; reflexivity).
  destruct (range_bounds st mn mx H1 H2) as (Hmn & Hmx & Hall).
  split; [split; assumption |]. split; [exact Hmn |]. split; [exact Hmx |].
  exact (proj1 (Hall mx Hmx)).
Defined.

(* ===================================================================== *)
(** * Degenerate scales *)
(* ===================================================================== *)

Section Degenerate.

(** The difference of two finite Numbers is never NaN. *)
Lemma sub_not_NaN (x y : num) :
  valid x = true -> valid y = true ->
  isFinite x = true -> isFinite y = true ->
  isNaN (sub x y) = false.
Proof.
  intros Vx Vy Fx Fy.
  destruct x as [sx | | | sx mx ex], y as [sy | | | sy my ey];
    try discriminate; unfold sub; cbn [SFsub]; try reflexivity.
  - destruct sx, sy; reflexivity.
  - apply bounded_inv in Vx as (Hx & _); [| unfold prec; lia].
    apply bounded_inv in Vy as (Hy & _); [| unfold prec; lia].
    set (d := _ - _).
    destruct (Z.eq_dec d 0) as [-> | Hd]; [reflexivity |].
    pose proof (binary_normalize_nonzero prec emax ltac:(unfold prec; lia)
                  d (Z.min ex ey) false Hd ltac:(lia)) as H.
    destruct (binary_normalize _ _ _ _ _); try reflexivity; contradiction.
Qed.

Lemma SFeqb_finite (sa sb : bool) (ma mb : positive) (ea eb : Z) :
  SFeqb (S754_finite sa ma ea) (S754_finite sb mb eb) = true ->
  sa = sb /\ ma = mb /\ ea = eb.
Proof.
  unfold SFeqb. cbn [SFcompare].
  destruct sa, sb; try discriminate;
    destruct (Z.compare_spec ea eb) as [-> | |]; try discriminate;
    change (Pos.compare_cont Eq ma mb) with (Pos.compare ma mb);
    destruct (Pos.compare_spec ma mb) as [-> | |]; try discriminate; auto.
Qed.

(** Two finite Numbers that are [===] have a zero for difference. *)
Lemma strict_eq_sub (a b : num) :
  isFinite a = true -> isFinite b = true ->
  strict_eq a b = true -> exists s : bool, sub b a = S754_zero s.
Proof.
  intros Fa Fb E.
  destruct a as [sa | | | sa ma ea], b as [sb | | | sb mb eb]; try discriminate.
  - unfold sub. cbn [SFsub]. destruct sb, sa; eexists; reflexivity.
  - unfold strict_eq, SFeqb in E. cbn [SFcompare] in E. destruct sb; discriminate.
  - unfold strict_eq, SFeqb in E. cbn [SFcompare] in E. destruct sa; discriminate.
  - apply SFeqb_finite in E as (-> & -> & ->). exists false. apply sub_self. reflexivity.
Qed.

Lemma scale_at_NaN :
  rgb (channel 237 88 NaN) (channel 233 28 NaN) (channel 254 135 NaN)
  = lit "rgb(NaN, NaN, NaN)".
Proof. vm_compute. reflexivity. Qed.

Lemma style_value_not_finite (st : app_state) (f : option feature)
    (row : csvRow) (mn mx : num) :
  csvRowOf (csvRows st) (featureId f) = Some row ->
  metricMin st = Some mn -> metricMax st = Some mx ->
  isFinite (field (selectedMetric st) row) = false ->
  color (style st f) = VString default_purple
  /\ fillColor (style st f) = VString default_purple.
Proof.
  intros Hrow Hmn Hmx Hnf.
  destruct (style_matched st f row mn mx Hrow Hmn Hmx) as [Hc Hf].
  rewrite Hc, Hf.
  rewrite getColorForValue_not_finite by (left; exact Hnf). split; reflexivity.
Qed.

Lemma no_finite_value (st : app_state) :
  (forall row : csvRow, row ∈ csvRows st ->
     isFinite (field (selectedMetric st) row) = false) ->
  metricValues st = [].
Proof.
  intros H. destruct (metricValues st) as [| x xs] eqn:E; [reflexivity |].
  assert (Hx : x ∈ metricValues st) by (rewrite E; left).
  apply metricValues_iff in Hx as (Hfin & row & Hin & <-).
  rewrite (H row Hin) in Hfin. discriminate.
Qed.

End Degenerate.

(** X2.  A matched record whose selected metric is not a finite Number (an
    unparsable or missing cell gives NaN) is painted with the neutral purple
    as soon as some row has a finite value; when no row has one there is no
    range, and no feature takes a colour from the metric: stroke and fill
    are the feature's own [stroke] and [fill], or "#3388ff". *)
Theorem non_finite_values (st : app_state) (f : option feature) :
  (forall (row : csvRow) (mn mx : num),
      csvRowOf (csvRows st) (featureId f) = Some row ->
      metricMin st = Some mn -> metricMax st = Some mx ->
      isFinite (field (selectedMetric st) row) = false ->
      color (style st f) = VString (lit "#7c3aed")
      /\ fillColor (style st f) = VString (lit "#7c3aed"))
  /\ ((forall row : csvRow, row ∈ csvRows st ->
         isFinite (field (selectedMetric st) row) = false) ->
      metricMin st = None /\ metricMax st = None
      /\ color (style st f) =
           get_opt (f ≫= f_properties) "stroke" ||| VString (lit "#3388ff")
      /\ fillColor (style st f) =
           get_opt (f ≫= f_properties) "fill" ||| VString (lit "#3388ff")).
Proof.
  split.
  - intros row mn mx. apply style_value_not_finite.
  - intros H. pose proof (no_finite_value st H) as E.
    assert (Hmn : metricMin st = None) by (unfold metricMin; rewrite E; reflexivity).
    assert (Hmx : metricMax st = None) by (unfold metricMax; rewrite E; reflexivity).
    split; [exact Hmn |]. split; [exact Hmx |].
    apply style_unmatched. right. left. exact Hmn.
Qed.

(** A table whose second row has an unparsable revenue, and one whose only
    row has. *)
Lemma non_finite_values_witness :
  let st := fst (handleCsvUpload Scenario.initial
                   (lit "id,revenue,cost" ++ [LF] ++ lit "S1,100,40" ++ [LF]
                      ++ lit "S2,n/a,150")) in
  let st' := fst (handleCsvUpload Scenario.initial
                    (lit "id,revenue,cost" ++ [LF] ++ lit "S2,n/a,150")) in
  let f := Some (Feature (VString (lit "S2")) None) in
  let row := CsvRow (Some (lit "S2")) NaN (StringToNumber (lit "150")) in
  (csvRowOf (csvRows st) (featureId f) = Some row
   /\ metricMin st = Some (StringToNumber (lit "100"))
   /\ metricMax st = Some (StringToNumber (lit "100"))
   /\ isFinite (field (selectedMetric st) row) = false)
  /\ color (style st f) = VString (lit "#7c3aed")
  /\ (forall r : csvRow, r ∈ csvRows st' ->
        isFinite (field (selectedMetric st') r) = false)
  /\ color (style st' f) = VString (lit "#3388ff").
Proof.
  intros st st' f row.
  assert (H1 : csvRowOf (csvRows st) (featureId f) = Some row) by (vm_compute; reflexivity).
  assert (H2 : metricMin st = Some (StringToNumber (lit "100"))) by (vm_compute; reflexivity).
  assert (H3 : metricMax st = Some (StringToNumber (lit "100"))) by (vm_compute; reflexivity).
  assert (H4 : isFinite (field (selectedMetric st) row) = false) by reflexivity.
  assert (H5 : forall r : csvRow, r ∈ csvRows st' ->
                 isFinite (field (selectedMetric st') r) = false).
  { intros r Hr. change (csvRows st') with [row] in Hr.
    apply list_elem_of_singleton in Hr as ->. reflexivity. }
  split; [repeat split; assumption |].
  split; [exact (proj1 (proj1 (non_finite_values st f) row _ _ H1 H2 H3 H4)) |].
  split; [exact H5 |].
  destruct (proj2 (non_finite_values st' f) H5) as (_ & _ & Hc & _).
  rewrite Hc. reflexivity.
Defined.

(** X3.  When all the finite values of the selected metric are equal, as when
    the table has a single row, the scale is flat and every feature that
    matches a record is painted with the neutral purple. *)
Theorem flat_range (st : app_state) (f : option feature) (row : csvRow) :
  (forall x y : num, x ∈ metricValues st -> y ∈ metricValues st ->
     strict_eq x y = true) ->
  metricValues st <> [] ->
  csvRowOf (csvRows st) (featureId f) = Some row ->
  color (style st f) = VString (lit "#7c3aed")
  /\ fillColor (style st f) = VString (lit "#7c3aed").
Proof.
  intros Hall Hne Hrow.
  destruct (metricMin st) as [mn |] eqn:Hmn;
    [| unfold metricMin in Hmn; destruct (metricValues st); [congruence | discriminate]].
  destruct (metricMax st) as [mx |] eqn:Hmx;
    [| unfold metricMax in Hmx; destruct (metricValues st); [congruence | discriminate]].
  destruct (range_bounds st mn mx Hmn Hmx) as (H1 & H2 & _).
  destruct (style_matched st f row mn mx Hrow Hmn Hmx) as [Hc Hf].
  rewrite Hc, Hf.
  rewrite getColorForValue_flat by exact (Hall mn mx H1 H2). split; reflexivity.
Qed.

(** The scenario's table reduced to its first row. *)
Lemma flat_range_witness :
  let st := fst (handleCsvUpload Scenario.initial
                   (lit "id,revenue,cost" ++ [LF] ++ lit "S1,100,40")) in
  let f := Some (Feature (VString (lit "S1")) None) in
  let row := CsvRow (Some (lit "S1")) (StringToNumber (lit "100"))
               (StringToNumber (lit "40")) in
  (metricValues st = [StringToNumber (lit "100")]
   /\ csvRowOf (csvRows st) (featureId f) = Some row)
  /\ color (style st f) = VString (lit "#7c3aed").
Proof.
  intros st f row.
  assert (H1 : metricValues st = [StringToNumber (lit "100")]) by (vm_compute; reflexivity).
  assert (H2 : csvRowOf (csvRows st) (featureId f) = Some row) by (vm_compute; reflexivity).
  split; [split; assumption |].
  refine (proj1 (flat_range st f row _ _ H2)).
  - intros x y Hx Hy. rewrite H1 in Hx, Hy.
    apply list_elem_of_singleton in Hx as ->.
    apply list_elem_of_singleton in Hy as ->. reflexivity.
  - rewrite H1. discriminate.
Defined.

(** X4.  When [max - min] overflows to an infinity, the scale collapses: a finite
    value is painted with the light anchor if its own difference to [min]
    is finite, and with "rgb(NaN, NaN, NaN)" if that overflows too; no value
    takes the dark anchor or a colour in between. *)
Theorem overflowed_scale (v mn mx : num) (s : bool) :
  valid v = true -> valid mn = true ->
  isFinite v = true -> isFinite mn = true -> isFinite mx = true ->
  sub mx mn = S754_infinity s ->
  getColorForValue (VNumber v) (VNumber mn) (VNumber mx) =
    if isFinite (sub v mn) then light_anchor else lit "rgb(NaN, NaN, NaN)".
Proof.
  intros Vv Vmn Fv Fmn Fmx Hover.
  assert (Hne : strict_eq mn mx = false).
  { destruct (strict_eq mn mx) eqn:E; [exfalso | reflexivity].
    destruct (strict_eq_sub mn mx Fmn Fmx E) as [z Hz]. congruence. }
  rewrite getColorForValue_scale by assumption. cbv zeta. rewrite Hover.
  pose proof (sub_not_NaN v mn Vv Vmn Fv Fmn) as Hn.
  destruct (sub v mn) as [sd | sd | | sd md ed]; try discriminate; cbn [isFinite].
  - apply scale_at_zero.
  - apply scale_at_NaN.
  - apply scale_at_zero.
Qed.

(** At [min = -1e308] and [max = 1e308]: the value 0 is painted with the
    light anchor, the value [max] with "rgb(NaN, NaN, NaN)". *)
Lemma overflowed_scale_witness :
  let mn := StringToNumber (lit "-1e308") in
  let mx := StringToNumber (lit "1e308") in
  (valid mn = true /\ valid mx = true /\ valid pos_zero = true
   /\ isFinite mn = true /\ isFinite mx = true /\ sub mx mn = Infinity)
  /\ getColorForValue (VNumber pos_zero) (VNumber mn) (VNumber mx) = light_anchor
  /\ getColorForValue (VNumber mx) (VNumber mn) (VNumber mx) = lit "rgb(NaN, NaN, NaN)".
Proof.
  intros mn mx.
  split; [repeat split; reflexivity |]. split.
  - rewrite (overflowed_scale pos_zero mn mx false); reflexivity.
  - rewrite (overflowed_scale mx mn mx false); reflexivity.
Defined.

(* ===================================================================== *)
(** * The map controls *)
(* ===================================================================== *)

Section Controls.

Lemma SFleb_not_NaN_r (a x : num) : SFleb a x = true -> isNaN x = false.
Proof.
  unfold SFleb. destruct a, x; cbn [SFcompare isNaN]; try discriminate; reflexivity.
Qed.

Lemma SFleb_not_NaN_l (x b : num) : SFleb x b = true -> isNaN x = false.
Proof.
  unfold SFleb. destruct x, b; cbn [SFcompare isNaN]; try discriminate; reflexivity.
Qed.

(** The test of the handlers: a Number passes exactly when it lies between
    the bounds. *)
Lemma in_bounds_iff (x : num) (a b : Z) :
  isNaN x = false ->
  less x (of_Z a) || greater x (of_Z b) = false <-> between a b x.
Proof.
  intros Hx.
  assert (Ha : isNaN (of_Z a) = false).
  { unfold of_Z. destruct a as [| p | p]; [reflexivity | |].
    - pose proof (binary_normalize_nonzero prec emax ltac:(unfold prec; lia)
                    (Zpos p) 0 false ltac:(lia) ltac:(vm_compute; discriminate)) as H.
      destruct (binary_normalize _ _ _ _ _); try reflexivity; contradiction.
    - pose proof (binary_normalize_nonzero prec emax ltac:(unfold prec; lia)
                    (Zneg p) 0 false ltac:(lia) ltac:(vm_compute; discriminate)) as H.
      destruct (binary_normalize _ _ _ _ _); try reflexivity; contradiction. }
  assert (Hb : isNaN (of_Z b) = false).
  { unfold of_Z. destruct b as [| p | p]; [reflexivity | |].
    - pose proof (binary_normalize_nonzero prec emax ltac:(unfold prec; lia)
                    (Zpos p) 0 false ltac:(lia) ltac:(vm_compute; discriminate)) as H.
      destruct (binary_normalize _ _ _ _ _); try reflexivity; contradiction.
    - pose proof (binary_normalize_nonzero prec emax ltac:(unfold prec; lia)
                    (Zneg p) 0 false ltac:(lia) ltac:(vm_compute; discriminate)) as H.
      destruct (binary_normalize _ _ _ _ _); try reflexivity; contradiction. }
  unfold between. rewrite orb_false_iff.
  rewrite (less_iff x (of_Z a) Hx Ha).
  unfold greater. rewrite (SFltb_ord (of_Z b) x Hb Hx), (SFleb_ord x (of_Z b) Hx Hb).
  tauto.
Qed.

Lemma parseFloat_blank (s : jsstring) : blank s -> parseFloat s = NaN.
Proof.
  intros H. unfold parseFloat.
  replace (trimStart s) with (@nil code_unit); [reflexivity |].
  symmetry. induction H as [| c s Hc _ IH]; [reflexivity |].
  cbn [trimStart]. rewrite Hc. exact IH.
Qed.

Lemma between_dec (a b : Z) (x : num) : between a b x \/ ~ between a b x.
Proof.
  unfold between.
  destruct (SFleb (of_Z a) x), (SFleb x (of_Z b)); intuition discriminate.
Qed.

End Controls.

(** X5.  "Set center" accepts exactly when both inputs parse, as [parseFloat]
    does, to a latitude between -90 and 90 and a longitude between -180 and
    180; it then replaces the centre by the two Numbers and nothing else;
    otherwise it leaves the state as it was. *)
Theorem handleSetCenter_accepts (vs : view_state) :
  let latNum := parseFloat (lat vs) in
  let lngNum := parseFloat (lng vs) in
  (between (-90) 90 latNum /\ between (-180) 180 lngNum ->
   handleSetCenter vs =
     ({| center := (latNum, lngNum); lat := lat vs; lng := lng vs;
         zoom := zoom vs; zoomInput := zoomInput vs |},
      Message success "Map center updated"))
  /\ (~ (between (-90) 90 latNum /\ between (-180) 180 lngNum) ->
      fst (handleSetCenter vs) = vs
      /\ msg_level (snd (handleSetCenter vs)) = error).
Proof.
  intros latNum lngNum. unfold handleSetCenter. fold latNum lngNum.
  destruct (isNaN latNum) eqn:N1.
  { split; [| split; reflexivity].
    intros [[H _] _]. apply SFleb_not_NaN_r in H. congruence. }
  destruct (isNaN lngNum) eqn:N2.
  { split; [| split; reflexivity].
    intros [_ [H _]]. apply SFleb_not_NaN_r in H. congruence. }
  cbn [orb].
  pose proof (in_bounds_iff latNum (-90) 90 N1) as H1.
  pose proof (in_bounds_iff lngNum (-180) 180 N2) as H2.
  destruct (less latNum (of_Z (-90)) || greater latNum (of_Z 90)).
  { split; [| split; reflexivity].
    intros [H _]. apply H1 in H. discriminate. }
  destruct (less lngNum (of_Z (-180)) || greater lngNum (of_Z 180)).
  { split; [| split; reflexivity].
    intros [_ H]. apply H2 in H. discriminate. }
  split; [reflexivity |]. intros H. exfalso. apply H.
  split; [apply H1 | apply H2]; reflexivity.
Qed.

(** The input "48.1 N" is read as 48.1, and the centre moves; with the
    latitude 91 it does not. *)
Lemma handleSetCenter_accepts_witness :
  let vs := ViewState DEFAULT_CENTER (lit "48.1 N") (lit " 16.3") (of_Z 13) (lit "13") in
  let vs' := ViewState DEFAULT_CENTER (lit "91") (lit "16.3") (of_Z 13) (lit "13") in
  (between (-90) 90 (parseFloat (lat vs)) /\ between (-180) 180 (parseFloat (lng vs)))
  /\ center (fst (handleSetCenter vs))
     = (StringToNumber (lit "48.1"), StringToNumber (lit "16.3"))
  /\ ~ (between (-90) 90 (parseFloat (lat vs'))
        /\ between (-180) 180 (parseFloat (lng vs')))
  /\ fst (handleSetCenter vs') = vs'.
Proof.
  intros vs vs'.
  assert (H : between (-90) 90 (parseFloat (lat vs))
              /\ between (-180) 180 (parseFloat (lng vs)))
    by (repeat split; reflexivity).
  assert (H' : ~ (between (-90) 90 (parseFloat (lat vs'))
                  /\ between (-180) 180 (parseFloat (lng vs')))).
  { intros [[_ Hle] _]. vm_compute in Hle. discriminate. }
  split; [exact H |]. split.
  - rewrite (proj1 (handleSetCenter_accepts vs) H). reflexivity.
  - split; [exact H' |]. exact (proj1 (proj2 (handleSetCenter_accepts vs') H')).
Defined.

(** X6.  "Set zoom" accepts exactly when the input parses to a Number between 1
    and 20, which it then makes the zoom; otherwise the state stays. *)
Theorem handleSetZoom_accepts (vs : view_state) :
  let zoomNum := parseFloat (zoomInput vs) in
  (between 1 20 zoomNum ->
   handleSetZoom vs =
     ({| center := center vs; lat := lat vs; lng := lng vs;
         zoom := zoomNum; zoomInput := zoomInput vs |},
      Message success "Zoom level updated"))
  /\ (~ between 1 20 zoomNum ->
      fst (handleSetZoom vs) = vs
      /\ msg_level (snd (handleSetZoom vs)) = error).
Proof.
  intros zoomNum. unfold handleSetZoom. fold zoomNum.
  destruct (isNaN zoomNum) eqn:N1.
  { split; [| split; reflexivity].
    intros [H _]. apply SFleb_not_NaN_r in H. congruence. }
  pose proof (in_bounds_iff zoomNum 1 20 N1) as H1.
  destruct (less zoomNum (of_Z 1) || greater zoomNum (of_Z 20)).
  { split; [| split; reflexivity].
    intros H. apply H1 in H. discriminate. }
  split; [reflexivity |]. intros H. exfalso. apply H. apply H1. reflexivity.
Qed.

Lemma handleSetZoom_accepts_witness :
  let vs := ViewState DEFAULT_CENTER [] [] (of_Z 13) (lit "7.5") in
  let vs' := ViewState DEFAULT_CENTER [] [] (of_Z 13) (lit "0") in
  between 1 20 (parseFloat (zoomInput vs))
  /\ zoom (fst (handleSetZoom vs)) = StringToNumber (lit "7.5")
  /\ ~ between 1 20 (parseFloat (zoomInput vs'))
  /\ fst (handleSetZoom vs') = vs'.
Proof.
  intros vs vs'.
  assert (H : between 1 20 (parseFloat (zoomInput vs))) by (split; reflexivity).
  assert (H' : ~ between 1 20 (parseFloat (zoomInput vs'))).
  { intros [Hle _]. vm_compute in Hle. discriminate. }
  split; [exact H |]. split.
  - rewrite (proj1 (handleSetZoom_accepts vs) H). reflexivity.
  - split; [exact H' |]. exact (proj1 (proj2 (handleSetZoom_accepts vs') H')).
Defined.

(** X7.  An input that is empty or made of white space is not a coordinate:
    "Set center" reports invalid coordinates, "Set zoom" an invalid zoom
    level, and the state stays. *)
Theorem blank_inputs_rejected (vs : view_state) :
  (blank (lat vs) \/ blank (lng vs) ->
   handleSetCenter vs = (vs, Message error "Please enter valid coordinates"))
  /\ (blank (zoomInput vs) ->
      handleSetZoom vs = (vs, Message error "Please enter a valid zoom level")).
Proof.
  split.
  - intros H. unfold handleSetCenter.
    destruct H as [H | H]; rewrite (parseFloat_blank _ H); cbn [isNaN orb];
      rewrite ?orb_true_r; reflexivity.
  - intros H. unfold handleSetZoom. rewrite (parseFloat_blank _ H). reflexivity.
Qed.

Lemma blank_inputs_rejected_witness :
  let vs := ViewState DEFAULT_CENTER (lit "  ") (lit "21") (of_Z 13) [] in
  (blank (lat vs) /\ blank (zoomInput vs))
  /\ handleSetCenter vs = (vs, Message error "Please enter valid coordinates")
  /\ handleSetZoom vs = (vs, Message error "Please enter a valid zoom level").
Proof.
  intros vs.
  assert (H1 : blank (lat vs)) by (repeat constructor).
  assert (H2 : blank (zoomInput vs)) by constructor.
  split; [split; assumption |]. split.
  - exact (proj1 (blank_inputs_rejected vs) (or_introl H1)).
  - exact (proj2 (blank_inputs_rejected vs) H2).
Defined.

(** X8.  Whatever is typed and pressed, the centre of the map stays a latitude
    between -90 and 90 with a longitude between -180 and 180, and the zoom
    stays between 1 and 20. *)
Theorem view_in_bounds (vs : view_state) :
  view_reachable vs ->
  between (-90) 90 (fst (center vs))
  /\ between (-180) 180 (snd (center vs))
  /\ between 1 20 (zoom vs).
Proof.
  induction 1 as [| vs vs' _ IH Hstep].
  - repeat split; reflexivity.
  - destruct Hstep as [vs s | vs s | vs s | vs | vs]; cbn [center zoom]; try exact IH.
    + pose proof (handleSetCenter_accepts vs) as [Hyes Hno].
      destruct (between_dec (-90) 90 (parseFloat (lat vs))) as [Hlat | Hlat];
        [destruct (between_dec (-180) 180 (parseFloat (lng vs))) as [Hlng | Hlng] |];
        [pose proof (conj Hlat Hlng) as Hin
        | assert (Hout : ~ (between (-90) 90 (parseFloat (lat vs))
                            /\ between (-180) 180 (parseFloat (lng vs)))) by tauto
        | assert (Hout : ~ (between (-90) 90 (parseFloat (lat vs))
                            /\ between (-180) 180 (parseFloat (lng vs)))) by tauto].
      * rewrite (Hyes Hin). cbn [fst snd center zoom]. tauto.
      * rewrite (proj1 (Hno Hout)). exact IH.
      * rewrite (proj1 (Hno Hout)). exact IH.
    + pose proof (handleSetZoom_accepts vs) as [Hyes Hno].
      destruct (between_dec 1 20 (parseFloat (zoomInput vs))) as [Hin | Hout].
      * rewrite (Hyes Hin). cbn [fst snd center zoom]. tauto.
      * rewrite (proj1 (Hno Hout)). exact IH.
Qed.

(** After typing the latitude 48.1 and pressing "Set center". *)
Lemma view_in_bounds_witness :
  let typed := ViewState DEFAULT_CENTER (lit "48.1") (lng initial_view)
                 (of_Z 13) (lit "13") in
  let vs := fst (handleSetCenter typed) in
  view_reachable vs
  /\ fst (center vs) = StringToNumber (lit "48.1")
  /\ between (-90) 90 (fst (center vs))
  /\ between (-180) 180 (snd (center vs))
  /\ between 1 20 (zoom vs).
Proof.
  intros typed vs.
  assert (H : view_reachable vs).
  { apply (view_next typed); [| apply press_center].
    apply (view_next initial_view); [apply view_start |].
    exact (type_lat initial_view (lit "48.1")). }
  split; [exact H |]. split; [reflexivity |]. exact (view_in_bounds vs H).
Defined.

(* ===================================================================== *)
(** * Trimming and splitting *)
(* ===================================================================== *)

Section Strings.

Lemma trimStart_head (s : jsstring) (c : code_unit) (r : jsstring) :
  trimStart s = c :: r -> is_white_space c = false.
Proof.
  induction s as [| d s IH]; cbn [trimStart]; [discriminate |].
  destruct (is_white_space d) eqn:E; [exact IH |].
  intros [= <- <-]. exact E.
Qed.

Lemma trimEnd_cons (c : code_unit) (r : jsstring) :
  is_white_space c = false -> trimEnd (c :: r) = c :: trimEnd r.
Proof.
  intros H. cbn [trimEnd]. rewrite H. destruct (trimEnd r); reflexivity.
Qed.

Lemma trimEnd_idem (s : jsstring) : trimEnd (trimEnd s) = trimEnd s.
Proof.
  induction s as [| c s IH]; [reflexivity |].
  cbn [trimEnd]. destruct (trimEnd s) as [| d r'] eqn:E.
  - destruct (is_white_space c) eqn:Ec; [reflexivity |].
    cbn [trimEnd]. rewrite Ec. reflexivity.
  - change (trimEnd (c :: d :: r')) with
      (match trimEnd (d :: r') with
       | [] => if is_white_space c then [] else [c]
       | x => c :: x
       end).
    rewrite IH. reflexivity.
Qed.

Lemma trim_idem (s : jsstring) : trim (trim s) = trim s.
Proof.
  unfold trim. destruct (trimStart s) as [| c r] eqn:E; [reflexivity |].
  pose proof (trimStart_head s c r E) as Hc.
  rewrite trimEnd_cons by exact Hc.
  cbn [trimStart]. rewrite Hc.
  rewrite <- trimEnd_cons by exact Hc. apply trimEnd_idem.
Qed.

Lemma trimStart_elem (s : jsstring) (x : code_unit) : x ∈ trimStart s -> x ∈ s.
Proof.
  induction s as [| c s IH]; cbn [trimStart]; [auto |].
  destruct (is_white_space c); [intros H; right; auto | auto].
Qed.

Lemma trimEnd_elem (s : jsstring) (x : code_unit) : x ∈ trimEnd s -> x ∈ s.
Proof.
  induction s as [| c s IH]; cbn [trimEnd]; [auto |].
  destruct (trimEnd s) as [| d r].
  - destruct (is_white_space c); intros H; [inversion H |].
    apply list_elem_of_singleton in H as ->. left.
  - intros H. apply elem_of_cons in H as [-> | H]; [left | right; auto].
Qed.

Lemma trim_elem (s : jsstring) (x : code_unit) : x ∈ trim s -> x ∈ s.
Proof. intros H. apply trimStart_elem, trimEnd_elem, H. Qed.

Lemma trimEnd_blank (w : jsstring) : blank w -> trimEnd w = [].
Proof.
  induction 1 as [| c w Hc _ IH]; [reflexivity |].
  cbn [trimEnd]. rewrite IH, Hc. reflexivity.
Qed.

Lemma trimEnd_app_blank (s w : jsstring) : blank w -> trimEnd (s ++ w) = trimEnd s.
Proof.
  intros Hw. induction s as [| c s IH]; [apply trimEnd_blank, Hw |].
  cbn [app trimEnd]. rewrite IH. reflexivity.
Qed.

Lemma trimStart_blank_app (w s : jsstring) : blank w -> trimStart (w ++ s) = trimStart s.
Proof.
  induction 1 as [| c w Hc _ IH]; [reflexivity |].
  cbn [app trimStart]. rewrite Hc. exact IH.
Qed.

Lemma trimStart_app (s w : jsstring) :
  blank w -> trimEnd (trimStart (s ++ w)) = trimEnd (trimStart s).
Proof.
  intros Hw. induction s as [| c s IH].
  - cbn [app trimStart]. rewrite (trimStart_blank w) by exact Hw. reflexivity.
  - cbn [app trimStart]. destruct (is_white_space c); [exact IH |].
    change (c :: s ++ w) with ((c :: s) ++ w). apply trimEnd_app_blank, Hw.
Qed.

(** White space around a text does not count. *)
Lemma trim_surrounded (w1 s w2 : jsstring) :
  blank w1 -> blank w2 -> trim (w1 ++ s ++ w2) = trim s.
Proof.
  intros H1 H2. unfold trim. rewrite trimStart_blank_app by exact H1.
  apply trimStart_app, H2.
Qed.

(** No piece of a split holds the separator. *)
Lemma split_on_pieces (sep : code_unit) (s p : jsstring) :
  p ∈ split_on sep s -> sep ∉ p.
Proof.
  revert p. induction s as [| c s IH]; intros p; cbn [split_on].
  - intros H. apply list_elem_of_singleton in H as ->. intros H; inversion H.
  - destruct (N.eqb_spec c sep) as [-> | Hne].
    + intros H. apply elem_of_cons in H as [-> | H]; [intros H; inversion H | auto].
    + destruct (split_on sep s) as [| q qs] eqn:E; cbn [cons_head].
      * intros H. apply list_elem_of_singleton in H as ->.
        intros H. apply list_elem_of_singleton in H. congruence.
      * intros H. apply elem_of_cons in H as [-> | H].
        -- intros H. apply elem_of_cons in H as [E' | H]; [congruence |].
           exact (IH q ltac:(left) H).
        -- apply IH. right. exact H.
Qed.

Lemma cons_head_elem (c : code_unit) (ps : list jsstring) (p : jsstring) :
  p ∈ cons_head c ps -> (exists q, p = c :: q /\ (q ∈ ps \/ (ps = [] /\ q = []))) \/ p ∈ ps.
Proof.
  destruct ps as [| q qs]; cbn [cons_head]; intros H.
  - apply list_elem_of_singleton in H as ->. left. exists []. auto.
  - apply elem_of_cons in H as [-> | H].
    + left. exists q. split; [reflexivity | left; left].
    + right. right. exact H.
Qed.

(** No line holds a line feed. *)
Lemma split_lines_pieces (s p : jsstring) : p ∈ split_lines s -> LF ∉ p.
Proof.
  remember (length s) as n eqn:Hn. revert s p Hn.
  induction n as [n IH] using lt_wf_ind. intros s p Hn.
  destruct s as [| c s]; cbn [split_lines].
  - intros H. apply list_elem_of_singleton in H as ->. intros H; inversion H.
  - destruct (N.eqb_spec c LF) as [-> | Hne].
    + intros H. apply elem_of_cons in H as [-> | H]; [intros H; inversion H |].
      apply (IH (length s)) with (s := s); [cbn in Hn; lia | reflexivity | exact H].
    + destruct s as [| d r].
      * intros H. apply list_elem_of_singleton in H as ->.
        intros H. apply list_elem_of_singleton in H. congruence.
      * destruct ((c =? CR) && (d =? LF))%N.
        -- intros H. apply elem_of_cons in H as [-> | H]; [intros H; inversion H |].
           apply (IH (length r)) with (s := r); [cbn in Hn; lia | reflexivity | exact H].
        -- intros H. apply cons_head_elem in H as [(q & -> & Hq) | H].
           ++ intros H. apply elem_of_cons in H as [E | H]; [congruence |].
              destruct Hq as [Hq | [_ ->]]; [| inversion H].
              exact (IH (length (d :: r)) ltac:(cbn in Hn |- *; lia) (d :: r) q eq_refl Hq H).
           ++ exact (IH (length (d :: r)) ltac:(cbn in Hn |- *; lia) (d :: r) p eq_refl H).
Qed.

End Strings.

(* ===================================================================== *)
(** * What holds of the datasets at all times *)
(* ===================================================================== *)

Section Invariants.

Lemma split_on_elem (sep : code_unit) (s p : jsstring) (x : code_unit) :
  p ∈ split_on sep s -> x ∈ p -> x ∈ s.
Proof.
  revert p. induction s as [| c s IH]; intros p; cbn [split_on].
  - intros H. apply list_elem_of_singleton in H as ->. auto.
  - destruct (c =? sep)%N.
    + intros H Hx. apply elem_of_cons in H as [-> | H]; [inversion Hx |].
      right. exact (IH p H Hx).
    + intros H Hx. apply cons_head_elem in H as [(q & -> & Hq) | H].
      * apply elem_of_cons in Hx as [-> | Hx]; [left |].
        right. destruct Hq as [Hq | [_ ->]]; [exact (IH q Hq Hx) | inversion Hx].
      * right. exact (IH p H Hx).
Qed.

(** The two outcomes of a table upload. *)
Lemma handleCsvUpload_cases (st : app_state) (text : jsstring) :
  fst (handleCsvUpload st text) = st
  \/ exists idIndex revenueIndex costIndex : nat,
       dataLines text <> []
       /\ fst (handleCsvUpload st text) =
            {| kmlData := kmlData st;
               csvRows := List.map (parse_row idIndex revenueIndex costIndex)
                            (dataLines text);
               selectedMetric := Revenue |}.
Proof.
  unfold handleCsvUpload. fold (lines_of text).
  destruct (Nat.ltb_spec (length (lines_of text)) 2) as [| Hlen]; [left; reflexivity |].
  fold (header_of text).
  destruct (indexOf (header_of text) (lit "id")) as [i |]; [| left; reflexivity].
  destruct (indexOf (header_of text) (lit "revenue")) as [r |]; [| left; reflexivity].
  destruct (indexOf (header_of text) (lit "cost")) as [c |]; [| left; reflexivity].
  right. exists i, r, c. split; [| reflexivity].
  unfold dataLines. intros E. apply (f_equal length) in E.
  rewrite length_drop in E. cbn in E. lia.
Qed.

(** The two outcomes of a document upload. *)
Lemma handleKmlUpload_cases (st : app_state) (placemarks : list placemark) (g : geojson) :
  fst (handleKmlUpload st placemarks g) = st
  \/ exists g' : geojson,
       add_ids placemarks g = Normal g' /\ has_features g' = true
       /\ fst (handleKmlUpload st placemarks g) =
            {| kmlData := Some g'; csvRows := csvRows st;
               selectedMetric := selectedMetric st |}.
Proof.
  unfold handleKmlUpload.
  destruct (add_ids placemarks g) as [g' |]; [| left; reflexivity].
  destruct (has_features g') eqn:E; [| left; reflexivity].
  right. exists g'. auto.
Qed.

(** The identifier of a parsed record is clean. *)
Lemma parse_row_clean (idIndex revenueIndex costIndex : nat) (text line i : jsstring) :
  line ∈ dataLines text ->
  id (parse_row idIndex revenueIndex costIndex line) = Some i -> clean i.
Proof.
  intros Hline. unfold parse_row, cells. cbn [id].
  rewrite list_lookup_fmap.
  destruct (split_on COMMA line !! idIndex) as [c |] eqn:E; [| discriminate].
  intros [= <-]. apply list_elem_of_lookup_2 in E.
  assert (HLF : LF ∉ line).
  { apply (split_lines_pieces (trim text)).
    unfold dataLines, lines_of in Hline.
    exact (subseteq_drop 1 _ line Hline). }
  split; [apply trim_idem |]. split.
  - intros H. apply trim_elem in H. exact (split_on_pieces COMMA line c E H).
  - intros H. apply trim_elem in H. exact (HLF (split_on_elem COMMA line c LF E H)).
Qed.

End Invariants.

(** X9.  At all times: a loaded collection has at least one feature; while no
    table has been loaded the selected metric is revenue; and the identifier
    of every record is trimmed and holds no comma and no line feed. *)
Theorem datasets_invariant (st : app_state) :
  reachable st ->
  (forall g : geojson, kmlData st = Some g -> has_features g = true)
  /\ (csvRows st = [] -> selectedMetric st = Revenue)
  /\ (forall (row : csvRow) (i : jsstring),
        row ∈ csvRows st -> id row = Some i -> clean i).
Proof.
  induction 1 as [| st st' _ IH Hstep].
  - split; [discriminate |]. split; [reflexivity |].
    intros row i Hrow. inversion Hrow.
  - destruct IH as (Ik & Im & Ir).
    destruct Hstep as [st placemarks g | st text | st Hk | st m Hrows].
    + destruct (handleKmlUpload_cases st placemarks g) as [-> | (g' & _ & Hg' & ->)];
        [auto |].
      cbn [kmlData csvRows selectedMetric]. split; [| auto].
      intros g0 [= <-]. exact Hg'.
    + destruct (handleCsvUpload_cases st text) as [-> | (i & r & c & Hne & ->)];
        [auto |].
      cbn [kmlData csvRows selectedMetric]. split; [exact Ik |].
      split; [reflexivity |].
      intros row j Hrow Hid.
      apply list_elem_of_In, List.in_map_iff in Hrow as (line & <- & Hline).
      apply list_elem_of_In in Hline.
      exact (parse_row_clean i r c text line j Hline Hid).
    + cbn [kmlData csvRows selectedMetric]. split; [discriminate | auto].
    + cbn [kmlData csvRows selectedMetric]. split; [exact Ik |].
      split; [contradiction | exact Ir].
Qed.

(** After both uploads of the scenario, a change of metric and "Clear
    KML". *)
Lemma datasets_invariant_witness :
  let st := Scenario.loaded VUndefined VUndefined in
  let st' := AppState None (csvRows st) Cost in
  reachable st'
  /\ (forall (row : csvRow) (i : jsstring),
        row ∈ csvRows st' -> id row = Some i -> clean i).
Proof.
  intros st st'.
  assert (H : reachable st').
  { apply (next (AppState (kmlData st) (csvRows st) Cost)).
    - apply (next st).
      + apply (next (fst (handleKmlUpload Scenario.initial Scenario.placemarks
                            (Scenario.collection VUndefined VUndefined)))).
        * apply (next Scenario.initial); [apply start | apply upload_kml].
        * apply upload_csv.
      + apply (select_metric st Cost). vm_compute. discriminate.
    - apply (clear_kml (AppState (kmlData st) (csvRows st) Cost)).
      vm_compute. discriminate. }
  split; [exact H |]. exact (proj2 (proj2 (datasets_invariant st' H))).
Defined.

(** X10.  At all times a feature is matched only through an identifier that is
    trimmed and free of commas: one that starts or ends with white space
    is never matched with a record. *)
Theorem untrimmed_identifier_unmatched (st : app_state) (f : option feature)
    (row : csvRow) :
  reachable st ->
  csvRowOf (csvRows st) (featureId f) = Some row ->
  exists i : jsstring, featureId f = VString i /\ id row = Some i /\ clean i.
Proof.
  intros Hreach Hrow.
  destruct (csvRowOf_Some _ _ _ Hrow) as (i & Hf & _ & Hid & Hin).
  exists i. split; [exact Hf |]. split; [exact Hid |].
  exact (proj2 (proj2 (datasets_invariant st Hreach)) row i Hin Hid).
Qed.

Lemma untrimmed_identifier_unmatched_witness :
  let st := Scenario.loaded VUndefined VUndefined in
  let f := Some (Feature (VString (lit "S1")) None) in
  let row := CsvRow (Some (lit "S1")) (StringToNumber (lit "100"))
               (StringToNumber (lit "40")) in
  (reachable st /\ csvRowOf (csvRows st) (featureId f) = Some row)
  /\ exists i : jsstring, featureId f = VString i /\ id row = Some i /\ clean i.
Proof.
  intros st f row.
  assert (H : reachable st).
  { apply (next (fst (handleKmlUpload Scenario.initial Scenario.placemarks
                        (Scenario.collection VUndefined VUndefined)))).
    - apply (next Scenario.initial); [apply start | apply upload_kml].
    - apply upload_csv. }
  assert (Hrow : csvRowOf (csvRows st) (featureId f) = Some row)
    by (vm_compute; reflexivity).
  split; [split; assumption |].
  exact (untrimmed_identifier_unmatched st f row H Hrow).
Defined.

(** X11.  Once a table is loaded there are rows for good: no step empties them. *)
Theorem rows_stay (st st' : app_state) :
  step st st' -> csvRows st <> [] -> csvRows st' <> [].
Proof.
  intros Hstep Hne.
  destruct Hstep as [st placemarks g | st text | st Hk | st m Hrows]; try exact Hne.
  - destruct (handleKmlUpload_cases st placemarks g) as [-> | (g' & _ & _ & ->)];
      exact Hne.
  - destruct (handleCsvUpload_cases st text) as [-> | (i & r & c & Hd & ->)];
      [exact Hne |].
    cbn [csvRows]. intros E. apply Hd. destruct (dataLines text); [reflexivity | discriminate].
Qed.

Lemma rows_stay_witness :
  let st := Scenario.loaded VUndefined VUndefined in
  let st' := fst (handleCsvUpload st (lit "id,revenue,cost")) in
  (step st st' /\ csvRows st <> []) /\ csvRows st' <> [].
Proof.
  intros st st'.
  assert (H1 : step st st') by apply upload_csv.
  assert (H2 : csvRows st <> []) by (vm_compute; discriminate).
  split; [split; assumption |]. exact (rows_stay st st' H1 H2).
Defined.

(* ===================================================================== *)
(** * What the identifier extraction keeps *)
(* ===================================================================== *)

Section Kept.

Lemma store_id_other (i : value) (f : feature) (k : jsstring) :
  k <> lit "id" -> k <> lit "placemarkId" ->
  f_properties (store_id i f) ≫= (fun o => o !! k)
  = f_properties f ≫= (fun o => o !! k).
Proof.
  intros H1 H2. unfold store_id. destruct (truthy i); [| reflexivity].
  cbn [f_properties mbind option_bind].
  rewrite lookup_insert_ne by congruence. rewrite lookup_insert_ne by congruence.
  destruct (f_properties f); [reflexivity | apply lookup_empty].
Qed.

Lemma preserve_id_properties (f : feature) :
  f_properties (preserve_id f) = f_properties f.
Proof. unfold preserve_id. destruct (_ && _); reflexivity. Qed.

Lemma get_opt_bind (o : option object) (key : string) :
  get_opt o key = default VUndefined (o ≫= (fun o' => o' !! lit key)).
Proof. destruct o; reflexivity. Qed.

Lemma get_opt_store_other (i : value) (f : feature) (key : string) :
  lit key <> lit "id" -> lit key <> lit "placemarkId" ->
  get_opt (f_properties (store_id i f)) key = get_opt (f_properties f) key.
Proof.
  intros H1 H2. rewrite !get_opt_bind, (store_id_other i f (lit key) H1 H2).
  reflexivity.
Qed.

Lemma display_name_add_id (i : value) (f : feature) :
  display_name (preserve_id (store_id i f)) = display_name f.
Proof.
  unfold display_name. rewrite preserve_id_properties.
  rewrite !get_opt_store_other by (vm_compute; discriminate). reflexivity.
Qed.

(** The body's result: the identifier it has resolved, stored and
    preserved. *)
Lemma add_id_Normal (data : list placemarkDatum) (names : gmap jsstring jsstring)
    (index : nat) (f f' : feature) :
  add_id data names index f = Normal f' ->
  exists i : value,
    resolve_id data names index f = Normal i /\ f' = preserve_id (store_id i f).
Proof.
  unfold add_id, bind. destruct (resolve_id data names index f) as [i |];
    [| discriminate].
  intros [= <-]. exists i. auto.
Qed.

Lemma store_id_keeps (i : value) (f : feature) :
  truthy (f_id f) = true -> truthy (f_id (store_id i f)) = true.
Proof.
  intros H. unfold store_id. destruct (truthy i) eqn:E; [exact E | exact H].
Qed.

Lemma preserve_id_keeps (f : feature) :
  truthy (f_id f) = true -> preserve_id f = f.
Proof. intros H. unfold preserve_id. rewrite H. reflexivity. Qed.

Lemma preserve_id_promoted (f : feature) :
  truthy (get_opt (f_properties (preserve_id f)) "id") = true ->
  truthy (f_id (preserve_id f)) = true.
Proof.
  unfold preserve_id.
  destruct (truthy (f_id f)) eqn:E1; cbn [negb andb]; [intros _; exact E1 |].
  destruct (truthy (get_opt (f_properties f) "id")) eqn:E2; cbn [f_id f_properties].
  - intros _. exact E2.
  - congruence.
Qed.

(** Storing the same identifier twice is storing it once. *)
Lemma store_id_idem (i : value) (f : feature) :
  store_id i (store_id i f) = store_id i f.
Proof.
  unfold store_id. destruct (truthy i) eqn:E; [| reflexivity].
  cbn [f_id f_properties default from_option Datatypes.id]. f_equal. f_equal.
  apply map_eq. intros k.
  destruct (decide (k = lit "placemarkId")) as [-> | H1].
  - rewrite !lookup_insert_eq. reflexivity.
  - rewrite !(lookup_insert_ne _ (lit "placemarkId")) by congruence.
    destruct (decide (k = lit "id")) as [-> | H2].
    + rewrite !lookup_insert_eq. reflexivity.
    + rewrite !(lookup_insert_ne _ (lit "id")) by congruence.
      rewrite ?(lookup_insert_ne _ (lit "placemarkId")) by congruence.
      rewrite ?(lookup_insert_ne _ (lit "id")) by congruence. reflexivity.
Qed.

Lemma preserve_id_idem (f : feature) : preserve_id (preserve_id f) = preserve_id f.
Proof.
  destruct (truthy (f_id f)) eqn:E1.
  - rewrite (preserve_id_keeps f E1). apply preserve_id_keeps, E1.
  - destruct (truthy (get_opt (f_properties f) "id")) eqn:E2.
    + apply preserve_id_keeps. unfold preserve_id. rewrite E1, E2. exact E2.
    + assert (H : preserve_id f = f)
        by (unfold preserve_id; rewrite E1, E2; reflexivity).
      rewrite H. exact H.
Qed.

Lemma add_step_idem (i : value) (f : feature) :
  preserve_id (store_id i (preserve_id (store_id i f))) = preserve_id (store_id i f).
Proof.
  destruct (truthy i) eqn:E.
  - assert (H : truthy (f_id (store_id i f)) = true)
      by (unfold store_id; rewrite E; exact E).
    rewrite (preserve_id_keeps _ H), store_id_idem. apply preserve_id_keeps, H.
  - assert (H : forall g, store_id i g = g) by (intros g; unfold store_id; rewrite E; reflexivity).
    rewrite !H. apply preserve_id_idem.
Qed.

Lemma resolve_id_add_id (data : list placemarkDatum) (names : gmap jsstring jsstring)
    (index : nat) (i : value) (f : feature) :
  resolve_id data names index (preserve_id (store_id i f))
  = resolve_id data names index f.
Proof. unfold resolve_id. rewrite display_name_add_id. reflexivity. Qed.

Lemma add_id_idem (data : list placemarkDatum) (names : gmap jsstring jsstring)
    (index : nat) (f f' : feature) :
  add_id data names index f = Normal f' -> add_id data names index f' = Normal f'.
Proof.
  intros H. apply add_id_Normal in H as (i & Hi & ->).
  unfold add_id. rewrite resolve_id_add_id, Hi. cbn [bind].
  rewrite add_step_idem. reflexivity.
Qed.

Lemma forEach_idem (body : nat -> feature -> completion feature)
    (fs fs' : list feature) (start : nat) :
  (forall (i : nat) (f f' : feature), body i f = Normal f' -> body i f' = Normal f') ->
  forEach body start fs = Normal fs' -> forEach body start fs' = Normal fs'.
Proof.
  intros Hb. revert fs' start. induction fs as [| g gs IH]; intros fs' start Hrun.
  - injection Hrun as <-. reflexivity.
  - cbn [forEach] in Hrun. unfold bind in Hrun.
    destruct (body start g) as [g' |] eqn:Eg; [| discriminate].
    destruct (forEach body (S start) gs) as [rest |] eqn:Er; [| discriminate].
    injection Hrun as <-. cbn [forEach]. rewrite (Hb _ _ _ Eg). cbn [bind].
    rewrite (IH rest (S start) Er). reflexivity.
Qed.

(** The loop throws exactly when the body throws on some feature. *)
Lemma forEach_Throw (body : nat -> feature -> completion feature)
    (fs : list feature) (start : nat) :
  forEach body start fs = Throw <->
  exists (i : nat) (f : feature), fs !! i = Some f /\ body (start + i)%nat f = Throw.
Proof.
  revert start. induction fs as [| g gs IH]; intros start; cbn [forEach].
  - split; [discriminate | intros (i & f & H & _); discriminate].
  - unfold bind. destruct (body start g) as [g' |] eqn:Eg.
    + destruct (forEach body (S start) gs) as [rest |] eqn:Er.
      * split; [discriminate |]. intros (i & f & Hi & Hb).
        destruct i as [| i]; [injection Hi as <-; rewrite Nat.add_0_r in Hb; congruence |].
        assert (forEach body (S start) gs = Throw); [| congruence].
        apply IH. exists i, f. split; [exact Hi |].
        replace (S start + i)%nat with (start + S i)%nat by lia. exact Hb.
      * split; [intros _ | reflexivity].
        apply IH in Er as (i & f & Hi & Hb). exists (S i), f. split; [exact Hi |].
        replace (start + S i)%nat with (S start + i)%nat by lia. exact Hb.
    + split; [intros _ | reflexivity].
      exists 0%nat, g. split; [reflexivity | rewrite Nat.add_0_r; exact Eg].
Qed.

End Kept.

(* ===================================================================== *)
(** * The published collection *)
(* ===================================================================== *)

Section Published.

(** A run of [add_ids] on a collection with features is the loop. *)
Lemma add_ids_run (placemarks : list placemark) (g g' : geojson) :
  add_ids placemarks g = Normal g' -> has_features g = true ->
  exists fs fs' : list feature,
    features g = Some fs /\ g' = GeoJson (Some fs')
    /\ forEach (add_id (placemarkData placemarks)
                  (nameToIdMap (placemarkData placemarks))) 0 fs = Normal fs'.
Proof.
  unfold add_ids. intros H Hf. rewrite Hf in H. unfold bind in H.
  unfold has_features in Hf. destruct (features g) as [fs |] eqn:E; [| discriminate].
  cbn [default from_option Datatypes.id] in H.
  destruct (forEach _ 0 fs) as [fs' |] eqn:Er; [| discriminate].
  injection H as <-. exists fs, fs'. auto.
Qed.

Lemma add_ids_has_features (placemarks : list placemark) (g g' : geojson) :
  add_ids placemarks g = Normal g' -> has_features g' = has_features g.
Proof.
  intros H. destruct (has_features g) eqn:Hf.
  - destruct (add_ids_run _ _ _ H Hf) as (fs & fs' & E & -> & Hrun).
    unfold has_features in *. rewrite E in Hf. cbn [features].
    rewrite (forEach_length _ _ _ _ Hrun). exact Hf.
  - unfold add_ids in H. rewrite Hf in H. injection H as <-. exact Hf.
Qed.

Lemma add_ids_elem (placemarks : list placemark) (g g' : geojson)
    (fs' : list feature) (f' : feature) :
  add_ids placemarks g = Normal g' -> has_features g' = true ->
  features g' = Some fs' -> f' ∈ fs' ->
  exists (i : value) (f : feature), f' = preserve_id (store_id i f).
Proof.
  intros H Hf' E' Hin.
  rewrite (add_ids_has_features _ _ _ H) in Hf'.
  destruct (add_ids_run _ _ _ H Hf') as (fs & out & E & -> & Hrun).
  cbn [features] in E'. injection E' as <-.
  apply list_elem_of_lookup in Hin as [n Hn].
  assert (Hlt : (n < length fs)%nat).
  { rewrite <- (forEach_length _ _ _ _ Hrun). eapply lookup_lt_Some, Hn. }
  apply lookup_lt_is_Some in Hlt as [f Hf].
  destruct (forEach_lookup _ _ _ 0 n f Hrun Hf) as (f0 & Hb & Hout).
  assert (f0 = f') as -> by congruence.
  apply add_id_Normal in Hb as (i & _ & ->). exists i, f. reflexivity.
Qed.

End Published.

(** X12.  A successful extraction returns as many features as it was given, in
    the same order; each keeps all its properties but [id] and
    [placemarkId], keeps having an identifier if it had one, and has a
    top-level [id] whenever it has a truthy [properties.id]. *)
Theorem extraction_keeps (placemarks : list placemark) (fs fs' : list feature) :
  add_ids placemarks (GeoJson (Some fs)) = Normal (GeoJson (Some fs')) ->
  length fs' = length fs
  /\ forall (n : nat) (f : feature),
       fs !! n = Some f ->
       exists f' : feature,
         fs' !! n = Some f'
         /\ (forall k : jsstring,
               k <> lit "id" -> k <> lit "placemarkId" ->
               f_properties f' ≫= (fun o => o !! k)
               = f_properties f ≫= (fun o => o !! k))
         /\ (truthy (f_id f) = true -> truthy (f_id f') = true)
         /\ (truthy (get_opt (f_properties f') "id") = true ->
             truthy (f_id f') = true).
Proof.
  intros Hrun. split.
  - destruct fs as [| g gs].
    + unfold add_ids, has_features in Hrun. cbn in Hrun. congruence.
    + destruct (add_ids_run _ _ _ Hrun eq_refl) as (a & b & Ea & Eb & Hloop).
      cbn [features] in Ea. injection Ea as <-. injection Eb as <-.
      exact (forEach_length _ _ _ _ Hloop).
  - intros n f Hn.
    destruct (add_ids_lookup _ _ _ _ _ Hrun Hn) as (f' & Hb & Hout).
    exists f'. split; [exact Hout |].
    apply add_id_Normal in Hb as (i & _ & ->).
    split; [| split].
    + intros k H1 H2. rewrite preserve_id_properties. apply store_id_other; assumption.
    + intros H. rewrite preserve_id_keeps by (apply store_id_keeps, H).
      apply store_id_keeps, H.
    + apply preserve_id_promoted.
Qed.

(** A feature with a style property and an identifier in [properties.id]
    only, after a document without placemark identifiers. *)
Lemma extraction_keeps_witness :
  let f := Feature VUndefined
             (Some (<[lit "fill" := VString (lit "#ff0000")]>
                      {[ lit "id" := VString (lit "Z9") ]})) in
  let f' := Feature (VString (lit "Z9")) (f_properties f) in
  add_ids [Placemark None None] (GeoJson (Some [f])) = Normal (GeoJson (Some [f']))
  /\ length [f'] = length [f]
  /\ f_properties f' ≫= (fun o => o !! lit "fill") = Some (VString (lit "#ff0000")).
Proof.
  intros f f'.
  assert (H : add_ids [Placemark None None] (GeoJson (Some [f]))
              = Normal (GeoJson (Some [f']))) by (vm_compute; reflexivity).
  destruct (extraction_keeps _ _ _ H) as (Hlen & Hall).
  split; [exact H |]. split; [exact Hlen |].
  destruct (Hall 0%nat f eq_refl) as (f0 & Hf0 & Hk & _).
  injection Hf0 as <-.
  rewrite (Hk (lit "fill")) by (vm_compute; discriminate). reflexivity.
Defined.

(** X13.  The extraction throws, and the upload fails as malformed without
    touching the state, exactly when the collection has a feature without
    positional identifier whose display name, [properties.name] or else
    [properties.Name], is truthy and not a String. *)
Theorem extraction_throws (st : app_state) (placemarks : list placemark)
    (g : geojson) :
  (add_ids placemarks g = Throw <->
   exists (fs : list feature) (n : nat) (f : feature),
     features g = Some fs /\ fs !! n = Some f
     /\ placemarkData placemarks !! n = None
     /\ forall s : jsstring, display_name f <> VString s)
  /\ (add_ids placemarks g = Throw ->
      handleKmlUpload st placemarks g =
        (st, Message error "Failed to parse KML file. Please check the file format.")).
Proof.
  split; [| intros H; unfold handleKmlUpload; rewrite H; reflexivity].
  assert (Hbody : forall n f,
    add_id (placemarkData placemarks) (nameToIdMap (placemarkData placemarks)) n f
      = Throw <->
    placemarkData placemarks !! n = None /\ forall s, display_name f <> VString s).
  { intros n f. unfold add_id, resolve_id.
    pose proof (no_positional_identifier placemarks n) as Hpos.
    destruct (truthy _) eqn:Et; cbn [negb].
    - cbn [bind]. split; [discriminate |]. intros [Hn _].
      apply Hpos in Hn. discriminate.
    - assert (Hn : placemarkData placemarks !! n = None) by (apply Hpos; reflexivity).
      destruct (display_name f) as [| | | | s |] eqn:Ed; cbn [trim_method bind];
        try (split; [intros _; split; [exact Hn | intros s; discriminate] | reflexivity]).
      split; [discriminate |]. intros [_ H]. exfalso. exact (H s eq_refl). }
  unfold add_ids. destruct (has_features g) eqn:Hf.
  - unfold has_features in Hf. destruct (features g) as [fs |] eqn:E; [| discriminate].
    cbn [default from_option Datatypes.id]. unfold bind at 1.
    destruct (forEach _ 0 fs) as [out |] eqn:Er.
    + split; [discriminate |]. intros (fs0 & n & f & E0 & Hn & Hb).
      injection E0 as <-.
      assert (forEach (add_id (placemarkData placemarks)
                         (nameToIdMap (placemarkData placemarks))) 0 fs = Throw);
        [| congruence].
      apply forEach_Throw. exists n, f. split; [exact Hn |]. apply Hbody. exact Hb.
    + split; [intros _ | reflexivity].
      apply forEach_Throw in Er as (n & f & Hn & Hb).
      exists fs, n, f. split; [reflexivity |]. split; [exact Hn |].
      apply Hbody. exact Hb.
  - split; [discriminate |]. intros (fs & n & f & E & Hn & _).
    unfold has_features in Hf. rewrite E in Hf.
    destruct fs; [discriminate | discriminate].
Qed.

(** A feature whose name is the number 7, in a document without placemark
    identifiers: the upload fails and the loaded datasets stay. *)
Lemma extraction_throws_witness :
  let st := Scenario.loaded VUndefined VUndefined in
  let f := Feature VUndefined (Some {[ lit "name" := VNumber (of_Z 7) ]}) in
  let g := GeoJson (Some [f]) in
  add_ids [] g = Throw
  /\ handleKmlUpload st [] g =
       (st, Message error "Failed to parse KML file. Please check the file format.").
Proof.
  intros st f g.
  destruct (extraction_throws st [] g) as [Hiff Hfail].
  assert (H : add_ids [] g = Throw).
  { apply Hiff. exists [f], 0%nat, f. repeat split. intros s. vm_compute. discriminate. }
  split; [exact H | exact (Hfail H)].
Defined.

(** X14.  Running the extraction again on its own result, with the same
    placemarks, changes nothing. *)
Theorem extraction_idempotent (placemarks : list placemark) (g g' : geojson) :
  add_ids placemarks g = Normal g' -> add_ids placemarks g' = Normal g'.
Proof.
  intros H. pose proof (add_ids_has_features _ _ _ H) as Hf.
  destruct (has_features g) eqn:E.
  - destruct (add_ids_run _ _ _ H E) as (fs & fs' & _ & -> & Hrun).
    unfold add_ids. rewrite Hf. cbn [features default from_option Datatypes.id].
    rewrite (forEach_idem _ fs fs' 0); [reflexivity | | exact Hrun].
    intros i f f'. apply add_id_idem.
  - unfold add_ids in H |- *. rewrite E in H. injection H as <-. rewrite E. reflexivity.
Qed.

Lemma extraction_idempotent_witness :
  let g' := GeoJson (Some [Feature (VString (lit "S2")) (Some (Scenario.stored "North" "S2"));
                           Feature (VString (lit "S1")) (Some (Scenario.stored "South" "S1"))]) in
  add_ids Scenario.placemarks (Scenario.collection VUndefined VUndefined) = Normal g'
  /\ add_ids Scenario.placemarks g' = Normal g'.
Proof.
  intros g'.
  assert (H : add_ids Scenario.placemarks (Scenario.collection VUndefined VUndefined)
              = Normal g') by (vm_compute; reflexivity).
  split; [exact H | exact (extraction_idempotent _ _ _ H)].
Defined.

(** X15.  At all times, a feature of the loaded collection that has a truthy
    [properties.id] has a top-level [id], and this is the identifier the
    join reads. *)
Theorem published_identifier (st : app_state) (g : geojson)
    (fs : list feature) (f : feature) :
  reachable st ->
  kmlData st = Some g -> features g = Some fs -> f ∈ fs ->
  truthy (get_opt (f_properties f) "id") = true ->
  truthy (f_id f) = true /\ featureId (Some f) = f_id f.
Proof.
  intros Hreach. revert g fs f.
  assert (Hinv : forall g fs f, kmlData st = Some g -> features g = Some fs ->
                   f ∈ fs -> truthy (get_opt (f_properties f) "id") = true ->
                   truthy (f_id f) = true).
  { induction Hreach as [| st st' _ IH Hstep]; [discriminate |].
    destruct Hstep as [st placemarks g0 | st text | st Hk | st m Hrows].
    - destruct (handleKmlUpload_cases st placemarks g0) as [-> | (g' & Hadd & Hg' & ->)];
        [exact IH |].
      cbn [kmlData]. intros g fs f [= <-] Efs Hin.
      destruct (add_ids_elem _ _ _ _ _ Hadd Hg' Efs Hin) as (i & f0 & ->).
      apply preserve_id_promoted.
    - destruct (handleCsvUpload_cases st text) as [-> | (i & r & c & _ & ->)];
        exact IH.
    - cbn [kmlData]. discriminate.
    - exact IH. }
  intros g fs f Hk Efs Hin Hp. pose proof (Hinv g fs f Hk Efs Hin Hp) as Ht.
  split; [exact Ht |].
  unfold featureId. cbn [from_option]. unfold or_else. rewrite Ht. cbn.
  rewrite Ht. rewrite Ht. reflexivity.
Qed.

(** The second feature of the scenario once both datasets are loaded. *)
Lemma published_identifier_witness :
  let st := Scenario.loaded VUndefined VUndefined in
  let f := Feature (VString (lit "S1")) (Some (Scenario.stored "South" "S1")) in
  reachable st /\ featureId (Some f) = f_id f.
Proof.
  intros st f.
  assert (H : reachable st).
  { apply (next (fst (handleKmlUpload Scenario.initial Scenario.placemarks
                        (Scenario.collection VUndefined VUndefined)))).
    - apply (next Scenario.initial); [apply start | apply upload_kml].
    - apply upload_csv. }
  split; [exact H |].
  refine (proj2 (published_identifier st
            (GeoJson (Some [Feature (VString (lit "S2")) (Some (Scenario.stored "North" "S2")); f]))
            [Feature (VString (lit "S2")) (Some (Scenario.stored "North" "S2")); f]
            f H _ eq_refl _ _)).
  - vm_compute. reflexivity.
  - right. left.
  - vm_compute. reflexivity.
Defined.

(* ===================================================================== *)
(** * Line ends, white space and the order of the uploads *)
(* ===================================================================== *)

Section LineEnds.

Lemma crlf_nonempty (c : code_unit) (r : jsstring) : crlf (c :: r) <> [].
Proof. cbn [crlf]. destruct (c =? LF)%N; discriminate. Qed.

Lemma trimStart_crlf (s : jsstring) : trimStart (crlf s) = crlf (trimStart s).
Proof.
  induction s as [| c s IH]; [reflexivity |].
  cbn [crlf trimStart]. destruct (N.eqb_spec c LF) as [-> | Hc].
  - cbn. exact IH.
  - cbn [trimStart]. destruct (is_white_space c); [exact IH |].
    cbn [crlf]. destruct (N.eqb_spec c LF); [contradiction | reflexivity].
Qed.

Lemma trimEnd_crlf (s : jsstring) : trimEnd (crlf s) = crlf (trimEnd s).
Proof.
  induction s as [| c s IH]; [reflexivity |].
  cbn [crlf]. destruct (N.eqb_spec c LF) as [-> | Hc].
  - cbn [trimEnd]. rewrite IH. destruct (trimEnd s) as [| d r] eqn:E.
    + reflexivity.
    + pose proof (crlf_nonempty d r) as Hne.
      destruct (crlf (d :: r)) as [| d' r'] eqn:E'; [contradiction |].
      rewrite <- E'. cbn [crlf]. reflexivity.
  - cbn [trimEnd]. rewrite IH. destruct (trimEnd s) as [| d r] eqn:E.
    + cbn [crlf]. destruct (is_white_space c); [reflexivity |].
      cbn [crlf]. destruct (N.eqb_spec c LF); [contradiction | reflexivity].
    + pose proof (crlf_nonempty d r) as Hne.
      destruct (crlf (d :: r)) as [| d' r'] eqn:E'; [contradiction |].
      rewrite <- E'. cbn [crlf].
      destruct (N.eqb_spec c LF); [contradiction | reflexivity].
Qed.

Lemma trim_crlf (s : jsstring) : trim (crlf s) = crlf (trim s).
Proof. unfold trim. rewrite trimStart_crlf. apply trimEnd_crlf. Qed.

Lemma same_line_cons_head (c : code_unit) (xs ys : list jsstring) :
  xs <> [] -> Forall2 same_line xs ys ->
  Forall2 same_line (cons_head c xs) (cons_head c ys).
Proof.
  intros Hne H. destruct H as [| a b xs ys Hab H]; [contradiction |].
  cbn [cons_head]. constructor; [| exact H].
  destruct Hab as [-> | ->]; [left | right]; reflexivity.
Qed.

Lemma split_lines_nonempty (s : jsstring) : split_lines s <> [].
Proof.
  destruct s as [| c r]; cbn [split_lines]; [discriminate |].
  destruct (c =? LF)%N; [discriminate |].
  destruct r as [| d r']; [discriminate |].
  destruct ((c =? CR) && (d =? LF))%N; [discriminate |].
  destruct (split_lines (d :: r')); discriminate.
Qed.

Lemma split_on_nonempty (sep : code_unit) (s : jsstring) : split_on sep s <> [].
Proof.
  destruct s as [| c r]; cbn [split_on]; [discriminate |].
  destruct (c =? sep)%N; [discriminate |].
  destruct (split_on sep r); discriminate.
Qed.

(** The lines of a text with Windows line ends are those of the text, up
    to a carriage return at the end of a line. *)
Lemma split_lines_crlf (s : jsstring) :
  Forall2 same_line (split_lines (crlf s)) (split_lines s).
Proof.
  remember (length s) as n eqn:Hn.
  assert (Hle : (length s <= n)%nat) by lia. clear Hn.
  revert s Hle. induction n as [| n IH]; intros s Hle.
  - destruct s; [| cbn in Hle; lia]. cbn. constructor; [left; reflexivity | constructor].
  - destruct s as [| c r].
    { cbn. constructor; [left; reflexivity | constructor]. }
    cbn [length] in Hle.
    cbn [crlf]. destruct (N.eqb_spec c LF) as [-> | Hc].
    + cbn. constructor; [left; reflexivity |]. apply IH. lia.
    + destruct r as [| d r'].
      { cbn [crlf split_lines]. destruct (N.eqb_spec c LF); [contradiction |].
        constructor; [left; reflexivity | constructor]. }
      cbn [length] in Hle.
      destruct (N.eqb_spec d LF) as [-> | Hd].
      * cbn [crlf]. cbn [N.eqb LF Pos.eqb]. change (10 =? 10)%N with true.
        cbn [split_lines]. destruct (N.eqb_spec c LF); [contradiction |].
        change (CR =? LF)%N with false. change (CR =? CR)%N with true.
        change (LF =? LF)%N with true. rewrite andb_false_r. cbn [andb].
        destruct (N.eqb_spec c CR) as [-> | Hcr]; cbn [andb cons_head].
        -- constructor; [right; reflexivity |]. apply IH. lia.
        -- constructor; [left; reflexivity |]. apply IH. lia.
      * assert (Hstep : split_lines (c :: crlf (d :: r'))
                        = cons_head c (split_lines (crlf (d :: r')))).
        { cbn [crlf]. destruct (N.eqb_spec d LF); [contradiction |].
          cbn [split_lines]. destruct (N.eqb_spec c LF); [contradiction |].
          destruct (N.eqb_spec d LF); [contradiction |].
          rewrite andb_false_r. reflexivity. }
        rewrite Hstep.
        assert (Hs : split_lines (c :: d :: r') = cons_head c (split_lines (d :: r'))).
        { cbn [split_lines]. destruct (N.eqb_spec c LF); [contradiction |].
          destruct (N.eqb_spec d LF); [contradiction |].
          rewrite andb_false_r. reflexivity. }
        rewrite Hs. apply same_line_cons_head; [apply split_lines_nonempty |].
        apply IH. cbn [length]. lia.
Qed.

Lemma split_on_CR (b : jsstring) :
  Forall2 same_line (split_on COMMA (b ++ [CR])) (split_on COMMA b).
Proof.
  induction b as [| c b IH].
  - cbn. constructor; [right; reflexivity | constructor].
  - cbn [app split_on]. destruct (c =? COMMA)%N.
    + constructor; [left; reflexivity | exact IH].
    + apply same_line_cons_head; [apply split_on_nonempty | exact IH].
Qed.

Lemma trim_same_line (a b : jsstring) : same_line a b -> trim a = trim b.
Proof.
  intros [-> | ->]; [reflexivity |].
  apply (trim_surrounded [] b [CR]); [constructor |].
  constructor; [reflexivity | constructor].
Qed.

Lemma cells_same_line (a b : jsstring) : same_line a b -> cells a = cells b.
Proof.
  intros [-> | ->]; [reflexivity |]. unfold cells.
  pose proof (split_on_CR b) as H.
  induction H as [| p q ps qs Hpq _ IH]; [reflexivity |].
  cbn [List.map]. rewrite (trim_same_line p q Hpq), IH. reflexivity.
Qed.

Lemma parse_rows_same_line (i r c : nat) (xs ys : list jsstring) :
  Forall2 same_line xs ys ->
  List.map (parse_row i r c) xs = List.map (parse_row i r c) ys.
Proof.
  induction 1 as [| a b xs ys Hab _ IH]; [reflexivity |].
  cbn [List.map]. rewrite IH. unfold parse_row.
  rewrite (cells_same_line a b Hab). reflexivity.
Qed.

(** The handler reads the text through its lines only, and the lines
    through their cells. *)
Lemma handleCsvUpload_lines (st : app_state) (t t' : jsstring) :
  Forall2 same_line (split_lines (trim t)) (split_lines (trim t')) ->
  handleCsvUpload st t = handleCsvUpload st t'.
Proof.
  intros H. unfold handleCsvUpload.
  rewrite (Forall2_length _ _ _ H).
  assert (Hh : cells (default [] (head (split_lines (trim t))))
               = cells (default [] (head (split_lines (trim t'))))).
  { destruct H as [| a b xs ys Hab _]; [reflexivity |].
    cbn [head default from_option Datatypes.id]. apply cells_same_line, Hab. }
  rewrite Hh.
  assert (Hd : forall i r c,
            List.map (parse_row i r c) (drop 1 (split_lines (trim t)))
            = List.map (parse_row i r c) (drop 1 (split_lines (trim t')))).
  { intros i r c. apply parse_rows_same_line.
    destruct H as [| a b xs ys _ H]; [constructor | exact H]. }
  destruct (length (split_lines (trim t')) <? 2)%nat; [reflexivity |].
  destruct (indexOf _ (lit "id")) as [i |]; [| reflexivity].
  destruct (indexOf _ (lit "revenue")) as [r |]; [| reflexivity].
  destruct (indexOf _ (lit "cost")) as [c |]; [| reflexivity].
  rewrite Hd. reflexivity.
Qed.

Lemma same_line_refl (xs : list jsstring) : Forall2 same_line xs xs.
Proof. induction xs; constructor; [left; reflexivity | assumption]. Qed.

End LineEnds.

(** X16.  A table saved with Windows line ends loads as the same rows, with the
    same message, as the table with plain line feeds. *)
Theorem windows_line_ends (st : app_state) (text : jsstring) :
  handleCsvUpload st (crlf text) = handleCsvUpload st text.
Proof.
  apply handleCsvUpload_lines. rewrite trim_crlf. apply split_lines_crlf.
Qed.

(** X17.  White space around the text of a table does not count, and a text of
    white space only is an empty table. *)
Theorem surrounding_white_space (st : app_state) (w1 text w2 : jsstring) :
  blank w1 -> blank w2 ->
  handleCsvUpload st (w1 ++ text ++ w2) = handleCsvUpload st text
  /\ handleCsvUpload st w1 = (st, Message warning "CSV file appears to be empty").
Proof.
  intros H1 H2. split.
  - apply handleCsvUpload_lines. rewrite (trim_surrounded w1 text w2 H1 H2).
    apply same_line_refl.
  - apply handleCsvUpload_short. unfold lines_of. rewrite (trim_blank w1 H1).
    cbn. lia.
Qed.

(** The table of the scenario after an empty line and before a final line
    end. *)
Lemma surrounding_white_space_witness :
  handleCsvUpload Scenario.initial ([LF] ++ Scenario.table ++ [CR; LF])
    = handleCsvUpload Scenario.initial Scenario.table
  /\ handleCsvUpload Scenario.initial [LF]
     = (Scenario.initial, Message warning "CSV file appears to be empty").
Proof.
  apply (surrounding_white_space Scenario.initial [LF] Scenario.table [CR; LF]).
  - constructor; [reflexivity | constructor].
  - constructor; [reflexivity |]. constructor; [reflexivity | constructor].
Defined.

(** X18.  The two uploads do not interfere: in either order they leave the same
    state, and each gives the message it gives on its own. *)
Theorem uploads_commute (st : app_state) (placemarks : list placemark)
    (g : geojson) (text : jsstring) :
  fst (handleCsvUpload (fst (handleKmlUpload st placemarks g)) text)
    = fst (handleKmlUpload (fst (handleCsvUpload st text)) placemarks g)
  /\ snd (handleCsvUpload (fst (handleKmlUpload st placemarks g)) text)
     = snd (handleCsvUpload st text)
  /\ snd (handleKmlUpload (fst (handleCsvUpload st text)) placemarks g)
     = snd (handleKmlUpload st placemarks g).
Proof.
  unfold handleKmlUpload, handleCsvUpload.
  destruct (add_ids placemarks g) as [g' |];
    [destruct (has_features g') |];
    (destruct (length (split_lines (trim text)) <? 2)%nat;
     [cbn; auto |];
     destruct (indexOf _ (lit "id")); [| cbn; auto];
     destruct (indexOf _ (lit "revenue")); [| cbn; auto];
     destruct (indexOf _ (lit "cost")); cbn; auto).
Qed.

(** X19.  An upload that succeeds replaces all that an earlier upload of the same
    kind did. *)
Theorem last_upload_wins (st : app_state) :
  (forall t1 t2 : jsstring,
     msg_level (snd (handleCsvUpload st t2)) = success ->
     handleCsvUpload (fst (handleCsvUpload st t1)) t2 = handleCsvUpload st t2)
  /\ (forall (p1 p2 : list placemark) (g1 g2 : geojson),
        msg_level (snd (handleKmlUpload st p2 g2)) = success ->
        handleKmlUpload (fst (handleKmlUpload st p1 g1)) p2 g2
          = handleKmlUpload st p2 g2).
Proof.
  split.
  - intros t1 t2.
    destruct (handleCsvUpload_cases st t1) as [-> | (i & r & c & _ & ->)];
      [reflexivity |].
    unfold handleCsvUpload.
    destruct (length (split_lines (trim t2)) <? 2)%nat; [discriminate |].
    destruct (indexOf _ (lit "id")); [| discriminate].
    destruct (indexOf _ (lit "revenue")); [| discriminate].
    destruct (indexOf _ (lit "cost")); [| discriminate].
    reflexivity.
  - intros p1 p2 g1 g2.
    destruct (handleKmlUpload_cases st p1 g1) as [-> | (g' & _ & _ & ->)];
      [reflexivity |].
    unfold handleKmlUpload.
    destruct (add_ids p2 g2) as [g2' |]; [| discriminate].
    destruct (has_features g2'); [| discriminate].
    reflexivity.
Qed.

(** A table of one row, then the table of the scenario. *)
Lemma last_upload_wins_witness :
  let t1 := lit "id,revenue,cost" ++ [LF] ++ lit "Q,1,2" in
  handleCsvUpload (fst (handleCsvUpload Scenario.initial t1)) Scenario.table
    = handleCsvUpload Scenario.initial Scenario.table
  /\ handleKmlUpload
       (fst (handleKmlUpload Scenario.initial [] (Scenario.collection VUndefined VUndefined)))
       Scenario.placemarks (Scenario.collection VUndefined VUndefined)
     = handleKmlUpload Scenario.initial Scenario.placemarks
         (Scenario.collection VUndefined VUndefined).
Proof.
  intros t1. destruct (last_upload_wins Scenario.initial) as [Hc Hk]. split.
  - apply Hc. vm_compute. reflexivity.
  - apply Hk. vm_compute. reflexivity.
Defined.

(* ===================================================================== *)
(** * The scale is asked within its range *)
(* ===================================================================== *)

(** X20.  A matched feature whose value of the selected metric is finite is
    drawn in the colour of the scale, and the scale is asked for a value
    between its two bounds. *)
Theorem matched_value_in_range (st : app_state) (f : option feature) (row : csvRow) :
  csvRowOf (csvRows st) (featureId f) = Some row ->
  isFinite (field (selectedMetric st) row) = true ->
  exists mn mx : num,
    metricMin st = Some mn /\ metricMax st = Some mx
    /\ SFleb mn (field (selectedMetric st) row) = true
    /\ SFleb (field (selectedMetric st) row) mx = true
    /\ fillColor (style st f) =
         VString (getColorForValue (VNumber (field (selectedMetric st) row))
                    (VNumber mn) (VNumber mx)).
Proof.
  intros Hrow Hfin.
  destruct (csvRowOf_Some _ _ _ Hrow) as (s & _ & _ & _ & Hin).
  assert (Hv : field (selectedMetric st) row ∈ metricValues st).
  { apply metricValues_iff. split; [exact Hfin |]. exists row. auto. }
  destruct (metricRange_exists st _ Hv) as [[mn Hmn] [mx Hmx]].
  exists mn, mx. split; [exact Hmn |]. split; [exact Hmx |].
  split; [exact (proj2 (metricMin_least st mn Hmn) _ Hv) |].
  split; [exact (proj2 (metricMax_greatest st mx Hmx) _ Hv) |].
  exact (proj2 (style_matched st f row mn mx Hrow Hmn Hmx)).
Qed.

(** The feature "S1" of the scenario, on revenue: 100 in the range from
    100 to 200. *)
Lemma matched_value_in_range_witness :
  let st := Scenario.loaded VUndefined VUndefined in
  let f := Some (Feature (VString (lit "S1")) None) in
  exists mn mx : num,
    metricMin st = Some mn /\ metricMax st = Some mx
    /\ SFleb mn (StringToNumber (lit "100")) = true
    /\ fillColor (style st f) = VString light_anchor.
Proof.
  intros st f.
  destruct (matched_value_in_range st f
              (CsvRow (Some (lit "S1")) (StringToNumber (lit "100"))
                 (StringToNumber (lit "40"))))
    as (mn & mx & Hmn & Hmx & Hlo & _ & Hc).
  - vm_compute. reflexivity.
  - vm_compute. reflexivity.
  - exists mn, mx. split; [exact Hmn |]. split; [exact Hmx |].
    split; [exact Hlo |]. rewrite Hc.
    assert (E1 : mn = StringToNumber (lit "100")).
    { assert (H : metricMin st = Some (StringToNumber (lit "100")))
        by (vm_compute; reflexivity). congruence. }
    assert (E2 : mx = StringToNumber (lit "200")).
    { assert (H : metricMax st = Some (StringToNumber (lit "200")))
        by (vm_compute; reflexivity). congruence. }
    rewrite E1, E2. vm_compute. reflexivity.
Defined.

(* ===================================================================== *)
(** * The popup and the colour agree *)
(* ===================================================================== *)

Section Popups.

(** A chain of [||] that ends in a truthy value is truthy. *)
Lemma or_else_truthy (a b : value) : truthy b = true -> truthy (a ||| b) = true.
Proof. intros H. unfold or_else. destruct (truthy a) eqn:E; [exact E | exact H]. Qed.

Lemma featureName_truthy (props : option object) :
  truthy (get_opt props "name" ||| get_opt props "Name" ||| VString (lit "Unnamed"))
    = true.
Proof. apply or_else_truthy. reflexivity. Qed.

End Popups.

(** X21.  The popup and the colour of a feature use the same record.  A popup
    that shows a record shows the one stored under the identifier of the
    feature; a feature with the diagnostic popup is drawn in its own
    colours, and its popup shows the identifier that was looked for and
    the identifiers of all the rows.  The name in a popup is never empty. *)
Theorem popup_agrees_with_style (st : app_state) (f : option feature) :
  (forall (n : value) (row : csvRow),
     onEachFeature st f = RecordPopup n row ->
     truthy n = true
     /\ csvRowOf (csvRows st) (featureId f) = Some row
     /\ exists i : jsstring,
          featureId f = VString i /\ id row = Some i /\ row ∈ csvRows st)
  /\ (forall (n shown : value) (ids : list (option jsstring)),
        onEachFeature st f = DiagnosticPopup n shown ids ->
        truthy n = true /\ shown = featureId f /\ ids = List.map id (csvRows st)
        /\ color (style st f) =
             get_opt (f ≫= f_properties) "stroke" ||| VString (lit "#3388ff")
        /\ fillColor (style st f) =
             get_opt (f ≫= f_properties) "fill" ||| VString (lit "#3388ff")).
Proof.
  unfold onEachFeature.
  destruct (csvRowOf (csvRows st) (featureId f)) as [row |] eqn:E; split.
  - intros n r [= <- <-]. split; [apply featureName_truthy |].
    split; [reflexivity |].
    destruct (csvRowOf_Some _ _ _ E) as (i & Hi & _ & Hid & Hin).
    exists i. auto.
  - intros n shown ids H. discriminate H.
  - intros n r H. discriminate H.
  - intros n shown ids [= <- <- <-]. split; [apply featureName_truthy |].
    split; [reflexivity |]. split; [reflexivity |].
    apply style_unmatched. left. exact E.
Qed.

(** The feature "S9" of no row, with its own fill, beside the rows of the
    scenario. *)
Lemma popup_agrees_with_style_witness :
  let st := Scenario.loaded VUndefined VUndefined in
  let f := Some (Feature (VString (lit "S9"))
                   (Some {[ lit "fill" := VString (lit "#00ff00") ]})) in
  onEachFeature st f =
    DiagnosticPopup (VString (lit "Unnamed")) (VString (lit "S9"))
      [Some (lit "S1"); Some (lit "S2")]
  /\ fillColor (style st f) = VString (lit "#00ff00").
Proof.
  intros st f.
  assert (H : onEachFeature st f =
              DiagnosticPopup (VString (lit "Unnamed")) (VString (lit "S9"))
                [Some (lit "S1"); Some (lit "S2")]) by (vm_compute; reflexivity).
  split; [exact H |].
  destruct (proj2 (popup_agrees_with_style st f) _ _ _ H) as (_ & _ & _ & _ & Hfill).
  rewrite Hfill. vm_compute. reflexivity.
Defined.
